(** * Temperature analysis and live weather monitoring

    A shallow embedding of [analysis.py] and [weather_monitor.py], and of
    the analysis steps of [app.py].

    Python [float] values and the cells of float64 columns are IEEE 754
    binary64 numbers: they are embedded as Rocq's primitive [float], whose
    operations are the round-to-nearest-even binary64 operations, with a
    single NaN.  pandas writes a missing cell of a float column as NaN, so
    "absent" is [nan] throughout.

    A DataFrame is embedded as the list of its rows, each with its index
    label, together with the derived columns that the analysis adds.
    Column operations ([df['c'] == v], [df[mask]], [df.loc[mask, c] = v])
    are written out over these lists.  Python exceptions are values of
    [result].  Row labels are assumed distinct where label alignment
    matters, as they are in every frame [pd.read_csv] builds. *)

From Stdlib Require Import ZArith PArith QArith Qcanon Bool String List Lia.
From Stdlib Require Import Sorted Permutation.
From Stdlib Require Uint63.
From Stdlib Require Import Floats.
Import ListNotations.

Set Warnings "-inexact-float,-register-all,-level-tolerance".

Local Open Scope Z_scope.

(** ** Python values *)
Module Py.

Inductive exn : Type :=
| ValueError (msg : string)
| KeyError (key : string)
| IndexError (msg : string)
| TypeError (msg : string)
| ConnectionError (msg : string)
| HTTPError (status : Z)
| JSONDecodeError (msg : string)
| ClientResponseError (status : Z)
| ContentTypeError (msg : string).

(** The outcome of a call: a value, or a raised exception. *)
Inductive result (A : Type) : Type :=
| Ok (a : A)
| Raise (e : exn).
Arguments Ok {A} a.
Arguments Raise {A} e.

Definition bind {A B : Type} (r : result A) (k : A -> result B) : result B :=
  match r with
  | Ok a => k a
  | Raise e => Raise e
  end.

(** [try: r except Exception: return h]. *)
Definition try_except {A : Type} (r : result A) (h : exn -> A) : A :=
  match r with
  | Ok a => a
  | Raise e => h e
  end.

End Py.

Notation "x <- c ;; k" := (Py.bind c (fun x => k))
  (at level 61, c at next level, right associativity).

(** ** binary64 numbers *)
Module F64.

(** [math.isnan]. *)
Definition isnan (x : float) : bool := PrimFloat.is_nan x.

(** A number: neither NaN nor an infinity. *)
Definition isfinite (x : float) : bool := PrimFloat.is_finite x.

(** [float(n)] for a count [n]. *)
Definition of_nat (n : nat) : float :=
  PrimFloat.of_uint63 (Uint63.of_Z (Z.of_nat n)).

(** [float(z)] for an integer [z]. *)
Definition of_Z (z : Z) : float :=
  if z <? 0 then (- PrimFloat.of_uint63 (Uint63.of_Z (- z)))%float
  else PrimFloat.of_uint63 (Uint63.of_Z z).

End F64.

(** ** The anomaly band

    Both [calc_anomalies] and [get_season_stats] compute the bounds
    [mean - 2 * std] and [mean + 2 * std].  The two expressions are written
    once, over the operations of their carrier: the program evaluates them
    over binary64, and the exact reading over the rationals serves to say
    what rounding does to them. *)
Section Band.

Context {T : Type}.
Variables (add sub mul : T -> T -> T) (two : T).

Definition band_lower (m s : T) : T := sub m (mul two s).
Definition band_upper (m s : T) : T := add m (mul two s).

End Band.

(** The band as the program computes it. *)
Definition lower_f64 (m s : float) : float :=
  band_lower PrimFloat.sub PrimFloat.mul 2%float m s.
Definition upper_f64 (m s : float) : float :=
  band_upper PrimFloat.add PrimFloat.mul 2%float m s.

(** The band in exact arithmetic. *)
Definition lower_exact (m s : Q) : Q := band_lower Qminus Qmult (2 # 1)%Q m s.
Definition upper_exact (m s : Q) : Q := band_upper Qplus Qmult (2 # 1)%Q m s.

(** ** pandas: reductions and fixed rolling windows *)
Module Pandas.

Definition notna (x : float) : bool := negb (F64.isnan x).

Definition dropna (xs : list float) : list float := filter notna xs.

(** The number of cells that are not NaN ([Series.count()]). *)
Definition count (xs : list float) : nat := length (dropna xs).

(** [np.putmask(values, mask, 0)]: the NaN cells set to zero. *)
Definition fillna0 (xs : list float) : list float :=
  map (fun x => if notna x then x else 0%float) xs.

(** *** numpy's sum of a float64 array

    [ndarray.sum] adds pairwise: fewer than eight values one after the
    other; up to 128 values in eight interleaved partial sums, which are
    then added two by two, followed by the values left over; a longer array
    as the sum of its two halves, the first a multiple of eight long. *)
Definition sum_from (acc : float) (xs : list float) : float :=
  fold_left PrimFloat.add xs acc.

(** [r[j] += a[i + j]] for the blocks of eight values that are complete;
    returns the partial sums and the values left over. *)
Fixpoint add_blocks (r xs : list float) {struct xs}
    : list float * list float :=
  match xs with
  | a0 :: a1 :: a2 :: a3 :: a4 :: a5 :: a6 :: a7 :: rest =>
      add_blocks
        (map (fun p => (fst p + snd p)%float)
             (combine r [a0; a1; a2; a3; a4; a5; a6; a7]))
        rest
  | _ => (r, xs)
  end.

Definition sum_unrolled (xs : list float) : float :=
  let '(r, rest) := add_blocks (firstn 8 xs) (skipn 8 xs) in
  match r with
  | [r0; r1; r2; r3; r4; r5; r6; r7] =>
      sum_from (((r0 + r1) + (r2 + r3)) + ((r4 + r5) + (r6 + r7)))%float rest
  | _ => nan
  end.

(** The recursion halves the array, so its depth stays below the [fuel],
    which [np_sum] sets to the length. *)
Fixpoint pairwise_sum (fuel : nat) (xs : list float) : float :=
  let n := length xs in
  if (n <? 8)%nat then sum_from (-0)%float xs
  else if (n <=? 128)%nat then sum_unrolled xs
  else
    match fuel with
    | O => nan
    | S fuel' =>
        let n2 := (n / 2 - (n / 2) mod 8)%nat in
        (pairwise_sum fuel' (firstn n2 xs)
         + pairwise_sum fuel' (skipn n2 xs))%float
    end.

Definition np_sum (xs : list float) : float := pairwise_sum (length xs) xs.

(** [Series.mean()]: NaN cells are set to zero for the sum and left out of
    the count; the mean of no value is NaN. *)
Definition mean (xs : list float) : float :=
  let n := count xs in
  if (n =? 0)%nat then nan
  else (np_sum (fillna0 xs) / F64.of_nat n)%float.

(** [Series.var()] with [ddof=1]: the squared deviations from the mean,
    zero at the NaN cells, summed and divided by [count - 1]; with
    [count <= ddof] values the result is NaN. *)
Definition var (xs : list float) : float :=
  let n := count xs in
  if (n <=? 1)%nat then nan
  else
    let avg := (np_sum (fillna0 xs) / F64.of_nat n)%float in
    let sqr :=
      map (fun x => if notna x then ((avg - x) * (avg - x))%float
                    else 0%float) xs in
    (np_sum sqr / F64.of_nat (n - 1))%float.

(** [Series.std()]: the sample standard deviation. *)
Definition std (xs : list float) : float := PrimFloat.sqrt (var xs).

(** *** The aggregates of [groupby]

    A group is reduced value by value, in row order, skipping NaN: the mean
    with a compensated (Kahan) sum, the variance with Welford's update. *)
Record GroupSum : Type := mkGroupSum {
  gs_nobs : nat;
  gs_sumx : float;
  gs_compensation : float
}.

Definition group_mean_step (st : GroupSum) (val : float) : GroupSum :=
  if notna val then
    let y := (val - gs_compensation st)%float in
    let t := (gs_sumx st + y)%float in
    let c := (t - gs_sumx st - y)%float in
    mkGroupSum (S (gs_nobs st)) t (if F64.isnan c then 0%float else c)
  else st.

Definition group_mean (xs : list float) : float :=
  let st := fold_left group_mean_step xs (mkGroupSum 0 0 0) in
  if (gs_nobs st =? 0)%nat then nan
  else (gs_sumx st / F64.of_nat (gs_nobs st))%float.

Record GroupVar : Type := mkGroupVar {
  gv_nobs : nat;
  gv_mean : float;
  gv_out : float
}.

Definition group_var_step (st : GroupVar) (val : float) : GroupVar :=
  if notna val then
    let n := S (gv_nobs st) in
    let oldmean := gv_mean st in
    let m := (oldmean + (val - oldmean) / F64.of_nat n)%float in
    mkGroupVar n m (gv_out st + (val - m) * (val - oldmean))%float
  else st.

(** The sample standard deviation ([ddof=1]) of a group. *)
Definition group_std (xs : list float) : float :=
  let st := fold_left group_var_step xs (mkGroupVar 0 0 0) in
  if (gv_nobs st <=? 1)%nat then nan
  else PrimFloat.sqrt (gv_out st / F64.of_nat (gv_nobs st - 1))%float.

(** [np.clip(x, lo, hi)]. *)
Definition clip (lo hi x : Z) : Z := Z.min hi (Z.max lo x).

(** The offset of a centered fixed window ([center=True]). *)
Definition center_offset (W : Z) : Z := (W - 1) / 2.

(** [FixedWindowIndexer.get_window_bounds] at position [i] of [n] values:
    the window is [xs[start:end]], [end] exclusive. *)
Definition window_bounds (n W i : Z) : Z * Z :=
  let e := i + 1 + center_offset W in
  let s := e - W in
  (clip 0 n s, clip 0 n e).

(** [xs[s:e]] for [0 <= s] and [0 <= e]. *)
Definition slice {A : Type} (xs : list A) (s e : Z) : list A :=
  firstn (Z.to_nat (e - s)) (skipn (Z.to_nat s) xs).

(** A value a rolling aggregate leaves out: NaN, or an infinity. *)
Definition missing (x : float) : bool :=
  F64.isnan x || PrimFloat.is_infinity x.

(** The values as a rolling aggregate sees them: an infinity counts as a
    missing value. *)
Definition prep_values (xs : list float) : list float :=
  map (fun x => if PrimFloat.is_infinity x then nan else x) xs.

(** *** The rolling kernels

    [Rolling.mean] and [Rolling.std] do not evaluate each window afresh:
    the kernel keeps a running state, and moving from one window to the
    next it removes the values that leave and adds the values that enter,
    with a compensation term for the rounding of each update.  The kernels
    are written over the arithmetic they are evaluated in: the program
    evaluates them in binary64, and their reading in exact arithmetic says
    what they compute. *)
Record Arith (T : Type) : Type := mkArith {
  a_add : T -> T -> T;
  a_sub : T -> T -> T;
  a_mul : T -> T -> T;
  a_div : T -> T -> T;
  a_neg : T -> T;
  a_zero : T;
  a_of_count : Z -> T;
  a_observed : T -> bool;
  a_eqb : T -> T -> bool;
  a_ltb : T -> T -> bool;
  a_signbit : T -> bool;
  a_nan : T
}.
Arguments a_add {T}.
Arguments a_sub {T}.
Arguments a_mul {T}.
Arguments a_div {T}.
Arguments a_neg {T}.
Arguments a_zero {T}.
Arguments a_of_count {T}.
Arguments a_observed {T}.
Arguments a_eqb {T}.
Arguments a_ltb {T}.
Arguments a_signbit {T}.
Arguments a_nan {T}.

(** binary64, where a value is observed when it is not NaN. *)
Definition binary64 : Arith float :=
  mkArith float PrimFloat.add PrimFloat.sub PrimFloat.mul PrimFloat.div
          PrimFloat.opp 0%float F64.of_Z notna PrimFloat.eqb PrimFloat.ltb
          PrimFloat.get_sign nan.

(** The rationals, where every value is observed and nothing is undefined:
    the last field is never used on a window that is complete. *)
Definition qcount (z : Z) : Qc := Q2Qc (inject_Z z).

Definition rationals : Arith Qc :=
  mkArith Qc Qcplus Qcminus Qcmult Qcdiv Qcopp 0%Qc
          qcount (fun _ => true) Qc_eq_bool
          (fun x y => if Qclt_le_dec x y then true else false)
          (fun x => if Qclt_le_dec x 0%Qc then true else false) 0%Qc.

Section Kernels.

Context {T : Type}.
Variable A : Arith T.

Local Infix "+" := (a_add A).
Local Infix "-" := (a_sub A).
Local Infix "*" := (a_mul A).
Local Infix "/" := (a_div A).

(** The state of [roll_mean]. *)
Record RollMean : Type := mkRollMean {
  m_nobs : Z;
  m_sum_x : T;
  m_neg_ct : Z;
  m_compensation_add : T;
  m_compensation_remove : T;
  m_num_consecutive_same_value : Z;
  m_prev_value : T
}.

Definition init_mean (first : T) : RollMean :=
  mkRollMean 0 (a_zero A) 0 (a_zero A) (a_zero A) 0 first.

Definition add_mean (st : RollMean) (val : T) : RollMean :=
  if a_observed A val then
    let y := val - m_compensation_add st in
    let t := m_sum_x st + y in
    mkRollMean
      (m_nobs st + 1)%Z t
      (if a_signbit A val then (m_neg_ct st + 1)%Z else m_neg_ct st)
      (t - m_sum_x st - y) (m_compensation_remove st)
      (if a_eqb A val (m_prev_value st)
       then (m_num_consecutive_same_value st + 1)%Z else 1%Z)
      val
  else st.

Definition remove_mean (st : RollMean) (val : T) : RollMean :=
  if a_observed A val then
    let y := a_neg A val - m_compensation_remove st in
    let t := m_sum_x st + y in
    mkRollMean
      (m_nobs st - 1)%Z t
      (if a_signbit A val then (m_neg_ct st - 1)%Z else m_neg_ct st)
      (m_compensation_add st) (t - m_sum_x st - y)
      (m_num_consecutive_same_value st) (m_prev_value st)
  else st.

Definition calc_mean (minp : Z) (st : RollMean) : T :=
  if (minp <=? m_nobs st)%Z && (0 <? m_nobs st)%Z then
    let result := m_sum_x st / a_of_count A (m_nobs st) in
    if (m_nobs st <=? m_num_consecutive_same_value st)%Z then m_prev_value st
    else if (m_neg_ct st =? 0)%Z && a_ltb A result (a_zero A) then a_zero A
    else if (m_neg_ct st =? m_nobs st)%Z && a_ltb A (a_zero A) result
         then a_zero A
    else result
  else a_nan A.

(** The state of [roll_var]: Welford's running mean and sum of squared
    differences from the mean. *)
Record RollVar : Type := mkRollVar {
  v_nobs : Z;
  v_mean_x : T;
  v_ssqdm_x : T;
  v_compensation_add : T;
  v_compensation_remove : T;
  v_num_consecutive_same_value : Z;
  v_prev_value : T
}.

Definition init_var (first : T) : RollVar :=
  mkRollVar 0 (a_zero A) (a_zero A) (a_zero A) (a_zero A) 0 first.

Definition add_var (st : RollVar) (val : T) : RollVar :=
  if a_observed A val then
    let nobs := (v_nobs st + 1)%Z in
    let prev_mean := v_mean_x st - v_compensation_add st in
    let y := val - v_compensation_add st in
    let t := y - v_mean_x st in
    let mean_x :=
      if (nobs =? 0)%Z then a_zero A
      else v_mean_x st + t / a_of_count A nobs in
    mkRollVar
      nobs mean_x
      (v_ssqdm_x st + (val - prev_mean) * (val - mean_x))
      (t + v_mean_x st - y) (v_compensation_remove st)
      (if a_eqb A val (v_prev_value st)
       then (v_num_consecutive_same_value st + 1)%Z else 1%Z)
      val
  else st.

Definition remove_var (st : RollVar) (val : T) : RollVar :=
  if a_observed A val then
    let nobs := (v_nobs st - 1)%Z in
    if (nobs =? 0)%Z then
      mkRollVar nobs (a_zero A) (a_zero A)
                (v_compensation_add st) (v_compensation_remove st)
                (v_num_consecutive_same_value st) (v_prev_value st)
    else
      let prev_mean := v_mean_x st - v_compensation_remove st in
      let y := val - v_compensation_remove st in
      let t := y - v_mean_x st in
      let mean_x := v_mean_x st - t / a_of_count A nobs in
      mkRollVar
        nobs mean_x
        (v_ssqdm_x st - (val - prev_mean) * (val - mean_x))
        (v_compensation_add st) (t + v_mean_x st - y)
        (v_num_consecutive_same_value st) (v_prev_value st)
  else st.

Definition calc_var (minp ddof : Z) (st : RollVar) : T :=
  if (minp <=? v_nobs st)%Z && (ddof <? v_nobs st)%Z then
    if (v_nobs st =? 1)%Z
       || (v_nobs st <=? v_num_consecutive_same_value st)%Z
    then a_zero A
    else v_ssqdm_x st / a_of_count A (v_nobs st - ddof)
  else a_nan A.

(** The state for the window [vals[s:e]], from the state [prev] of the
    window before it: at the first position, and when the two windows do
    not overlap, the state is set up from the values of the window;
    otherwise the values that left are removed and those that entered are
    added. *)
Definition slide {St : Type} (init : T -> St) (addf removef : St -> T -> St)
    (vals : list T) (prev : option (Z * Z * St)) (s e : Z) : St :=
  let setup :=
    fold_left addf (slice vals s e)
              (init (nth (Z.to_nat s) vals (a_nan A))) in
  match prev with
  | Some (ps, pe, st) =>
      if (pe <=? s)%Z then setup
      else fold_left addf (slice vals pe e)
                     (fold_left removef (slice vals ps s) st)
  | None => setup
  end.

(** The loop over the positions: one output for each window. *)
Fixpoint roll_loop {St : Type} (init : T -> St)
    (addf removef : St -> T -> St) (calc : St -> T) (vals : list T)
    (bounds : list (Z * Z)) (prev : option (Z * Z * St)) : list T :=
  match bounds with
  | [] => []
  | (s, e) :: rest =>
      let st := slide init addf removef vals prev s e in
      calc st :: roll_loop init addf removef calc vals rest (Some (s, e, st))
  end.

(** The windows of a centered fixed window of size [W] over [n] values. *)
Definition fixed_bounds (n : nat) (W : Z) : list (Z * Z) :=
  map (fun i : nat => window_bounds (Z.of_nat n) W (Z.of_nat i)) (seq 0 n).

(** [roll_mean] and [roll_var] with [min_periods] at its default, the
    window size, and [ddof=1]. *)
Definition roll_mean (W : Z) (vals : list T) : list T :=
  roll_loop init_mean add_mean remove_mean (calc_mean W) vals
            (fixed_bounds (length vals) W) None.

Definition roll_var (W : Z) (vals : list T) : list T :=
  roll_loop init_var add_var remove_var (calc_var (Z.max W 1) 1) vals
            (fixed_bounds (length vals) W) None.

End Kernels.

(** [zsqrt]: the square root, zero for a negative number. *)
Definition zsqrt (x : float) : float :=
  if (x <? 0)%float then 0%float else PrimFloat.sqrt x.

(** [xs.rolling(window=W, center=True).mean()] and [.std()]: [min_periods]
    defaults to the window size, so a position has a value only when its
    window holds [W] values that are neither NaN nor infinite. *)
Definition rolling_mean (W : Z) (xs : list float) : list float :=
  roll_mean binary64 W (prep_values xs).

Definition rolling_std (W : Z) (xs : list float) : list float :=
  map zsqrt (roll_var binary64 W (prep_values xs)).

(** Boolean indexing [xs[mask]]. *)
Fixpoint select {A : Type} (mask : list bool) (xs : list A) : list A :=
  match mask, xs with
  | b :: mask', x :: xs' =>
      if b then x :: select mask' xs' else select mask' xs'
  | _, _ => []
  end.

(** A Series: values with their index labels. *)
Definition Series : Type := list (Z * float).

Definition values (s : Series) : list float := map snd s.

(** A rolling aggregate keeps the index of the series it is taken of. *)
Definition series_apply (f : list float -> list float) (s : Series) : Series :=
  combine (map fst s) (f (values s)).

(** The value of a series at a label; NaN where the label is missing. *)
Fixpoint series_at (s : Series) (l : Z) : float :=
  match s with
  | [] => nan
  | (l', v) :: s' => if l' =? l then v else series_at s' l
  end.

(** [df.loc[mask, c] = s] for a Series [s]: each masked row takes the value
    of [s] at its own label. *)
Fixpoint loc_set_series (mask : list bool) (labels : list Z)
    (col : list float) (s : Series) : list float :=
  match mask, labels, col with
  | b :: mask', l :: labels', old :: col' =>
      (if b then series_at s l else old) :: loc_set_series mask' labels' col' s
  | _, _, _ => col
  end.

(** The masked rows take the values in order. *)
Fixpoint scatter (mask : list bool) (col vals : list float) : list float :=
  match mask, col with
  | b :: mask', old :: col' =>
      if b then
        match vals with
        | v :: vals' => v :: scatter mask' col' vals'
        | [] => old :: scatter mask' col' []
        end
      else old :: scatter mask' col' vals
  | _, _ => col
  end.

(** [df.loc[mask, c] = a] for an array [a]: positional, and a [ValueError]
    unless [a] has one value per masked row. *)
Definition loc_set_values (mask : list bool) (col vals : list float)
    : Py.result (list float) :=
  if (length vals =? length (select mask col))%nat
  then Py.Ok (scatter mask col vals)
  else Py.Raise (Py.ValueError "Must have equal len keys and value"%string).

(** [Series.unique()]: the distinct values in order of first appearance. *)
Definition unique (xs : list string) : list string :=
  fold_left (fun acc x => if existsb (String.eqb x) acc then acc else acc ++ [x])
            xs [].

End Pandas.

(** ** analysis.py *)
Module Analysis.
Import Pandas.

Definition WINDOW_SIZE : Z := 30.

(** A row of the historical dataset, with its index label.  A timestamp is a
    number of seconds. *)
Record Row : Type := mkRow {
  label : Z;
  timestamp : Z;
  city : string;
  temperature : float;
  season : string
}.

(** The frame: the rows as read, and the columns the analysis adds.  A column
    that was never assigned is [None] ([df[c]] raises [KeyError]). *)
Record DataFrame : Type := mkDataFrame {
  rows : list Row;
  moving_mean : option (list float);
  moving_std : option (list float);
  lower_bound : option (list float);
  upper_bound : option (list float);
  is_anomaly : option (list bool);
  trend : option (list float)
}.

(** The frame [read_csv] returns: the four columns of the file. *)
Definition frame_of (rs : list Row) : DataFrame :=
  mkDataFrame rs None None None None None None.

Definition set_moving_mean (df : DataFrame) (c : list float) : DataFrame :=
  mkDataFrame (rows df) (Some c) (moving_std df) (lower_bound df)
              (upper_bound df) (is_anomaly df) (trend df).

Definition set_moving_std (df : DataFrame) (c : list float) : DataFrame :=
  mkDataFrame (rows df) (moving_mean df) (Some c) (lower_bound df)
              (upper_bound df) (is_anomaly df) (trend df).

Definition set_trend (df : DataFrame) (c : list float) : DataFrame :=
  mkDataFrame (rows df) (moving_mean df) (moving_std df) (lower_bound df)
              (upper_bound df) (is_anomaly df) (Some c).

Definition labels (df : DataFrame) : list Z := map label (rows df).
Definition col_city (df : DataFrame) : list string := map city (rows df).
Definition col_temperature (df : DataFrame) : list float :=
  map temperature (rows df).

(** The column an assignment through [df.loc] writes into: the existing one,
    or a new column of NaN. *)
Definition column (df : DataFrame) (c : option (list float)) : list float :=
  match c with
  | Some l => l
  | None => repeat nan (length (rows df))
  end.

(** The cell of a derived column at a position, when there is one. *)
Definition cell {A : Type} (c : option (list A)) (i : nat) : option A :=
  match c with
  | Some l => nth_error l i
  | None => None
  end.

(** A derived column, when present, has one cell per row. *)
Definition column_ok (df : DataFrame) (c : option (list float)) : Prop :=
  match c with
  | Some l => length l = length (rows df)
  | None => True
  end.

Definition well_formed (df : DataFrame) : Prop :=
  column_ok df (moving_mean df) /\ column_ok df (moving_std df)
  /\ column_ok df (trend df).

(** The labels of a frame are pairwise distinct, as a test. *)
Fixpoint distinct (ls : list Z) : bool :=
  match ls with
  | [] => true
  | l :: ls' => negb (existsb (Z.eqb l) ls') && distinct ls'
  end.

(** [df['city'] == c]. *)
Definition city_mask (df : DataFrame) (c : string) : list bool :=
  map (fun r => String.eqb (city r) c) (rows df).

(** [df.loc[mask, 'temperature']]. *)
Definition loc_temperature (df : DataFrame) (mask : list bool) : Series :=
  combine (select mask (labels df)) (select mask (col_temperature df)).

(** The body of the sequential loop, for one city. *)
Definition moving_avg_seq_step (df : DataFrame) (c : string) : DataFrame :=
  let mask := city_mask df c in
  let df1 :=
    set_moving_mean df
      (loc_set_series mask (labels df) (column df (moving_mean df))
         (series_apply (rolling_mean WINDOW_SIZE) (loc_temperature df mask))) in
  let mask1 := city_mask df1 c in
  set_moving_std df1
    (loc_set_series mask1 (labels df1) (column df1 (moving_std df1))
       (series_apply (rolling_std WINDOW_SIZE) (loc_temperature df1 mask1))).

Definition calc_city_moving (args : list Row * string)
    : string * list float * list float :=
  let '(city_df, c) := args in
  let mean_vals := rolling_mean WINDOW_SIZE (map temperature city_df) in
  let std_vals := rolling_std WINDOW_SIZE (map temperature city_df) in
  (c, mean_vals, std_vals).

(** [Pool.map]: the results come back in the order of the arguments. *)
Definition pool_map {A B : Type} (f : A -> B) (xs : list A) : list B :=
  map f xs.

(** The body of the merging loop, for one worker's result. *)
Definition moving_avg_par_step (df : DataFrame)
    (res : string * list float * list float) : Py.result DataFrame :=
  let '(c, mean_vals, std_vals) := res in
  let mask := city_mask df c in
  mm <- loc_set_values mask (column df (moving_mean df)) mean_vals ;;
  let df1 := set_moving_mean df mm in
  ms <- loc_set_values mask (column df1 (moving_std df1)) std_vals ;;
  Py.Ok (set_moving_std df1 ms).

Definition calc_moving_avg (df : DataFrame) (parallel : bool)
    : Py.result DataFrame :=
  if negb parallel then
    Py.Ok (fold_left moving_avg_seq_step (unique (col_city df)) df)
  else
    let cities := unique (col_city df) in
    let results :=
      pool_map calc_city_moving
        (map (fun c => (select (city_mask df c) (rows df), c)) cities) in
    fold_left (fun acc res => df' <- acc ;; moving_avg_par_step df' res)
              results (Py.Ok df).

(** The values one city's rows are given, by either strategy. *)
Definition city_means (df : DataFrame) (c : string) : list float :=
  rolling_mean WINDOW_SIZE (select (city_mask df c) (col_temperature df)).
Definition city_stds (df : DataFrame) (c : string) : list float :=
  rolling_std WINDOW_SIZE (select (city_mask df c) (col_temperature df)).

(** One city's rows assigned position by position: what a step of either
    strategy amounts to. *)
Definition assign_city (df : DataFrame) (c : string) : DataFrame :=
  let mask := city_mask df c in
  set_moving_std
    (set_moving_mean df
       (scatter mask (column df (moving_mean df)) (city_means df c)))
    (scatter mask (column df (moving_std df)) (city_stds df c)).

(** The frame [b] has the rows of [a], in the same order, and the same
    columns other than [moving_mean] and [moving_std]. *)
Definition same_but_moving (a b : DataFrame) : Prop :=
  rows b = rows a /\ lower_bound b = lower_bound a
  /\ upper_bound b = upper_bound a /\ is_anomaly b = is_anomaly a
  /\ trend b = trend a.

(** [temperature < lower_bound | temperature > upper_bound], for one row. *)
Definition outside (t lo hi : float) : bool :=
  (t <? lo)%float || (hi <? t)%float.

Definition calc_anomalies (df : DataFrame) : Py.result DataFrame :=
  match moving_mean df with
  | None => Py.Raise (Py.KeyError "moving_mean")
  | Some mm =>
      match moving_std df with
      | None => Py.Raise (Py.KeyError "moving_std")
      | Some ms =>
          let lo := map (fun p => lower_f64 (fst p) (snd p)) (combine mm ms) in
          let hi := map (fun p => upper_f64 (fst p) (snd p)) (combine mm ms) in
          let flags :=
            map (fun p => outside (fst p) (fst (snd p)) (snd (snd p)))
                (combine (col_temperature df) (combine lo hi)) in
          Py.Ok (mkDataFrame (rows df) (Some mm) (Some ms) (Some lo) (Some hi)
                             (Some flags) (trend df))
      end
  end.

(** The flag [calc_anomalies] gives a row with temperature [t], moving mean
    [m] and moving standard deviation [s]. *)
Definition flag_of (t m s : float) : bool :=
  outside t (lower_f64 m s) (upper_f64 m s).

(** [city_df['is_anomaly'].sum()]: the number of flagged rows. *)
Definition n_anomalies (flags : list bool) : nat :=
  length (filter (fun b : bool => b) flags).

(** *** The trend estimator *)

Record LinregressResult : Type := mkLinregress {
  slope : float;
  intercept : float;
  rvalue : float;
  pvalue : float;
  stderr : float
}.

Definition zmin (xs : list Z) : Z :=
  match xs with
  | [] => 0
  | x :: xs' => fold_left Z.min xs' x
  end.

Definition zmax (xs : list Z) : Z :=
  match xs with
  | [] => 0
  | x :: xs' => fold_left Z.max xs' x
  end.

(** [np.mean]: numpy's sum over the number of values; NaN cells are not
    skipped. *)
Definition np_mean (xs : list float) : float :=
  (Pandas.np_sum xs / F64.of_nat (length xs))%float.

Definition TINY : float := 1.0e-20%float.

Section Linregress.

(** The two-sided p-value of a statistic [t] under Student's distribution
    with [df] degrees of freedom: a special function, left uninterpreted. *)
Variable student_t_two_sided : float -> Z -> float.

(** [scipy.stats.linregress(x, y)]: it refuses a sample whose [x] are all
    the same, and otherwise returns the least-squares line.  The correlation
    of a sample without variance in [x] or in [y] is undefined, NaN.  The
    mean squares [ssxm], [ssxym] and [ssym] are the entries of
    [np.cov(x, y, bias=1)], a matrix product of the centered values; their
    sums are written with numpy's sum. *)
Definition linregress (x : list Z) (y : list float)
    : Py.result LinregressResult :=
  if (length x =? 0)%nat || (length y =? 0)%nat then
    Py.Raise (Py.ValueError "Inputs must not be empty.")
  else if (zmax x =? zmin x) && (1 <? length x)%nat then
    Py.Raise (Py.ValueError
      "Cannot calculate a linear regression if all x values are identical")
  else
    let n := length x in
    let xf := map F64.of_Z x in
    let xmean := np_mean xf in
    let ymean := np_mean y in
    let dx := map (fun v => (v - xmean)%float) xf in
    let dy := map (fun v => (v - ymean)%float) y in
    let ssxm := np_mean (map (fun d => (d * d)%float) dx) in
    let ssxym :=
      np_mean (map (fun p => (fst p * snd p)%float) (combine dx dy)) in
    let ssym := np_mean (map (fun d => (d * d)%float) dy) in
    let r :=
      if (ssxm =? 0)%float || (ssym =? 0)%float then nan
      else
        let r0 := (ssxym / sqrt (ssxm * ssym))%float in
        if (1 <? r0)%float then 1%float
        else if (r0 <? -1)%float then (-1)%float
        else r0 in
    let slope := (ssxym / ssxm)%float in
    let intercept := (ymean - slope * xmean)%float in
    if (n =? 2)%nat then
      let prob :=
        match y with
        | y0 :: y1 :: _ => if (y0 =? y1)%float then 1%float else 0%float
        | _ => 0%float
        end in
      Py.Ok (mkLinregress slope intercept r prob 0%float)
    else
      let df := Z.of_nat n - 2 in
      let t :=
        (r * sqrt (F64.of_Z df / ((1 - r + TINY) * (1 + r + TINY))))%float in
      let prob := student_t_two_sided t df in
      let se := sqrt ((1 - r * r) * ssym / ssxm / F64.of_Z df)%float in
      Py.Ok (mkLinregress slope intercept r prob se).

(** [(ts - ts.min()).dt.days]: whole days since the earliest timestamp. *)
Definition day_offsets (ts : list Z) : list Z :=
  map (fun t => (t - zmin ts) / 86400) ts.

(** What the dict [trends] keeps for a city: [(slope, r_value, p_value)]. *)
Definition Trends : Type := list (string * (float * float * float)).

(** The body of the loop of [calc_trend], for one city: the exception of
    [linregress] is not handled. *)
Definition calc_trend_step (st : Trends * DataFrame) (c : string)
    : Py.result (Trends * DataFrame) :=
  let '(trends, df) := st in
  let mask := city_mask df c in
  let city_df := select mask (rows df) in
  let days := day_offsets (map timestamp city_df) in
  lr <- linregress days (map temperature city_df) ;;
  col <- loc_set_values mask (column df (trend df))
           (map (fun d => (slope lr * F64.of_Z d + intercept lr)%float) days) ;;
  Py.Ok ((trends ++ [(c, (slope lr, rvalue lr, pvalue lr))])%list,
         set_trend df col).

(** [calc_trend]: the dict of trends, and the frame with its [trend] column. *)
Definition calc_trend (df : DataFrame) : Py.result (Trends * DataFrame) :=
  fold_left (fun acc c => st <- acc ;; calc_trend_step st c)
            (unique (col_city df)) (Py.Ok ([], df)).

(** [df[df['city'] == city]]: the rows of one city, and their day offsets. *)
Definition city_frame (df : DataFrame) (c : string) : list Row :=
  select (city_mask df c) (rows df).

Definition city_days (df : DataFrame) (c : string) : list Z :=
  day_offsets (map timestamp (city_frame df c)).

(** The regression of one city's temperatures on its day offsets. *)
Definition city_fit (df : DataFrame) (c : string)
    : Py.result LinregressResult :=
  linregress (city_days df c) (map temperature (city_frame df c)).

(** [slope * days + intercept]: the values of the fitted line. *)
Definition fitted (lr : LinregressResult) (days : list Z) : list float :=
  map (fun d => (slope lr * F64.of_Z d + intercept lr)%float) days.

(** All the readings lie less than a day after the earliest of them. *)
Definition within_one_day (rs : list Row) : Prop :=
  forall r r', In r rs -> In r' rs -> timestamp r' - timestamp r < 86400.

(** Two of the readings lie a day or more apart. *)
Definition spans_a_day (rs : list Row) : Prop :=
  exists r r', In r rs /\ In r' rs /\ 86400 <= timestamp r' - timestamp r.

(** The frame with every timestamp moved by [k] seconds. *)
Definition shift_row (k : Z) (r : Row) : Row :=
  mkRow (label r) (timestamp r + k) (city r) (temperature r) (season r).

Definition shift_timestamps (k : Z) (df : DataFrame) : DataFrame :=
  mkDataFrame (map (shift_row k) (rows df)) (moving_mean df) (moving_std df)
              (lower_bound df) (upper_bound df) (is_anomaly df) (trend df).

(** The frame [b] has the rows of [a], in the same order, and the same
    columns other than [trend]. *)
Definition same_but_trend (a b : DataFrame) : Prop :=
  rows b = rows a /\ moving_mean b = moving_mean a
  /\ moving_std b = moving_std a /\ lower_bound b = lower_bound a
  /\ upper_bound b = upper_bound a /\ is_anomaly b = is_anomaly a.

Definition IDENTICAL_X : string :=
  "Cannot calculate a linear regression if all x values are identical".

End Linregress.

(** *** Statistics by city and season *)

(** A row of the table [calc_city_season_stats] returns. *)
Record SeasonProfile : Type := mkSeasonProfile {
  sp_city : string;
  sp_season : string;
  mean_temp : float;
  std_temp : float
}.

Definition GroupKey : Type := (string * string)%type.

Definition key_eq_dec (a b : GroupKey) : {a = b} + {a <> b}.
Proof. decide equality; apply string_dec. Defined.

(** The order of the group keys: by city, then by season, as Python orders
    tuples of strings. *)
Definition key_leb (a b : GroupKey) : bool :=
  match String.compare (fst a) (fst b) with
  | Lt => true
  | Gt => false
  | Eq => String.leb (snd a) (snd b)
  end.

Definition key_le (a b : GroupKey) : Prop := key_leb a b = true.

Fixpoint insert_key (k : GroupKey) (ks : list GroupKey) : list GroupKey :=
  match ks with
  | [] => [k]
  | k' :: ks' => if key_leb k k' then k :: ks else k' :: insert_key k ks'
  end.

Definition sort_keys (ks : list GroupKey) : list GroupKey :=
  fold_right insert_key [] ks.

(** The keys of [df.groupby(['city', 'season'])]: the pairs that occur, each
    once, in sorted order ([sort=True]). *)
Definition group_keys (df : DataFrame) : list GroupKey :=
  sort_keys (nodup key_eq_dec (map (fun r => (city r, season r)) (rows df))).

(** The temperatures of one group. *)
Definition group_temperatures (df : DataFrame) (k : GroupKey) : list float :=
  map temperature
      (filter (fun r => String.eqb (city r) (fst k)
                        && String.eqb (season r) (snd k))
              (rows df)).

(** [groupby(...)['temperature'].agg(['mean', 'std']).reset_index()], with
    the columns renamed: one row per group, with the mean and the sample
    standard deviation of the group as [groupby] accumulates them; both
    skip NaN, and the standard deviation of fewer than two values is NaN. *)
Definition calc_city_season_stats (df : DataFrame) : list SeasonProfile :=
  map (fun k => mkSeasonProfile (fst k) (snd k)
                  (group_mean (group_temperatures df k))
                  (group_std (group_temperatures df k)))
      (group_keys df).

End Analysis.

(** ** weather_monitor.py *)
Module WeatherMonitor.

(** *** Seasonal baseline and the live check *)

Record SeasonStats : Type := mkSeasonStats {
  mean : float;
  std : float;
  lower : float;
  upper : float
}.

(** [df[(df['city'] == city) & (df['season'] == season)]]. *)
Definition season_readings (df : Analysis.DataFrame) (city season : string)
    : list Analysis.Row :=
  filter (fun r => String.eqb (Analysis.city r) city
                   && String.eqb (Analysis.season r) season)
         (Analysis.rows df).

Definition get_season_stats (df : Analysis.DataFrame) (city season : string)
    : SeasonStats :=
  let city_season := season_readings df city season in
  let mean_temp := Pandas.mean (map Analysis.temperature city_season) in
  let std_temp := Pandas.std (map Analysis.temperature city_season) in
  mkSeasonStats mean_temp std_temp
                (lower_f64 mean_temp std_temp) (upper_f64 mean_temp std_temp).

Record Verdict : Type := mkVerdict {
  is_anomaly : bool;
  status : string;
  deviation : float
}.

Definition check_anomaly (current_temp : float) (stats : SeasonStats)
    : Verdict :=
  let is_anomaly :=
    (current_temp <? lower stats)%float || (upper stats <? current_temp)%float in
  let status :=
    if (current_temp <? lower stats)%float then "colder than normal"%string
    else if (upper stats <? current_temp)%float then "warmer than normal"%string
    else "within normal range"%string in
  mkVerdict is_anomaly status (abs (current_temp - mean stats)).

(** [get_current_season], as a function of the month of [datetime.now()]. *)
Definition season_of_month (month : Z) : string :=
  if (month =? 12) || (month =? 1) || (month =? 2) then "winter"%string
  else if (month =? 3) || (month =? 4) || (month =? 5) then "spring"%string
  else if (month =? 6) || (month =? 7) || (month =? 8) then "summer"%string
  else "autumn"%string.

(** *** Fetching live readings *)

Inductive Json : Type :=
| JNull
| JBool (b : bool)
| JNum (x : float)
| JStr (s : string)
| JArr (items : list Json)
| JObj (fields : list (string * Json)).

Fixpoint assoc (k : string) (fields : list (string * Json)) : option Json :=
  match fields with
  | [] => None
  | (k', v) :: rest => if String.eqb k' k then Some v else assoc k rest
  end.

(** [v[k]] for a string key. *)
Definition getitem (v : Json) (k : string) : Py.result Json :=
  match v with
  | JObj fields =>
      match assoc k fields with
      | Some x => Py.Ok x
      | None => Py.Raise (Py.KeyError k)
      end
  | _ => Py.Raise (Py.TypeError "indices must be integers or the object is not subscriptable")
  end.

(** [v[0]]. *)
Definition getfirst (v : Json) : Py.result Json :=
  match v with
  | JArr (x :: _) => Py.Ok x
  | JArr [] => Py.Raise (Py.IndexError "list index out of range")
  | JStr (String c _) => Py.Ok (JStr (String c EmptyString))
  | JStr EmptyString => Py.Raise (Py.IndexError "string index out of range")
  | JObj _ => Py.Raise (Py.KeyError "0")
  | _ => Py.Raise (Py.TypeError "object is not subscriptable")
  end.

(** The body of a response: blank, text that does not parse as JSON, or the
    value it parses to. *)
Inductive Body : Type :=
| Blank
| Malformed
| Parsed (v : Json).

(** An HTTP response: its status, whether its [Content-Type] header names a
    JSON type, and its body. *)
Record Response : Type := mkResponse {
  status_code : Z;
  content_type_json : bool;
  body : Body
}.

Definition json_body (r : Response) : option Json :=
  match body r with
  | Parsed v => Some v
  | _ => None
  end.

(** [requests.Response.raise_for_status] and [requests.Response.json]: an
    error status is 400 to 599; the body is parsed whatever the header
    says. *)
Definition raise_for_status (r : Response) : Py.result unit :=
  if (400 <=? status_code r) && (status_code r <? 600)
  then Py.Raise (Py.HTTPError (status_code r))
  else Py.Ok tt.

Definition json (r : Response) : Py.result Json :=
  match json_body r with
  | Some v => Py.Ok v
  | None => Py.Raise (Py.JSONDecodeError "Expecting value")
  end.

(** [aiohttp.ClientResponse.raise_for_status] and
    [aiohttp.ClientResponse.json]: every status from 400 on is an error;
    the body is refused unless the header names a JSON type, and a blank
    body gives [None]. *)
Definition aio_raise_for_status (r : Response) : Py.result unit :=
  if 400 <=? status_code r
  then Py.Raise (Py.ClientResponseError (status_code r))
  else Py.Ok tt.

Definition aio_json (r : Response) : Py.result Json :=
  if content_type_json r then
    match body r with
    | Blank => Py.Ok JNull
    | Malformed => Py.Raise (Py.JSONDecodeError "Expecting value")
    | Parsed v => Py.Ok v
    end
  else
    Py.Raise
      (Py.ContentTypeError "Attempt to decode JSON with unexpected mimetype").

(** The weather service, as seen by the program: what the [k]-th request
    issued, for the city [q] with the key [appid], comes back with.  A
    request may fail outright ([requests.get] raises). *)
Definition Network : Type := nat -> string -> string -> Py.result Response.

(** The dict a successful fetch returns. *)
Record LiveReading : Type := mkLiveReading {
  lr_city : string;
  lr_temperature : Json;
  lr_feels_like : Json;
  lr_description : Json
}.

(** The body of the [try] block, from the response on. *)
Definition read_response (city : string) (response : Response)
    : Py.result LiveReading :=
  _ <- raise_for_status response ;;
  data <- json response ;;
  main <- getitem data "main" ;;
  temp <- getitem main "temp" ;;
  main' <- getitem data "main" ;;
  feels <- getitem main' "feels_like" ;;
  weather <- getitem data "weather" ;;
  first <- getfirst weather ;;
  description <- getitem first "description" ;;
  Py.Ok (mkLiveReading city temp feels description).

(** [get_current_temp], as the [k]-th request: [None] when anything in the
    [try] block raised. *)
Definition get_current_temp (net : Network) (k : nat) (city api_key : string)
    : option LiveReading :=
  Py.try_except
    (response <- net k city api_key ;;
     r <- read_response city response ;;
     Py.Ok (Some r))
    (fun _ => None).

(** [fetch_all_temps_sync]: one request after another; the state threaded
    through the comprehension is the number of requests issued so far. *)
Fixpoint fetch_from (net : Network) (k : nat) (cities : list string)
    (api_key : string) : list (option LiveReading) :=
  match cities with
  | [] => []
  | city :: rest =>
      get_current_temp net k city api_key :: fetch_from net (S k) rest api_key
  end.

Definition fetch_all_temps_sync (net : Network) (cities : list string)
    (api_key : string) : list (option LiveReading) :=
  fetch_from net 0 cities api_key.

(** The dict [get_current_temp_async] builds from the parsed body. *)
Definition reading_of (city : string) (data : Json) : Py.result LiveReading :=
  main <- getitem data "main" ;;
  temp <- getitem main "temp" ;;
  main' <- getitem data "main" ;;
  feels <- getitem main' "feels_like" ;;
  weather <- getitem data "weather" ;;
  first <- getfirst weather ;;
  description <- getitem first "description" ;;
  Py.Ok (mkLiveReading city temp feels description).

(** The body of the [try] block of [get_current_temp_async], from the
    response on. *)
Definition read_response_async (city : string) (response : Response)
    : Py.result LiveReading :=
  _ <- aio_raise_for_status response ;;
  data <- aio_json response ;;
  reading_of city data.

(** [get_current_temp_async] run to its end, as the [k]-th request: [None]
    when anything in the [try] block raised. *)
Definition get_current_temp_async (net : Network) (k : nat)
    (city api_key : string) : option LiveReading :=
  Py.try_except
    (response <- net k city api_key ;;
     r <- read_response_async city response ;;
     Py.Ok (Some r))
    (fun _ => None).

(** A task running [get_current_temp_async]: it is suspended at
    [session.get], then at [response.json()], and then it is done. *)
Inductive Task : Type :=
| AwaitingResponse (k : nat) (city : string)
| AwaitingBody (city : string) (response : Response)
| Done (r : option LiveReading).

(** One resumption of a task by the event loop. *)
Definition resume (net : Network) (api_key : string) (t : Task) : Task :=
  match t with
  | AwaitingResponse k city =>
      match net k city api_key with
      | Py.Raise _ => Done None
      | Py.Ok response =>
          match aio_raise_for_status response with
          | Py.Raise _ => Done None
          | Py.Ok _ => AwaitingBody city response
          end
      end
  | AwaitingBody city response =>
      Done (Py.try_except
              (data <- aio_json response ;;
               r <- reading_of city data ;;
               Py.Ok (Some r))
              (fun _ => None))
  | Done r => Done r
  end.

(** The tasks [asyncio.gather] starts, in the order of [cities]: each issues
    its request and is suspended. *)
Fixpoint start_from (k : nat) (cities : list string) : list Task :=
  match cities with
  | [] => []
  | city :: rest => AwaitingResponse k city :: start_from (S k) rest
  end.

Fixpoint resume_nth (net : Network) (api_key : string) (i : nat)
    (ts : list Task) : list Task :=
  match ts, i with
  | [], _ => []
  | t :: ts', O => resume net api_key t :: ts'
  | t :: ts', S i' => t :: resume_nth net api_key i' ts'
  end.

(** The event loop resumes the tasks in the order their responses arrive:
    [schedule] lists the indices of the tasks resumed. *)
Definition run_loop (net : Network) (api_key : string) (schedule : list nat)
    (ts : list Task) : list Task :=
  fold_left (fun ts i => resume_nth net api_key i ts) schedule ts.

(** The results of [gather], in the order of the tasks, once all are done. *)
Fixpoint results (ts : list Task) : option (list (option LiveReading)) :=
  match ts with
  | [] => Some []
  | Done r :: ts' => option_map (cons r) (results ts')
  | _ :: _ => None
  end.

(** [fetch_all_temps_async] under a schedule: [None] while a task is still
    suspended at the end of the schedule. *)
Definition fetch_all_temps_async (net : Network) (schedule : list nat)
    (cities : list string) (api_key : string)
    : option (list (option LiveReading)) :=
  results (run_loop net api_key schedule (start_from 0 cities)).

(** A schedule that resumes every task twice, in turn. *)
Definition round_robin (n : nat) : list nat := (seq 0 n ++ seq 0 n)%list.

(** What each coroutine returns when run to its end, in the order of the
    cities, the first of them being the [k]-th request. *)
Fixpoint gathered_from (net : Network) (k : nat) (cities : list string)
    (api_key : string) : list (option LiveReading) :=
  match cities with
  | [] => []
  | city :: rest =>
      get_current_temp_async net k city api_key
      :: gathered_from net (S k) rest api_key
  end.

(** What the task of the [k]-th city can be while the loop runs: suspended
    at its request, suspended at the body of a response that passed
    [raise_for_status], or done with what its coroutine returns. *)
Definition task_ok (net : Network) (api_key : string) (k : nat)
    (city : string) (t : Task) : Prop :=
  match t with
  | AwaitingResponse k' city' => k' = k /\ city' = city
  | AwaitingBody city' response =>
      city' = city /\ net k city api_key = Py.Ok response
      /\ aio_raise_for_status response = Py.Ok tt
  | Done r => r = get_current_temp_async net k city api_key
  end.

Fixpoint tasks_ok (net : Network) (api_key : string) (k : nat)
    (cities : list string) (ts : list Task) : Prop :=
  match cities, ts with
  | [], [] => True
  | city :: cities', t :: ts' =>
      task_ok net api_key k city t /\ tasks_ok net api_key (S k) cities' ts'
  | _, _ => False
  end.

(** A fetch that fails: the request raises, or the response has an error
    status, or its body is not JSON. *)
Definition failed (answer : Py.result Response) : Prop :=
  match answer with
  | Py.Raise _ => True
  | Py.Ok response =>
      400 <= status_code response < 600 \/ json_body response = None
  end.

(** An answer both clients read alike: a status below 600 under a JSON
    [Content-Type]. *)
Definition plain_answer (answer : Py.result Response) : Prop :=
  match answer with
  | Py.Raise _ => True
  | Py.Ok response =>
      status_code response < 600 /\ content_type_json response = true
  end.

End WeatherMonitor.

(** ** app.py *)
Module App.
Import Analysis.

(** The analysis the dashboard runs on the uploaded file, lines 21 to 23:
    [calc_moving_avg], [calc_anomalies], [calc_trend], each on the frame the
    one before returned.  The [__main__] of [analysis.py] runs the same
    three calls with [parallel=True]. *)
Definition run_analysis (student_t_two_sided : float -> Z -> float)
    (parallel : bool) (df : DataFrame) : Py.result (Trends * DataFrame) :=
  df1 <- calc_moving_avg df parallel ;;
  df2 <- calc_anomalies df1 ;;
  calc_trend student_t_two_sided df2.

End App.

(** ** What the specification says, in its own words *)
Module Spec.

(** "upper - mean = mean - lower = 2 * std", as a test on binary64 values. *)
Definition symmetric_band (m s lo hi : float) : bool :=
  ((hi - m =? 2 * s) && (m - lo =? 2 * s))%float.



(** "The mean and the standard deviation of the window": the mean and the
    sample variance of a window of exact values. *)
Definition total (w : list Qc) : Qc := fold_right Qcplus 0%Qc w.

Definition mean_exact (w : list Qc) : Qc :=
  (total w / Pandas.qcount (Z.of_nat (length w)))%Qc.

Definition variance_exact (w : list Qc) : Qc :=
  (total (map (fun x => (x - mean_exact w) * (x - mean_exact w)) w)
   / Pandas.qcount (Z.of_nat (length w) - 1))%Qc.

End Spec.

(** ** The states of the rolling kernels

    What the state of a kernel holds when the window is [vals[s:e]]. *)
Module Invariants.
Import Pandas Spec.

(** The state the loop keeps from the window before the window [s, e). *)
Definition kept {St : Type} (Inv : Z -> Z -> St -> Prop)
    (prev : option (Z * Z * St)) (s e : Z) : Prop :=
  match prev with
  | Some (ps, pe, st) => 0 <= ps <= s /\ ps <= pe <= e /\ Inv ps pe st
  | None => True
  end.

(** The number of observed values of the window. *)
Definition observations {T : Type} (A : Arith T) (vals : list T)
    (s e : Z) : Z :=
  Z.of_nat (length (filter (a_observed A) (slice vals s e))).

Section Exact.

Variable vals : list Qc.

Definition square (x : Qc) : Qc := (x * x)%Qc.

Definition negatives (s e : Z) : Z :=
  Z.of_nat (length (filter (a_signbit rationals) (slice vals s e))).

(** The last [same] values before [e], as far as they lie in the window,
    are [prev]. *)
Definition same_run (s e same : Z) (prev : Qc) : Prop :=
  forall j, s <= j < e -> e - same <= j ->
            nth_error vals (Z.to_nat j) = Some prev.

Definition mean_state (s e : Z) (st : RollMean) : Prop :=
  m_nobs st = e - s
  /\ m_sum_x st = total (slice vals s e)
  /\ m_compensation_add st = 0%Qc
  /\ m_compensation_remove st = 0%Qc
  /\ m_neg_ct st = negatives s e
  /\ same_run s e (m_num_consecutive_same_value st) (m_prev_value st).

Definition var_state (s e : Z) (st : RollVar) : Prop :=
  v_nobs st = e - s
  /\ v_compensation_add st = 0%Qc
  /\ v_compensation_remove st = 0%Qc
  /\ same_run s e (v_num_consecutive_same_value st) (v_prev_value st)
  /\ (qcount (e - s) * v_mean_x st)%Qc = total (slice vals s e)
  /\ v_ssqdm_x st
     = (total (map square (slice vals s e))
        - v_mean_x st * total (slice vals s e))%Qc.

End Exact.

End Invariants.

(** ** Sample data *)
Module Examples.
Import Analysis.

Definition day : Z := 86400.

(** Three summer readings of Rio de Janeiro around 23.0, one autumn
    reading, and one reading of another city. *)
Definition rio_history : DataFrame :=
  frame_of
    [ mkRow 0 0 "Rio de Janeiro" 19.5%float "summer";
      mkRow 1 day "Berlin" 1.5%float "winter";
      mkRow 2 (2 * day) "Rio de Janeiro" 23%float "summer";
      mkRow 3 (3 * day) "Rio de Janeiro" 26.5%float "summer";
      mkRow 4 (100 * day) "Rio de Janeiro" 21%float "autumn" ].

Definition moscow_winter : DataFrame :=
  frame_of
    [ mkRow 0 0 "Moscow" (-5.2)%float "winter";
      mkRow 1 day "Moscow" (-3.1)%float "winter";
      mkRow 2 (2 * day) "Moscow" (-7.4)%float "winter" ].

(** [n] daily readings of one city: 20.0, 20.1, 20.2, ... *)
Definition daily (c : string) (n : nat) : DataFrame :=
  frame_of
    (map (fun i => mkRow (Z.of_nat i) (Z.of_nat i * day) c
                         (F64.of_nat i * 0.1 + 20)%float "winter")
         (seq 0 n)).

Definition berlin_30 : DataFrame := daily "Berlin" 30.

(** Seventy readings of two cities, interleaved day by day; the labels are
    not the positions, as after [sort_values]. *)
Definition two_cities : DataFrame :=
  frame_of
    (map (fun i =>
            mkRow (1000 - Z.of_nat i) (Z.of_nat (i / 2) * day)
                  (if Nat.even i then "Berlin" else "Cairo")
                  (if Nat.even i then (F64.of_nat i * 0.25 + 3)%float
                   else (31 - F64.of_nat i * 0.125)%float)
                  "winter")
         (seq 0 70)).



(** A frame of one reading whose moving mean and moving standard deviation
    are both 0.1. *)
Definition tenth_frame : DataFrame :=
  mkDataFrame [mkRow 0 0 "Berlin" 0.25%float "winter"]
              (Some [0.1%float]) (Some [0.1%float]) None None None None.

(** Three daily readings of Berlin, and two readings of Cairo taken on one
    day. *)
Definition cairo_same_day : DataFrame :=
  frame_of
    [ mkRow 0 0 "Berlin" 1.5%float "winter";
      mkRow 1 day "Berlin" 2.5%float "winter";
      mkRow 2 (2 * day) "Berlin" 2%float "winter";
      mkRow 3 (5 * day) "Cairo" 18%float "winter";
      mkRow 4 (5 * day + 3600) "Cairo" 21%float "winter" ].

(** Three daily readings of Berlin, and a single reading of Cairo. *)
Definition cairo_single : DataFrame :=
  frame_of
    [ mkRow 0 0 "Berlin" 1.5%float "winter";
      mkRow 1 day "Berlin" 2.5%float "winter";
      mkRow 2 (2 * day) "Berlin" 2%float "winter";
      mkRow 3 (5 * day) "Cairo" 18%float "winter" ].

(** A stand-in for the p-value of Student's distribution. *)
Definition no_p_value (t : float) (df : Z) : float := nan.

(** [calc_trend] on [cairo_single]. *)
Definition cairo_single_trend : Trends * DataFrame :=
  match calc_trend no_p_value cairo_single with
  | Py.Ok r => r
  | Py.Raise _ => ([], cairo_single)
  end.


(** [berlin_30] after [calc_moving_avg], and after [calc_anomalies]. *)
Definition berlin_30_stats : DataFrame :=
  match calc_moving_avg berlin_30 false with
  | Py.Ok df => df
  | Py.Raise _ => berlin_30
  end.

Definition berlin_30_anomalies : DataFrame :=
  match calc_anomalies berlin_30_stats with
  | Py.Ok df => df
  | Py.Raise _ => berlin_30_stats
  end.

(** The body of a successful answer of the weather service. *)
Definition weather_body (temp feels : float) (description : string)
    : WeatherMonitor.Json :=
  WeatherMonitor.JObj
    [ ("weather"%string,
       WeatherMonitor.JArr
         [WeatherMonitor.JObj
            [("description"%string, WeatherMonitor.JStr description)]]);
      ("main"%string,
       WeatherMonitor.JObj
         [ ("temp"%string, WeatherMonitor.JNum temp);
           ("feels_like"%string, WeatherMonitor.JNum feels) ]) ].

(** A service that knows Berlin and Cairo and answers 404 for any other
    city; its third request is lost on the way. *)
Definition sample_network : WeatherMonitor.Network :=
  fun k q appid =>
    if (k =? 2)%nat then Py.Raise (Py.ConnectionError "unreachable")
    else if String.eqb q "Berlin" then
      Py.Ok (WeatherMonitor.mkResponse 200 true
               (WeatherMonitor.Parsed (weather_body 3.5 1 "mist")))
    else if String.eqb q "Cairo" then
      Py.Ok (WeatherMonitor.mkResponse 200 true
               (WeatherMonitor.Parsed (weather_body 29 31.5 "clear sky")))
    else
      Py.Ok (WeatherMonitor.mkResponse 404 true
               (WeatherMonitor.Parsed
                  (WeatherMonitor.JObj
                     [ ("cod"%string, WeatherMonitor.JStr "404");
                       ("message"%string,
                        WeatherMonitor.JStr "city not found") ]))).

(** A service that sends the weather of every city as [text/plain]. *)
Definition text_plain_network : WeatherMonitor.Network :=
  fun k q appid =>
    Py.Ok (WeatherMonitor.mkResponse 200 false
             (WeatherMonitor.Parsed (weather_body 3.5 1 "mist"))).

Definition four_cities : list string :=
  ["Berlin"; "Atlantis"; "Cairo"; "Cairo"]%string.

(** The temperatures of [berlin_30], read once an hour instead of once a
    day, under other labels. *)
Definition berlin_30_hourly : DataFrame :=
  frame_of
    (map (fun i => mkRow (500 + Z.of_nat i) (Z.of_nat i * 3600) "Berlin"
                         (F64.of_nat i * 0.1 + 20)%float "winter")
         (seq 0 30)).

(** The thirty readings of [berlin_30], each followed by a reading of
    Cairo taken at the same time. *)
Definition berlin_30_and_cairo : DataFrame :=
  frame_of
    (flat_map
       (fun i =>
          [ mkRow (Z.of_nat (2 * i)) (Z.of_nat i * day) "Berlin"
                  (F64.of_nat i * 0.1 + 20)%float "winter";
            mkRow (Z.of_nat (2 * i + 1)) (Z.of_nat i * day) "Cairo"
                  (35 - F64.of_nat i * 0.5)%float "winter" ])
       (seq 0 30)).

(** A frame after [calc_moving_avg], after [calc_anomalies], and its
    column of flags. *)
Definition with_moving (df : DataFrame) : DataFrame :=
  match calc_moving_avg df false with
  | Py.Ok d => d
  | Py.Raise _ => df
  end.

Definition with_flags (df : DataFrame) : DataFrame :=
  match calc_anomalies df with
  | Py.Ok d => d
  | Py.Raise _ => df
  end.

Definition anomaly_flags (df : DataFrame) : list bool :=
  match is_anomaly df with
  | Some f => f
  | None => []
  end.

(** The cell of a float column at a position, NaN when there is none. *)
Definition at_row (c : option (list float)) (i : nat) : float :=
  match cell c i with
  | Some x => x
  | None => nan
  end.

(** Five exact values, each the double of the one before. *)
Definition doubling : list Qc := map Pandas.qcount [1; 2; 4; 8; 16].

End Examples.

(** ** IEEE 754 binary64 facts

    What the development needs from the specification of the primitive
    operations: NaN propagates through [+], [-] and [*], every comparison
    with NaN is false, [<] and [<=] are consistent, [abs] never yields a
    negative number, and subtracting from a finite number yields NaN only
    for a NaN operand. *)
Module F64Facts.
Import F64.

Lemma Prim2SF_nan : Prim2SF nan = S754_nan.
Proof. reflexivity. Qed.

Lemma SF_nan_eq (x : float) : Prim2SF x = S754_nan -> x = nan.
Proof.
  intros H. rewrite <- (SF2Prim_Prim2SF x), H. reflexivity.
Qed.

Lemma SFcompare_refl (x : spec_float) :
  x <> S754_nan -> SFcompare x x = Some Eq.
Proof.
  destruct x as [s|s| |s m e]; simpl; intros H; try congruence.
  - destruct s; reflexivity.
  - rewrite Z.compare_refl.
    change (PosDef.Pos.compare_cont Eq m m) with (Pos.compare m m).
    rewrite Pos.compare_refl. destruct s; reflexivity.
Qed.

Lemma SFcompare_antisym (x y : spec_float) (c : comparison) :
  SFcompare x y = Some c -> SFcompare y x = Some (CompOpp c).
Proof.
  destruct x as [sx|sx| |sx mx ex], y as [sy|sy| |sy my ey]; simpl;
    intros H; try discriminate; injection H as <-;
    try (destruct sx; reflexivity); try (destruct sy; reflexivity);
    try (destruct sx, sy; reflexivity).
  change (PosDef.Pos.compare_cont Eq mx my) with (Pos.compare mx my).
  change (PosDef.Pos.compare_cont Eq my mx) with (Pos.compare my mx).
  rewrite (Z.compare_antisym ex ey), (Pos.compare_antisym mx my).
  destruct sx, sy; try reflexivity;
    destruct (ex ?= ey); simpl; try reflexivity;
    destruct (mx ?= my)%positive; reflexivity.
Qed.

Lemma isnan_spec (x : float) : isnan x = true <-> x = nan.
Proof.
  unfold isnan, is_nan. rewrite FloatAxioms.eqb_spec. unfold SFeqb. split.
  - intros H. apply SF_nan_eq.
    destruct (Prim2SF x) as [s|s| |s m e] eqn:E; try reflexivity;
      rewrite SFcompare_refl in H by discriminate; discriminate.
  - intros ->. reflexivity.
Qed.

Lemma isnan_false_SF (x : float) : isnan x = false -> Prim2SF x <> S754_nan.
Proof.
  intros H E. apply SF_nan_eq in E. subst x. discriminate.
Qed.

(** Comparisons with NaN are false. *)
Lemma ltb_nan_r (x : float) : (x <? nan)%float = false.
Proof.
  rewrite FloatAxioms.ltb_spec, Prim2SF_nan. unfold SFltb.
  destruct (Prim2SF x); reflexivity.
Qed.

Lemma ltb_nan_l (x : float) : (nan <? x)%float = false.
Proof. rewrite FloatAxioms.ltb_spec, Prim2SF_nan. reflexivity. Qed.

Lemma leb_nan_r (x : float) : (x <=? nan)%float = false.
Proof.
  rewrite FloatAxioms.leb_spec, Prim2SF_nan. unfold SFleb.
  destruct (Prim2SF x); reflexivity.
Qed.

Lemma leb_nan_l (x : float) : (nan <=? x)%float = false.
Proof. rewrite FloatAxioms.leb_spec, Prim2SF_nan. reflexivity. Qed.

(** [x <= y] excludes [y < x]. *)
Lemma leb_not_gtb (x y : float) :
  (x <=? y)%float = true -> (y <? x)%float = false.
Proof.
  rewrite FloatAxioms.leb_spec, FloatAxioms.ltb_spec. unfold SFleb, SFltb.
  destruct (SFcompare (Prim2SF x) (Prim2SF y)) as [c|] eqn:E; try discriminate.
  rewrite (SFcompare_antisym _ _ _ E). destruct c; simpl; congruence.
Qed.

(** [x < y] and [y < x] never hold together. *)
Lemma ltb_asym (x y : float) :
  (x <? y)%float = true -> (y <? x)%float = false.
Proof.
  rewrite !FloatAxioms.ltb_spec. unfold SFltb.
  destruct (SFcompare (Prim2SF x) (Prim2SF y)) as [c|] eqn:E; try discriminate.
  rewrite (SFcompare_antisym _ _ _ E). destruct c; simpl; congruence.
Qed.

(** Two numbers that are not [<] one way are [<=] the other way. *)
Lemma not_ltb_leb (x y : float) :
  isnan x = false -> isnan y = false ->
  (x <? y)%float = false -> (y <=? x)%float = true.
Proof.
  intros Hx Hy. apply isnan_false_SF in Hx, Hy.
  rewrite FloatAxioms.leb_spec, FloatAxioms.ltb_spec. unfold SFleb, SFltb.
  destruct (SFcompare (Prim2SF x) (Prim2SF y)) as [c|] eqn:E.
  - rewrite (SFcompare_antisym _ _ _ E). destruct c; simpl; congruence.
  - exfalso. destruct (Prim2SF x), (Prim2SF y); simpl in E; congruence.
Qed.

(** NaN propagates through the arithmetic operations. *)
Lemma add_nan_r (x : float) : (x + nan)%float = nan.
Proof.
  apply SF_nan_eq. rewrite FloatAxioms.add_spec, Prim2SF_nan.
  destruct (Prim2SF x); reflexivity.
Qed.

Lemma add_nan_l (x : float) : (nan + x)%float = nan.
Proof.
  apply SF_nan_eq. rewrite FloatAxioms.add_spec, Prim2SF_nan. reflexivity.
Qed.

Lemma sub_nan_r (x : float) : (x - nan)%float = nan.
Proof.
  apply SF_nan_eq. rewrite FloatAxioms.sub_spec, Prim2SF_nan.
  destruct (Prim2SF x); reflexivity.
Qed.

Lemma sub_nan_l (x : float) : (nan - x)%float = nan.
Proof.
  apply SF_nan_eq. rewrite FloatAxioms.sub_spec, Prim2SF_nan. reflexivity.
Qed.

Lemma mul_nan_r (x : float) : (x * nan)%float = nan.
Proof.
  apply SF_nan_eq. rewrite FloatAxioms.mul_spec, Prim2SF_nan.
  destruct (Prim2SF x); reflexivity.
Qed.

Lemma mul_nan_l (x : float) : (nan * x)%float = nan.
Proof.
  apply SF_nan_eq. rewrite FloatAxioms.mul_spec, Prim2SF_nan. reflexivity.
Qed.

(** A difference is NaN only when an operand is NaN or both are infinite:
    so a sum or difference that is a number has operands that are not NaN. *)
Lemma sub_not_nan_l (x y : float) :
  isnan (x - y)%float = false -> isnan x = false.
Proof.
  intros H. destruct (isnan x) eqn:E; [|reflexivity].
  apply isnan_spec in E. subst x. rewrite sub_nan_l in H. discriminate.
Qed.

Lemma add_not_nan_l (x y : float) :
  isnan (x + y)%float = false -> isnan x = false.
Proof.
  intros H. destruct (isnan x) eqn:E; [|reflexivity].
  apply isnan_spec in E. subst x. rewrite add_nan_l in H. discriminate.
Qed.

(** [abs] of a number is at least zero, and [abs] is never below zero. *)
Lemma abs_nonneg (x : float) :
  isnan x = false -> (0 <=? abs x)%float = true.
Proof.
  intros H. apply isnan_false_SF in H.
  rewrite FloatAxioms.leb_spec, FloatAxioms.abs_spec.
  change (Prim2SF 0) with (S754_zero false).
  destruct (Prim2SF x); try reflexivity; congruence.
Qed.

Lemma abs_not_neg (x : float) : (abs x <? 0)%float = false.
Proof.
  rewrite FloatAxioms.ltb_spec, FloatAxioms.abs_spec.
  change (Prim2SF 0) with (S754_zero false).
  destruct (Prim2SF x); reflexivity.
Qed.

(** Rounding a non-negative significand never produces NaN: the shifts and
    the round-to-nearest-even increment keep the significand non-negative. *)
Lemma shr_1_nonneg (mrs : shr_record) :
  0 <= shr_m mrs -> 0 <= shr_m (shr_1 mrs).
Proof.
  destruct mrs as [m r s]; simpl.
  destruct m as [|p|p]; [|destruct p|]; simpl; lia.
Qed.

Lemma iter_shr_1_nonneg (p : positive) (mrs : shr_record) :
  0 <= shr_m mrs -> 0 <= shr_m (SpecFloat.iter_pos shr_1 p mrs).
Proof.
  revert mrs. induction p as [p IH|p IH|]; intros mrs H; simpl.
  - apply IH, IH, shr_1_nonneg, H.
  - apply IH, IH, H.
  - apply shr_1_nonneg, H.
Qed.

Lemma shr_fexp_nonneg (m e : Z) (l : location) :
  0 <= m -> 0 <= shr_m (fst (shr_fexp prec emax m e l)).
Proof.
  intros H. unfold shr_fexp, shr.
  assert (H0 : 0 <= shr_m (shr_record_of_loc m l))
    by (destruct l as [|[| |]]; exact H).
  destruct (fexp prec emax (Zdigits2 m + e) - e); simpl; auto.
  apply iter_shr_1_nonneg, H0.
Qed.

Lemma round_nearest_even_nonneg (m : Z) (l : location) :
  0 <= m -> 0 <= round_nearest_even m l.
Proof.
  intros H. unfold round_nearest_even.
  destruct l as [|[| |]]; try destruct (IntDef.Z.even m); lia.
Qed.

Lemma binary_round_aux_not_nan (sx : bool) (m e : Z) (l : location) :
  0 <= m -> binary_round_aux prec emax sx m e l <> S754_nan.
Proof.
  intros H. unfold binary_round_aux.
  pose proof (shr_fexp_nonneg m e l H) as H1.
  destruct (shr_fexp prec emax m e l) as [mrs' e']. simpl in H1.
  pose proof (shr_fexp_nonneg _ e' loc_Exact
                (round_nearest_even_nonneg _ (loc_of_shr_record mrs') H1)) as H2.
  destruct (shr_fexp prec emax _ e' loc_Exact) as [mrs'' e'']. simpl in H2.
  destruct (shr_m mrs'') as [|q|q]; try discriminate; [|lia].
  destruct (e'' <=? emax - prec); discriminate.
Qed.

Lemma binary_normalize_not_nan (m e : Z) (sz : bool) :
  binary_normalize prec emax m e sz <> S754_nan.
Proof.
  unfold binary_normalize, binary_round.
  destruct m as [|q|q]; try discriminate;
    destruct (shl_align q e _) as [mz ez];
    apply binary_round_aux_not_nan; lia.
Qed.

Lemma isfinite_SF (x : float) :
  isfinite x = true ->
  (exists s, Prim2SF x = S754_zero s) \/
  (exists s m e, Prim2SF x = S754_finite s m e).
Proof.
  unfold isfinite, is_finite, is_infinity. intros H.
  apply negb_true_iff, orb_false_iff in H. destruct H as [Hn Hi].
  apply isnan_false_SF in Hn.
  rewrite FloatAxioms.eqb_spec, FloatAxioms.abs_spec in Hi.
  change (Prim2SF infinity) with (S754_infinity false) in Hi.
  destruct (Prim2SF x) as [s|s| |s m e]; eauto; try congruence.
  discriminate Hi.
Qed.

(** The difference of a finite number and anything but NaN is not NaN. *)
Lemma sub_finite_not_nan (x y : float) :
  isfinite x = true -> isnan y = false -> isnan (x - y)%float = false.
Proof.
  intros Hx Hy. apply isfinite_SF in Hx. apply isnan_false_SF in Hy.
  destruct (isnan (x - y)%float) eqn:E; [|reflexivity]. exfalso.
  apply isnan_spec in E. apply (f_equal Prim2SF) in E.
  rewrite FloatAxioms.sub_spec, Prim2SF_nan in E. unfold SF64sub in E.
  destruct Hx as [[s Hx]|[s [m [e Hx]]]]; rewrite Hx in E;
    destruct (Prim2SF y) as [sy|sy| |sy my ey]; simpl in E;
    try congruence; try (destruct s, sy; discriminate).
  exact (binary_normalize_not_nan _ _ _ E).
Qed.

(** The sum of a zero and a number, and the quotient of a number by a
    non-zero finite number, are not NaN. *)
Lemma zero_add_not_nan (z x : float) :
  (exists s, Prim2SF z = S754_zero s) -> isnan x = false ->
  isnan (z + x)%float = false.
Proof.
  intros [s Hz] Hx. apply isnan_false_SF in Hx.
  destruct (isnan (z + x)%float) eqn:E; [|reflexivity]. exfalso.
  apply isnan_spec in E. apply (f_equal Prim2SF) in E.
  rewrite FloatAxioms.add_spec, Prim2SF_nan, Hz in E. unfold SF64add in E.
  destruct (Prim2SF x) as [sx|sx| |sx mx ex]; simpl in E; try congruence.
  destruct s, sx; discriminate.
Qed.

Lemma div_eucl_nonneg (a : Z) (b : positive) :
  0 <= a -> 0 <= fst (Z.div_eucl a (Zpos b)).
Proof.
  intros H. change (fst (Z.div_eucl a (Zpos b))) with (a / Zpos b).
  apply Z.div_pos; lia.
Qed.

Lemma SFdiv_finite_not_nan (sx sy : bool) (mx my : positive) (ex ey : Z) :
  SFdiv prec emax (S754_finite sx mx ex) (S754_finite sy my ey) <> S754_nan.
Proof.
  unfold SFdiv, SFdiv_core_binary.
  set (e' := Z.min _ _). set (m' := match (ex - ey - e') with
                                     | 0 => Zpos mx
                                     | Zpos _ => Z.shiftl (Zpos mx) (ex - ey - e')
                                     | Zneg _ => 0
                                     end).
  assert (Hm : 0 <= m').
  { unfold m'. destruct (ex - ey - e') eqn:E; try lia.
    apply Z.shiftl_nonneg. lia. }
  pose proof (div_eucl_nonneg m' my Hm) as Hq.
  destruct (Z.div_eucl m' (Zpos my)) as [q r]. simpl in Hq.
  apply binary_round_aux_not_nan. exact Hq.
Qed.

Lemma div_not_nan (x y : float) :
  isnan x = false ->
  (exists s m e, Prim2SF y = S754_finite s m e) ->
  isnan (x / y)%float = false.
Proof.
  intros Hx (sy & my & ey & Hy). apply isnan_false_SF in Hx.
  destruct (isnan (x / y)%float) eqn:E; [|reflexivity]. exfalso.
  apply isnan_spec in E. apply (f_equal Prim2SF) in E.
  rewrite FloatAxioms.div_spec, Prim2SF_nan, Hy in E. unfold SF64div in E.
  destruct (Prim2SF x) as [sx|sx| |sx mx ex]; try congruence;
    try discriminate E.
  exact (SFdiv_finite_not_nan _ _ _ _ _ _ E).
Qed.

Lemma abs_nan : abs nan = nan.
Proof. reflexivity. Qed.

Lemma abs_isnan (x : float) : isnan (abs x) = isnan x.
Proof.
  destruct (isnan x) eqn:E.
  - apply isnan_spec in E. subst. reflexivity.
  - apply isnan_false_SF in E.
    destruct (isnan (abs x)) eqn:E'; [|reflexivity]. exfalso.
    apply isnan_spec in E'. apply (f_equal Prim2SF) in E'.
    rewrite FloatAxioms.abs_spec, Prim2SF_nan in E'.
    destruct (Prim2SF x); simpl in E'; congruence.
Qed.

(** Subtracting zero changes nothing. *)
Lemma sub_zero_r (x : float) : (x - 0)%float = x.
Proof.
  apply Prim2SF_inj. rewrite FloatAxioms.sub_spec.
  change (Prim2SF 0) with (S754_zero false). unfold SF64sub.
  destruct (Prim2SF x) as [sx|sx| |sx mx ex]; try reflexivity.
  destruct sx; reflexivity.
Qed.

End F64Facts.
(** ** The seasonal baseline and the live check *)
Module WeatherFacts.
Import F64 F64Facts WeatherMonitor.

Lemma var_single (x : float) : Pandas.var [x] = nan.
Proof.
  unfold Pandas.var, Pandas.count, Pandas.dropna. simpl.
  destruct (Pandas.notna x); reflexivity.
Qed.

Lemma mean_single_isnan (x : float) : isnan (Pandas.mean [x]) = isnan x.
Proof.
  unfold Pandas.mean, Pandas.count, Pandas.dropna, Pandas.fillna0,
    Pandas.notna. simpl.
  destruct (isnan x) eqn:E; simpl; [reflexivity|].
  apply div_not_nan; [|now exists false, 4503599627370496%positive, (-52)].
  apply zero_add_not_nan; [now exists true | exact E].
Qed.

Lemma std_single (x : float) : Pandas.std [x] = nan.
Proof. unfold Pandas.std. rewrite var_single. reflexivity. Qed.

Lemma lower_f64_nan_std (m : float) : lower_f64 m nan = nan.
Proof.
  unfold lower_f64, band_lower. rewrite mul_nan_r. apply sub_nan_r.
Qed.

Lemma upper_f64_nan_std (m : float) : upper_f64 m nan = nan.
Proof.
  unfold upper_f64, band_upper. rewrite mul_nan_r. apply add_nan_r.
Qed.

Lemma lower_f64_nan_mean (s : float) : lower_f64 nan s = nan.
Proof. unfold lower_f64, band_lower. apply sub_nan_l. Qed.

Lemma upper_f64_nan_mean (s : float) : upper_f64 nan s = nan.
Proof. unfold upper_f64, band_upper. apply add_nan_l. Qed.

(** The flag and the status of a verdict are decided by the same two
    comparisons. *)
Lemma check_anomaly_cases (t : float) (stats : SeasonStats) :
  (is_anomaly (check_anomaly t stats) = true /\
   status (check_anomaly t stats) = "colder than normal"%string /\
   (t <? lower stats)%float = true) \/
  (is_anomaly (check_anomaly t stats) = true /\
   status (check_anomaly t stats) = "warmer than normal"%string /\
   (upper stats <? t)%float = true) \/
  (is_anomaly (check_anomaly t stats) = false /\
   status (check_anomaly t stats) = "within normal range"%string /\
   (t <? lower stats)%float = false /\ (upper stats <? t)%float = false).
Proof.
  unfold check_anomaly; cbn [is_anomaly status].
  destruct (t <? lower stats)%float eqn:E1;
    destruct (upper stats <? t)%float eqn:E2; cbn;
    [left | left | right; left | right; right]; repeat split; reflexivity.
Qed.

(** C6.  Scenario B: against a seasonal baseline whose mean is 23.0 and
    whose standard deviation is 3.5, [get_season_stats] yields the bounds
    16.0 and 30.0, and a live reading of 36.0 is an anomaly, "warmer than
    normal", with deviation 13.0. *)
Theorem scenario_B_warmer_than_normal
    (df : Analysis.DataFrame) (city season : string) :
  mean (get_season_stats df city season) = 23%float ->
  std (get_season_stats df city season) = 3.5%float ->
  lower (get_season_stats df city season) = 16%float /\
  upper (get_season_stats df city season) = 30%float /\
  check_anomaly 36%float (get_season_stats df city season)
    = mkVerdict true "warmer than normal" 13%float.
Proof.
  unfold get_season_stats; cbn [mean std lower upper]. intros Hm Hs.
  unfold check_anomaly; cbn [mean std lower upper].
  rewrite Hm, Hs. repeat split; reflexivity.
Qed.

Lemma scenario_B_rio_de_janeiro :
  mean (get_season_stats Examples.rio_history "Rio de Janeiro" "summer")
    = 23%float /\
  std (get_season_stats Examples.rio_history "Rio de Janeiro" "summer")
    = 3.5%float /\
  lower (get_season_stats Examples.rio_history "Rio de Janeiro" "summer")
    = 16%float /\
  upper (get_season_stats Examples.rio_history "Rio de Janeiro" "summer")
    = 30%float /\
  check_anomaly 36%float
      (get_season_stats Examples.rio_history "Rio de Janeiro" "summer")
    = mkVerdict true "warmer than normal" 13%float.
Proof.
  split; [reflexivity|]. split; [reflexivity|].
  apply (scenario_B_warmer_than_normal
           Examples.rio_history "Rio de Janeiro" "summer");
    reflexivity.
Defined.

(** C9, as stated, fails.  Against the summer baseline of Rio de Janeiro,
    whose bounds 16.0 and 30.0 are defined, a live temperature that is NaN
    gets a deviation that is NaN, which is not at least zero; so does the
    temperature 20.0 against a record with the same bounds whose mean is
    NaN. *)
Lemma nan_deviation_is_not_nonnegative :
  isnan (lower (get_season_stats Examples.rio_history "Rio de Janeiro"
                  "summer")) = false
  /\ isnan (upper (get_season_stats Examples.rio_history "Rio de Janeiro"
                     "summer")) = false
  /\ isnan (deviation
              (check_anomaly nan
                 (get_season_stats Examples.rio_history "Rio de Janeiro"
                    "summer"))) = true
  /\ (0 <=? deviation
              (check_anomaly nan
                 (get_season_stats Examples.rio_history "Rio de Janeiro"
                    "summer")))%float = false
  /\ (0 <=? deviation
              (check_anomaly 20%float (mkSeasonStats nan 3.5 16 30)))%float
     = false.
Proof. repeat split. Qed.

(** C9, amended.  For every temperature and every baseline, the flag of the
    verdict is set exactly when its status is not "within normal range".
    The deviation is never below zero: it is at least zero exactly when
    the difference of the temperature and the mean is a number, as it is
    for a finite temperature and a mean that is not NaN; it is NaN when the
    temperature or the mean is NaN. *)
Theorem check_anomaly_verdict_consistent (t : float) (stats : SeasonStats) :
  (is_anomaly (check_anomaly t stats) = true <->
   status (check_anomaly t stats) <> "within normal range"%string) /\
  (deviation (check_anomaly t stats) <? 0)%float = false /\
  ((0 <=? deviation (check_anomaly t stats))%float = true <->
   isnan (t - mean stats)%float = false) /\
  (isfinite t = true -> isnan (mean stats) = false ->
   (0 <=? deviation (check_anomaly t stats))%float = true) /\
  (isnan t = true \/ isnan (mean stats) = true ->
   isnan (deviation (check_anomaly t stats)) = true).
Proof.
  split; [|split; [|split; [|split]]].
  - destruct (check_anomaly_cases t stats)
      as [(Ha & Hs & _)|[(Ha & Hs & _)|(Ha & Hs & _)]];
      rewrite Ha, Hs; split; intros H; try reflexivity;
      try discriminate; try congruence.
  - unfold check_anomaly; cbn [deviation]. apply abs_not_neg.
  - unfold check_anomaly; cbn [deviation]. split.
    + intros H. destruct (isnan (t - mean stats)%float) eqn:E; [|reflexivity].
      apply isnan_spec in E. rewrite E, abs_nan, leb_nan_r in H.
      discriminate.
    + apply abs_nonneg.
  - intros Ht Hm. unfold check_anomaly; cbn [deviation].
    apply abs_nonneg, sub_finite_not_nan; assumption.
  - unfold check_anomaly; cbn [deviation]. rewrite abs_isnan.
    intros [H|H]; apply isnan_spec in H; rewrite H;
      [rewrite sub_nan_l | rewrite sub_nan_r]; reflexivity.
Qed.

(** C4, as the code has it.  With a single historical reading for a city
    and season, the mean of the baseline is the mean of that one reading, a
    number exactly when the temperature of the reading is not missing; the
    standard deviation and both bounds are NaN, and [check_anomaly] answers
    every live temperature with [is_anomaly = False] and "within normal
    range": nothing reports that the baseline is unavailable. *)
Theorem single_reading_baseline_is_silent
    (df : Analysis.DataFrame) (city season : string) (r : Analysis.Row) :
  season_readings df city season = [r] ->
  mean (get_season_stats df city season)
    = Pandas.mean [Analysis.temperature r] /\
  isnan (mean (get_season_stats df city season))
    = isnan (Analysis.temperature r) /\
  std (get_season_stats df city season) = nan /\
  lower (get_season_stats df city season) = nan /\
  upper (get_season_stats df city season) = nan /\
  forall t : float,
    check_anomaly t (get_season_stats df city season)
    = mkVerdict false "within normal range"
        (abs (t - mean (get_season_stats df city season))).
Proof.
  intros H. unfold get_season_stats. rewrite H. cbn [map std lower upper mean].
  rewrite std_single, lower_f64_nan_std, upper_f64_nan_std.
  split; [reflexivity|]. split; [apply mean_single_isnan|].
  repeat split. intros t.
  unfold check_anomaly; cbn [lower upper mean].
  rewrite ltb_nan_r, ltb_nan_l. reflexivity.
Qed.

Lemma single_reading_baseline_is_silent_rio_autumn :
  season_readings Examples.rio_history "Rio de Janeiro" "autumn"
    = [Analysis.mkRow 4 (100 * Examples.day) "Rio de Janeiro" 21%float "autumn"]
  /\ isnan (mean (get_season_stats Examples.rio_history "Rio de Janeiro"
                     "autumn")) = false
  /\ std (get_season_stats Examples.rio_history "Rio de Janeiro" "autumn")
     = nan
  /\ check_anomaly 50%float
       (get_season_stats Examples.rio_history "Rio de Janeiro" "autumn")
     = mkVerdict false "within normal range"
         (abs (50 - mean (get_season_stats Examples.rio_history
                            "Rio de Janeiro" "autumn"))).
Proof.
  split; [reflexivity|].
  pose proof (single_reading_baseline_is_silent
                Examples.rio_history "Rio de Janeiro" "autumn" _ eq_refl)
    as (_ & Hm & Hs & _ & _ & Hv).
  split; [exact Hm|]. split; [exact Hs | exact (Hv 50%float)].
Defined.

(** C4, as stated, fails: for the one autumn reading of Rio de Janeiro
    (21.0), a live 50.0 gets the verdict [is_anomaly = False], "within
    normal range", with deviation 29.0, and the baseline it was checked
    against has a defined mean. *)
Lemma single_reading_false_negative :
  length (season_readings Examples.rio_history "Rio de Janeiro" "autumn") = 1%nat
  /\ mean (get_season_stats Examples.rio_history "Rio de Janeiro" "autumn")
     = 21%float
  /\ check_anomaly 50%float
       (get_season_stats Examples.rio_history "Rio de Janeiro" "autumn")
     = mkVerdict false "within normal range" 29%float.
Proof. repeat split. Qed.

End WeatherFacts.

(** ** The anomaly band and the historical classifier *)
Module AnomalyFacts.
Import F64 F64Facts Analysis.

Lemma nth_error_combine {A B : Type} (xs : list A) (ys : list B) (i : nat)
    (x : A) (y : B) :
  nth_error xs i = Some x -> nth_error ys i = Some y ->
  nth_error (combine xs ys) i = Some (x, y).
Proof.
  revert ys i. induction xs as [|a xs IH]; intros [|b ys] [|i] Hx Hy;
    try discriminate; simpl in *.
  - congruence.
  - apply IH; assumption.
Qed.

(** The decision rule of one row. *)
Lemma outside_iff (t lo hi : float) :
  outside t lo hi = true <-> (t <? lo)%float = true \/ (hi <? t)%float = true.
Proof. unfold outside. apply orb_true_iff. Qed.

Lemma outside_within (t lo hi : float) :
  (lo <=? t)%float = true -> (t <=? hi)%float = true ->
  outside t lo hi = false.
Proof.
  intros H1 H2. unfold outside.
  rewrite (leb_not_gtb _ _ H1), (leb_not_gtb _ _ H2). reflexivity.
Qed.

Lemma outside_nan_bounds (t : float) : outside t nan nan = false.
Proof. unfold outside. rewrite ltb_nan_r, ltb_nan_l. reflexivity. Qed.

Lemma band_undefined (m s : float) :
  isnan m = true \/ isnan s = true ->
  lower_f64 m s = nan /\ upper_f64 m s = nan.
Proof.
  intros [H|H]; apply isnan_spec in H; subst.
  - split; [apply WeatherFacts.lower_f64_nan_mean
           | apply WeatherFacts.upper_f64_nan_mean].
  - split; [apply WeatherFacts.lower_f64_nan_std
           | apply WeatherFacts.upper_f64_nan_std].
Qed.

(** C3.  In the frame [calc_anomalies] returns, a row with temperature [t],
    moving mean [m] and moving standard deviation [s] has the bounds
    [m - 2 * s] and [m + 2 * s]; it is flagged exactly when [t] is strictly
    below the lower or strictly above the upper bound; it is not flagged
    when [t] lies within the bounds, ends included, nor when [m] or [s] is
    absent. *)
Theorem calc_anomalies_flags (df df' : DataFrame) (i : nat) (t m s : float) :
  calc_anomalies df = Py.Ok df' ->
  nth_error (col_temperature df) i = Some t ->
  cell (moving_mean df) i = Some m ->
  cell (moving_std df) i = Some s ->
  cell (lower_bound df') i = Some (m - 2 * s)%float /\
  cell (upper_bound df') i = Some (m + 2 * s)%float /\
  cell (is_anomaly df') i
    = Some (outside t (m - 2 * s)%float (m + 2 * s)%float) /\
  (outside t (m - 2 * s)%float (m + 2 * s)%float = true <->
   (t <? m - 2 * s)%float = true \/ (m + 2 * s <? t)%float = true) /\
  ((m - 2 * s <=? t)%float = true -> (t <=? m + 2 * s)%float = true ->
   outside t (m - 2 * s)%float (m + 2 * s)%float = false) /\
  (isnan m = true \/ isnan s = true ->
   outside t (m - 2 * s)%float (m + 2 * s)%float = false).
Proof.
  unfold calc_anomalies. intros H Ht Hm Hs.
  destruct (moving_mean df) as [mm|]; [|discriminate].
  destruct (moving_std df) as [ms|]; [|discriminate].
  injection H as <-. cbn [lower_bound upper_bound is_anomaly cell] in *.
  pose proof (nth_error_combine _ _ _ _ _ Hm Hs) as Hc.
  assert (Hlo : nth_error
                  (map (fun p => lower_f64 (fst p) (snd p)) (combine mm ms)) i
                = Some (m - 2 * s)%float)
    by (rewrite nth_error_map, Hc; reflexivity).
  assert (Hhi : nth_error
                  (map (fun p => upper_f64 (fst p) (snd p)) (combine mm ms)) i
                = Some (m + 2 * s)%float)
    by (rewrite nth_error_map, Hc; reflexivity).
  split; [exact Hlo|]. split; [exact Hhi|]. split.
  - rewrite nth_error_map.
    rewrite (nth_error_combine _ _ _ _ _ Ht
               (nth_error_combine _ _ _ _ _ Hlo Hhi)).
    reflexivity.
  - split; [apply outside_iff|]. split; [apply outside_within|].
    intros Hn. destruct (band_undefined m s Hn) as [Hl Hu].
    change (m - 2 * s)%float with (lower_f64 m s).
    change (m + 2 * s)%float with (upper_f64 m s).
    rewrite Hl, Hu. apply outside_nan_bounds.
Qed.

Lemma calc_anomalies_flags_berlin_row_15 :
  cell (lower_bound Examples.berlin_30_anomalies) 15
    = Some (Examples.at_row (moving_mean Examples.berlin_30_stats) 15
            - 2 * Examples.at_row (moving_std Examples.berlin_30_stats) 15)%float
  /\ cell (is_anomaly Examples.berlin_30_anomalies) 15 = Some false
  /\ cell (is_anomaly Examples.berlin_30_anomalies) 3 = Some false
  /\ isnan (Examples.at_row (moving_mean Examples.berlin_30_stats) 3) = true.
Proof.
  pose proof (calc_anomalies_flags
                Examples.berlin_30_stats Examples.berlin_30_anomalies 15
                (nth 15 (col_temperature Examples.berlin_30_stats) nan)
                (Examples.at_row (moving_mean Examples.berlin_30_stats) 15)
                (Examples.at_row (moving_std Examples.berlin_30_stats) 15)
                eq_refl eq_refl eq_refl eq_refl) as (Hlo & _ & Hf & _).
  pose proof (calc_anomalies_flags
                Examples.berlin_30_stats Examples.berlin_30_anomalies 3
                (nth 3 (col_temperature Examples.berlin_30_stats) nan)
                (Examples.at_row (moving_mean Examples.berlin_30_stats) 3)
                (Examples.at_row (moving_std Examples.berlin_30_stats) 3)
                eq_refl eq_refl eq_refl eq_refl) as (_ & _ & Hf3 & _ & _ & Hn).
  split; [exact Hlo|]. split; [rewrite Hf; reflexivity|].
  split; [rewrite Hf3, Hn; [reflexivity | left; reflexivity] | reflexivity].
Defined.

Lemma eqb_nan_l (x : float) : (nan =? x)%float = false.
Proof. rewrite FloatAxioms.eqb_spec, Prim2SF_nan. reflexivity. Qed.

Lemma eqb_zero_SF (s : float) :
  (s =? 0)%float = true -> exists b, Prim2SF s = S754_zero b.
Proof.
  rewrite FloatAxioms.eqb_spec. change (Prim2SF 0) with (S754_zero false).
  destruct (Prim2SF s) as [b|b| |b m e]; simpl; intros H;
    try discriminate; try (destruct b; discriminate).
  now exists b.
Qed.

Lemma shl_align_same (m : positive) (e : Z) : shl_align m e e = (m, e).
Proof. unfold shl_align. now rewrite Z.sub_diag. Qed.

(** A band of width zero around a finite mean is the mean itself. *)
Lemma band_of_zero_std (m s : float) :
  isfinite m = true -> (s =? 0)%float = true ->
  Spec.symmetric_band m s (lower_f64 m s) (upper_f64 m s) = true.
Proof.
  intros Hm Hs. apply isfinite_SF in Hm. apply eqb_zero_SF in Hs.
  destruct Hs as [b Hs].
  unfold Spec.symmetric_band, lower_f64, upper_f64, band_lower, band_upper.
  rewrite !FloatAxioms.eqb_spec, !FloatAxioms.sub_spec, !FloatAxioms.add_spec,
    !FloatAxioms.mul_spec, Hs.
  change (Prim2SF 2) with (S754_finite false 4503599627370496 (-51)).
  unfold SF64sub, SF64add, SF64mul.
  destruct Hm as [[sm Hm]|(sm & mm & em & Hm)]; rewrite Hm.
  - destruct sm, b; reflexivity.
  - cbn [SFmul SFadd SFsub xorb]. rewrite Z.min_id, shl_align_same.
    cbn [fst]. rewrite Z.sub_diag. destruct b; reflexivity.
Qed.

Lemma band_of_nan (m s : float) :
  isnan m = true \/ isnan s = true ->
  Spec.symmetric_band m s (lower_f64 m s) (upper_f64 m s) = false.
Proof.
  intros H. destruct (band_undefined m s H) as [Hl Hu].
  unfold Spec.symmetric_band. rewrite Hu, sub_nan_l, eqb_nan_l. reflexivity.
Qed.

(** C10, as stated, fails on binary64.  For the winter readings -5.2, -3.1
    and -7.4 of one city, [get_season_stats] returns a band in which
    [mean - lower] differs from [2 * std], although the mean and the
    standard deviation are numbers.  For a row whose moving mean and moving
    standard deviation are both 0.1, [calc_anomalies] gives the upper bound
    0.30000000000000004, and [upper_bound - moving_mean] differs from
    [2 * moving_std]. *)
Lemma band_not_symmetric_in_binary64 :
  isnan (WeatherMonitor.mean
           (WeatherMonitor.get_season_stats Examples.moscow_winter
              "Moscow" "winter")) = false
  /\ isnan (WeatherMonitor.std
              (WeatherMonitor.get_season_stats Examples.moscow_winter
                 "Moscow" "winter")) = false
  /\ Spec.symmetric_band
       (WeatherMonitor.mean
          (WeatherMonitor.get_season_stats Examples.moscow_winter
             "Moscow" "winter"))
       (WeatherMonitor.std
          (WeatherMonitor.get_season_stats Examples.moscow_winter
             "Moscow" "winter"))
       (WeatherMonitor.lower
          (WeatherMonitor.get_season_stats Examples.moscow_winter
             "Moscow" "winter"))
       (WeatherMonitor.upper
          (WeatherMonitor.get_season_stats Examples.moscow_winter
             "Moscow" "winter"))
     = false
  /\ upper_bound (Examples.with_flags Examples.tenth_frame)
     = Some [0.30000000000000004%float]
  /\ Spec.symmetric_band 0.1 0.1
       (Examples.at_row
          (lower_bound (Examples.with_flags Examples.tenth_frame)) 0)
       (Examples.at_row
          (upper_bound (Examples.with_flags Examples.tenth_frame)) 0)
     = false.
Proof. repeat split; vm_compute; reflexivity. Qed.

(** C10, amended.  In [get_season_stats], and in [calc_anomalies] for every
    row, the bounds are [mean - 2 * std] and [mean + 2 * std] evaluated in
    binary64.  On the computed values the band is symmetric when the
    standard deviation is zero and the mean finite, where it is the mean
    alone, and it is not when the mean or the standard deviation is NaN.
    Read over exact arithmetic, the same two expressions give a band that
    is symmetric about the mean, with half-width twice the standard
    deviation and the mean at its midpoint. *)
Theorem band_is_mean_plus_minus_two_std :
  (forall (df : DataFrame) (city season : string),
     WeatherMonitor.lower (WeatherMonitor.get_season_stats df city season)
     = (WeatherMonitor.mean (WeatherMonitor.get_season_stats df city season)
        - 2 * WeatherMonitor.std
                (WeatherMonitor.get_season_stats df city season))%float
     /\ WeatherMonitor.upper (WeatherMonitor.get_season_stats df city season)
        = (WeatherMonitor.mean
             (WeatherMonitor.get_season_stats df city season)
           + 2 * WeatherMonitor.std
                   (WeatherMonitor.get_season_stats df city season))%float)
  /\ (forall (df df' : DataFrame) (i : nat) (m s : float),
        calc_anomalies df = Py.Ok df' ->
        cell (moving_mean df) i = Some m ->
        cell (moving_std df) i = Some s ->
        cell (moving_mean df') i = Some m
        /\ cell (moving_std df') i = Some s
        /\ cell (lower_bound df') i = Some (m - 2 * s)%float
        /\ cell (upper_bound df') i = Some (m + 2 * s)%float)
  /\ (forall m s : float,
        isfinite m = true -> (s =? 0)%float = true ->
        Spec.symmetric_band m s (m - 2 * s)%float (m + 2 * s)%float = true)
  /\ (forall m s : float,
        isnan m = true \/ isnan s = true ->
        Spec.symmetric_band m s (m - 2 * s)%float (m + 2 * s)%float = false)
  /\ (forall m s : Q,
        (upper_exact m s - m == (2 # 1) * s)%Q
        /\ (m - lower_exact m s == (2 # 1) * s)%Q
        /\ ((lower_exact m s + upper_exact m s) / (2 # 1) == m)%Q).
Proof.
  split; [|split; [|split; [|split]]].
  - intros df city season. split; reflexivity.
  - intros df df' i m s H Hm Hs. unfold calc_anomalies in H.
    destruct (moving_mean df) as [mm|]; [|discriminate].
    destruct (moving_std df) as [ms|]; [|discriminate].
    injection H as <-.
    cbn [moving_mean moving_std lower_bound upper_bound cell] in *.
    pose proof (nth_error_combine _ _ _ _ _ Hm Hs) as Hc.
    repeat split; try assumption; rewrite nth_error_map, Hc; reflexivity.
  - exact band_of_zero_std.
  - exact band_of_nan.
  - intros m s. unfold upper_exact, lower_exact, band_upper, band_lower.
    repeat split; try ring. field.
Qed.

End AnomalyFacts.

(** ** The rolling kernels *)
Module KernelFacts.
Import Pandas Invariants.

Lemma dropna_length_le (w : list float) :
  (length (dropna w) <= length w)%nat.
Proof. apply filter_length_le. Qed.

Lemma dropna_all (w : list float) :
  forallb notna w = true -> dropna w = w.
Proof.
  unfold dropna. induction w as [|x w IH]; simpl; [reflexivity|].
  intros H. apply andb_true_iff in H. destruct H as [Hx Hw].
  rewrite Hx, IH by exact Hw. reflexivity.
Qed.

Lemma dropna_some (w : list float) :
  forallb notna w = false -> (length (dropna w) < length w)%nat.
Proof.
  unfold dropna. induction w as [|x w IH]; simpl; [discriminate|].
  destruct (notna x); simpl; intros H.
  - apply IH in H. lia.
  - pose proof (filter_length_le notna w). lia.
Qed.

Lemma count_some (w : list float) :
  forallb notna w = false -> (count w < length w)%nat.
Proof. apply dropna_some. Qed.

Lemma count_le (w : list float) : (count w <= length w)%nat.
Proof. apply dropna_length_le. Qed.

Lemma prep_values_length (xs : list float) :
  length (prep_values xs) = length xs.
Proof. apply length_map. Qed.

(** What is left of a window after the preparation has no NaN exactly when
    the window had neither a NaN nor an infinity. *)
Lemma notna_prep_values (w : list float) :
  forallb notna (prep_values w) = negb (existsb missing w).
Proof.
  induction w as [|x w IH]; simpl; [reflexivity|].
  rewrite IH, negb_orb. f_equal.
  unfold missing, notna, F64.isnan.
  destruct (is_infinity x) eqn:Ei; [now rewrite orb_true_r|].
  now rewrite orb_false_r.
Qed.

(** *** Slices *)

Lemma slice_length {A : Type} (xs : list A) (s e : Z) :
  length (slice xs s e)
  = Nat.min (Z.to_nat (e - s)) (length xs - Z.to_nat s).
Proof. unfold slice. rewrite length_firstn, length_skipn. reflexivity. Qed.

Lemma slice_map {A B : Type} (f : A -> B) (xs : list A) (s e : Z) :
  slice (map f xs) s e = map f (slice xs s e).
Proof. unfold slice. now rewrite skipn_map, firstn_map. Qed.

Lemma slice_nil {A : Type} (xs : list A) (s e : Z) :
  e <= s -> slice xs s e = [].
Proof.
  intros H. unfold slice. replace (Z.to_nat (e - s)) with 0%nat by lia.
  reflexivity.
Qed.

Lemma firstn_snoc {A : Type} (l : list A) (k : nat) (v : A) :
  nth_error l k = Some v -> firstn (S k) l = (firstn k l ++ [v])%list.
Proof.
  revert k. induction l as [|x l IH]; intros [|k] H; try discriminate.
  - simpl in H. injection H as ->. reflexivity.
  - simpl in H. rewrite !firstn_cons, (IH k H). reflexivity.
Qed.

Lemma skipn_nth {A : Type} (l : list A) (a : nat) (v : A) :
  nth_error l a = Some v -> skipn a l = v :: skipn (S a) l.
Proof.
  revert a. induction l as [|x l IH]; intros [|a] H; try discriminate.
  - simpl in H. injection H as ->. reflexivity.
  - simpl in H. rewrite !skipn_cons. exact (IH a H).
Qed.

Lemma nth_error_skipn_add {A : Type} (l : list A) (a k : nat) :
  nth_error (skipn a l) k = nth_error l (a + k).
Proof.
  revert a. induction l as [|x l IH]; intros [|a]; simpl;
    try reflexivity; [destruct k; reflexivity | apply IH].
Qed.

(** The window that ends one position later has one more value. *)
Lemma slice_snoc {A : Type} (xs : list A) (s e : Z) (v : A) :
  0 <= s <= e -> nth_error xs (Z.to_nat e) = Some v ->
  slice xs s (e + 1) = (slice xs s e ++ [v])%list.
Proof.
  intros Hse Hv. unfold slice.
  replace (Z.to_nat (e + 1 - s)) with (S (Z.to_nat (e - s))) by lia.
  apply firstn_snoc. rewrite nth_error_skipn_add.
  replace (Z.to_nat s + Z.to_nat (e - s))%nat with (Z.to_nat e) by lia.
  exact Hv.
Qed.

(** The window that starts one position later has lost its first value. *)
Lemma slice_cons {A : Type} (xs : list A) (s e : Z) (v : A) :
  0 <= s < e -> nth_error xs (Z.to_nat s) = Some v ->
  slice xs s e = v :: slice xs (s + 1) e.
Proof.
  intros Hse Hv. unfold slice.
  replace (Z.to_nat (e - s)) with (S (Z.to_nat (e - (s + 1)))) by lia.
  rewrite (skipn_nth xs _ v Hv).
  replace (Z.to_nat (s + 1)) with (S (Z.to_nat s)) by lia.
  reflexivity.
Qed.

Lemma nth_error_in_range {A : Type} (xs : list A) (i : Z) :
  0 <= i < Z.of_nat (length xs) ->
  exists v, nth_error xs (Z.to_nat i) = Some v.
Proof.
  intros H. destruct (nth_error xs (Z.to_nat i)) as [v|] eqn:E;
    [now exists v|].
  apply nth_error_None in E. lia.
Qed.

(** *** The windows *)

Lemma window_halves (W : Z) : W / 2 + (W - 1) / 2 + 1 = W.
Proof. Z.to_euclidean_division_equations; lia. Qed.

Lemma window_bounds_range (n W i : Z) :
  0 <= n -> 0 <= W ->
  0 <= fst (window_bounds n W i) <= snd (window_bounds n W i)
  /\ snd (window_bounds n W i) <= n.
Proof. unfold window_bounds, center_offset, clip. simpl. lia. Qed.

Lemma window_bounds_step (n W i : Z) :
  fst (window_bounds n W i) <= fst (window_bounds n W (i + 1))
  /\ snd (window_bounds n W i) <= snd (window_bounds n W (i + 1)).
Proof. unfold window_bounds, center_offset, clip. simpl. lia. Qed.

(** Where the window lies within the series, it is the [W] positions from
    [i - W / 2] to [i + (W - 1) / 2]. *)
Lemma window_bounds_inside (n W i : Z) :
  0 < W -> 0 <= i - W / 2 -> i + (W - 1) / 2 < n ->
  window_bounds n W i = (i - W / 2, i + (W - 1) / 2 + 1).
Proof.
  intros HW Hlo Hhi. pose proof (window_halves W) as Hk.
  assert (H1 : 0 <= W / 2) by (apply Z.div_pos; lia).
  assert (H2 : 0 <= (W - 1) / 2) by (apply Z.div_pos; lia).
  unfold window_bounds, center_offset, clip. f_equal; lia.
Qed.

(** Elsewhere it is cut short. *)
Lemma window_bounds_outside (n W i : Z) :
  0 < W -> 0 <= i < n ->
  i - W / 2 < 0 \/ n <= i + (W - 1) / 2 ->
  snd (window_bounds n W i) - fst (window_bounds n W i) < W.
Proof.
  intros HW Hi Hout. pose proof (window_halves W) as Hk.
  assert (H1 : 0 <= W / 2) by (apply Z.div_pos; lia).
  assert (H2 : 0 <= (W - 1) / 2) by (apply Z.div_pos; lia).
  unfold window_bounds, center_offset, clip. simpl. lia.
Qed.

(** *** The loop over the positions

    An invariant that the set-up establishes for the empty window, and that
    adding the next value and removing the first value maintain, holds of
    the state at every position, for the window of that position. *)
Section Loop.

Context {T St : Type}.
Variable A : Arith T.
Variables (init : T -> St) (addf removef : St -> T -> St) (calc : St -> T).
Variable vals : list T.
Variable Inv : Z -> Z -> St -> Prop.

Hypothesis Inv_init :
  forall s, 0 <= s <= Z.of_nat (length vals) ->
            Inv s s (init (nth (Z.to_nat s) vals (a_nan A))).
Hypothesis Inv_add :
  forall s e st v,
    0 <= s <= e -> nth_error vals (Z.to_nat e) = Some v ->
    Inv s e st -> Inv s (e + 1) (addf st v).
Hypothesis Inv_remove :
  forall s e st v,
    0 <= s < e -> e <= Z.of_nat (length vals) ->
    nth_error vals (Z.to_nat s) = Some v ->
    Inv s e st -> Inv (s + 1) e (removef st v).

Lemma fold_add_inv (k : nat) :
  forall s e st,
    0 <= s <= e -> e + Z.of_nat k <= Z.of_nat (length vals) ->
    Inv s e st ->
    Inv s (e + Z.of_nat k)
        (fold_left addf (slice vals e (e + Z.of_nat k)) st).
Proof.
  induction k as [|k IH]; intros s e st Hse Hn H.
  - rewrite slice_nil by lia. simpl. now rewrite Z.add_0_r.
  - destruct (nth_error_in_range vals e) as [v Hv]; [lia|].
    rewrite (slice_cons vals e _ v) by (try lia; exact Hv).
    cbn [fold_left].
    replace (e + Z.of_nat (S k)) with (e + 1 + Z.of_nat k) by lia.
    apply IH; [lia | lia |]. now apply Inv_add.
Qed.

Lemma fold_remove_inv (k : nat) :
  forall s e st,
    0 <= s -> s + Z.of_nat k <= e -> e <= Z.of_nat (length vals) ->
    Inv s e st ->
    Inv (s + Z.of_nat k) e
        (fold_left removef (slice vals s (s + Z.of_nat k)) st).
Proof.
  induction k as [|k IH]; intros s e st Hs Hse Hn H.
  - rewrite slice_nil by lia. simpl. now rewrite Z.add_0_r.
  - destruct (nth_error_in_range vals s) as [v Hv]; [lia|].
    rewrite (slice_cons vals s _ v) by (try lia; exact Hv).
    cbn [fold_left].
    replace (s + Z.of_nat (S k)) with (s + 1 + Z.of_nat k) by lia.
    apply IH; [lia | lia | lia |]. apply Inv_remove; try assumption; lia.
Qed.

Lemma setup_inv (s e : Z) :
  0 <= s <= e -> e <= Z.of_nat (length vals) ->
  Inv s e (fold_left addf (slice vals s e)
             (init (nth (Z.to_nat s) vals (a_nan A)))).
Proof.
  intros Hse Hn.
  replace e with (s + Z.of_nat (Z.to_nat (e - s))) by lia.
  apply fold_add_inv; [lia | lia |]. apply Inv_init. lia.
Qed.

Lemma slide_inv (prev : option (Z * Z * St)) (s e : Z) :
  0 <= s <= e -> e <= Z.of_nat (length vals) -> kept Inv prev s e ->
  Inv s e (slide A init addf removef vals prev s e).
Proof.
  intros Hse Hn Hprev. unfold slide.
  destruct prev as [[[ps pe] st]|]; [|now apply setup_inv].
  destruct Hprev as (Hps & Hpe & Hst).
  destruct (Z.leb_spec pe s) as [Hle|Hlt]; [now apply setup_inv|].
  replace e with (pe + Z.of_nat (Z.to_nat (e - pe))) at 1 2 by lia.
  apply fold_add_inv; [lia | lia |].
  replace s with (ps + Z.of_nat (Z.to_nat (s - ps))) at 1 2 by lia.
  apply fold_remove_inv; try lia. exact Hst.
Qed.

Lemma roll_loop_length (bounds : list (Z * Z)) :
  forall prev,
    length (roll_loop A init addf removef calc vals bounds prev)
    = length bounds.
Proof.
  induction bounds as [|[s e] bounds IH]; intros prev; simpl;
    [reflexivity|].
  now rewrite IH.
Qed.

Variable W : Z.
Hypothesis W_nonneg : 0 <= W.

Let bounds_at (i : nat) : Z * Z :=
  window_bounds (Z.of_nat (length vals)) W (Z.of_nat i).

Lemma roll_loop_inv (m : nat) :
  forall (k : nat) (prev : option (Z * Z * St)),
    kept Inv prev (fst (bounds_at k)) (snd (bounds_at k)) ->
    forall i, (i < m)%nat ->
      exists st,
        nth_error (roll_loop A init addf removef calc vals
                     (map bounds_at (seq k m)) prev) i
        = Some (calc st)
        /\ Inv (fst (bounds_at (k + i))) (snd (bounds_at (k + i))) st.
Proof.
  induction m as [|m IH]; intros k prev Hprev i Hi; [lia|].
  cbn [seq map roll_loop]. destruct (bounds_at k) as [s e] eqn:Hb.
  cbn [fst snd] in Hprev.
  pose proof (window_bounds_range (Z.of_nat (length vals)) W (Z.of_nat k)
                (Nat2Z.is_nonneg _) W_nonneg) as [Hr1 Hr2].
  fold (bounds_at k) in Hr1, Hr2. rewrite Hb in Hr1, Hr2.
  cbn [fst snd] in Hr1, Hr2.
  pose proof (slide_inv prev s e Hr1 Hr2 Hprev) as Hst.
  destruct i as [|i].
  - exists (slide A init addf removef vals prev s e).
    rewrite Nat.add_0_r, Hb. split; [reflexivity | exact Hst].
  - replace (k + S i)%nat with (S k + i)%nat by lia.
    cbn [nth_error]. apply IH; [|lia].
    pose proof (window_bounds_step (Z.of_nat (length vals)) W (Z.of_nat k))
      as [Hs1 Hs2].
    replace (Z.of_nat k + 1) with (Z.of_nat (S k)) in Hs1, Hs2 by lia.
    fold (bounds_at k) in Hs1, Hs2. fold (bounds_at (S k)) in Hs1, Hs2.
    rewrite Hb in Hs1, Hs2. cbn [fst snd] in Hs1, Hs2.
    cbn [kept]. repeat split; try lia. exact Hst.
Qed.

(** The output at every position is computed from a state that satisfies
    the invariant for the window of that position. *)
Lemma roll_loop_at (i : nat) :
  (i < length vals)%nat ->
  exists st,
    nth_error (roll_loop A init addf removef calc vals
                 (fixed_bounds (length vals) W) None) i
    = Some (calc st)
    /\ Inv (fst (bounds_at i)) (snd (bounds_at i)) st.
Proof.
  intros Hi. unfold fixed_bounds.
  destruct (roll_loop_inv (length vals) 0 None I i Hi) as (st & H1 & H2).
  exists st. split; [exact H1 | exact H2].
Qed.

End Loop.

(** *** The number of observations *)
Section Observations.

Context {T : Type}.
Variable A : Arith T.
Variable vals : list T.

Lemma observations_empty (s : Z) : observations A vals s s = 0.
Proof. unfold observations. now rewrite slice_nil by lia. Qed.

Lemma observations_snoc (s e : Z) (v : T) :
  0 <= s <= e -> nth_error vals (Z.to_nat e) = Some v ->
  observations A vals s (e + 1)
  = observations A vals s e + (if a_observed A v then 1 else 0).
Proof.
  intros Hse Hv. unfold observations.
  rewrite (slice_snoc vals s e v Hse Hv), filter_app, length_app.
  cbn [filter]. destruct (a_observed A v); cbn [length]; lia.
Qed.

Lemma observations_cons (s e : Z) (v : T) :
  0 <= s < e -> nth_error vals (Z.to_nat s) = Some v ->
  observations A vals (s + 1) e
  = observations A vals s e - (if a_observed A v then 1 else 0).
Proof.
  intros Hse Hv. unfold observations.
  rewrite (slice_cons vals s e v Hse Hv). cbn [filter].
  destruct (a_observed A v); cbn [length]; lia.
Qed.

Lemma roll_mean_observations (W : Z) (i : nat) :
  0 <= W -> (i < length vals)%nat ->
  exists st,
    nth_error (roll_mean A W vals) i = Some (calc_mean A W st)
    /\ m_nobs st
       = observations A vals
           (fst (window_bounds (Z.of_nat (length vals)) W (Z.of_nat i)))
           (snd (window_bounds (Z.of_nat (length vals)) W (Z.of_nat i))).
Proof.
  intros HW Hi. unfold roll_mean.
  apply (roll_loop_at A _ _ _ _ vals
           (fun s e st => m_nobs st = observations A vals s e));
    try assumption.
  - intros s _. now rewrite observations_empty.
  - intros s e st v Hse Hv H. rewrite (observations_snoc s e v Hse Hv), <- H.
    unfold add_mean. destruct (a_observed A v); simpl; lia.
  - intros s e st v Hse _ Hv H. rewrite (observations_cons s e v Hse Hv), <- H.
    unfold remove_mean. destruct (a_observed A v); simpl; lia.
Qed.

Lemma roll_var_observations (W : Z) (i : nat) :
  0 <= W -> (i < length vals)%nat ->
  exists st,
    nth_error (roll_var A W vals) i = Some (calc_var A (Z.max W 1) 1 st)
    /\ v_nobs st
       = observations A vals
           (fst (window_bounds (Z.of_nat (length vals)) W (Z.of_nat i)))
           (snd (window_bounds (Z.of_nat (length vals)) W (Z.of_nat i))).
Proof.
  intros HW Hi. unfold roll_var.
  apply (roll_loop_at A _ _ _ _ vals
           (fun s e st => v_nobs st = observations A vals s e));
    try assumption.
  - intros s _. now rewrite observations_empty.
  - intros s e st v Hse Hv H. rewrite (observations_snoc s e v Hse Hv), <- H.
    unfold add_var. destruct (a_observed A v); simpl; lia.
  - intros s e st v Hse _ Hv H. rewrite (observations_cons s e v Hse Hv), <- H.
    unfold remove_var. destruct (a_observed A v); simpl; [|lia].
    destruct (v_nobs st - 1 =? 0); simpl; lia.
Qed.

End Observations.

(** *** The rolling statistics of a column *)

Lemma rolling_mean_length (W : Z) (xs : list float) :
  length (rolling_mean W xs) = length xs.
Proof.
  unfold rolling_mean, roll_mean, fixed_bounds.
  now rewrite roll_loop_length, length_map, length_seq, prep_values_length.
Qed.

Lemma rolling_std_length (W : Z) (xs : list float) :
  length (rolling_std W xs) = length xs.
Proof.
  unfold rolling_std, roll_var, fixed_bounds.
  now rewrite length_map, roll_loop_length, length_map, length_seq,
    prep_values_length.
Qed.

Lemma observations_count (xs : list float) (s e : Z) :
  observations binary64 xs s e = Z.of_nat (count (slice xs s e)).
Proof. reflexivity. Qed.

(** A position whose window holds fewer than [W] observed values has no
    value. *)
Lemma rolling_short_window (W : Z) (xs : list float) (i : nat) :
  0 < W -> (i < length xs)%nat ->
  Z.of_nat
    (count (slice (prep_values xs)
              (fst (window_bounds (Z.of_nat (length xs)) W (Z.of_nat i)))
              (snd (window_bounds (Z.of_nat (length xs)) W (Z.of_nat i)))))
  < W ->
  nth_error (rolling_mean W xs) i = Some nan
  /\ nth_error (rolling_std W xs) i = Some nan.
Proof.
  intros HW Hi Hc. rewrite <- (prep_values_length xs) in Hi, Hc.
  assert (HW' : 0 <= W) by lia.
  split.
  - destruct (roll_mean_observations binary64 (prep_values xs) W i HW' Hi)
      as (st & Hn & Hobs).
    unfold rolling_mean. rewrite Hn. f_equal.
    rewrite observations_count in Hobs. unfold calc_mean.
    replace (W <=? m_nobs st) with false
      by (symmetry; apply Z.leb_gt; lia).
    reflexivity.
  - destruct (roll_var_observations binary64 (prep_values xs) W i HW' Hi)
      as (st & Hn & Hobs).
    unfold rolling_std. rewrite nth_error_map, Hn. cbn [option_map]. f_equal.
    rewrite observations_count in Hobs. unfold calc_var.
    replace (Z.max W 1 <=? v_nobs st) with false
      by (symmetry; apply Z.leb_gt; lia).
    reflexivity.
Qed.

(** The window of position [i] is the [W] positions from [i - W / 2] to
    [i + (W - 1) / 2].  Where it lies within the series, the cells are NaN
    when one of its [W] values is missing; where it does not, they are
    NaN. *)
Lemma rolling_window (W : Z) (xs : list float) (i : nat) :
  0 < W -> (i < length xs)%nat ->
  (0 <= Z.of_nat i - W / 2 /\
   Z.of_nat i + (W - 1) / 2 < Z.of_nat (length xs) ->
   Z.of_nat
     (length (slice xs (Z.of_nat i - W / 2) (Z.of_nat i + (W - 1) / 2 + 1)))
   = W
   /\ (existsb missing
         (slice xs (Z.of_nat i - W / 2) (Z.of_nat i + (W - 1) / 2 + 1))
       = true ->
       nth_error (rolling_mean W xs) i = Some nan
       /\ nth_error (rolling_std W xs) i = Some nan))
  /\ (Z.of_nat i - W / 2 < 0 \/
      Z.of_nat (length xs) <= Z.of_nat i + (W - 1) / 2 ->
      nth_error (rolling_mean W xs) i = Some nan
      /\ nth_error (rolling_std W xs) i = Some nan).
Proof.
  intros HW Hi. pose proof (window_halves W) as Hk.
  split.
  - intros [Hlo Hhi].
    set (w := slice xs (Z.of_nat i - W / 2) (Z.of_nat i + (W - 1) / 2 + 1)).
    assert (Hlen : Z.of_nat (length w) = W)
      by (unfold w; rewrite slice_length; lia).
    split; [exact Hlen|]. intros Hmiss.
    apply rolling_short_window; try assumption.
    rewrite (window_bounds_inside _ _ _ HW Hlo Hhi). cbn [fst snd].
    unfold prep_values at 1. rewrite slice_map. fold w.
    fold (prep_values w).
    pose proof (notna_prep_values w) as Hp. rewrite Hmiss in Hp.
    pose proof (count_some _ Hp) as Hc. rewrite prep_values_length in Hc.
    lia.
  - intros Hout. apply rolling_short_window; try assumption.
    pose proof (window_bounds_range (Z.of_nat (length xs)) W (Z.of_nat i)
                  (Nat2Z.is_nonneg _) (Z.lt_le_incl _ _ HW)) as [Hr1 Hr2].
    pose proof (window_bounds_outside (Z.of_nat (length xs)) W (Z.of_nat i)
                  HW (conj (Nat2Z.is_nonneg _) (proj1 (Nat2Z.inj_lt _ _) Hi))
                  Hout) as Hshort.
    pose proof (count_le
                  (slice (prep_values xs)
                     (fst (window_bounds (Z.of_nat (length xs)) W
                             (Z.of_nat i)))
                     (snd (window_bounds (Z.of_nat (length xs)) W
                             (Z.of_nat i))))) as Hd.
    rewrite slice_length in Hd. lia.
Qed.

End KernelFacts.


(** ** The rolling kernels in exact arithmetic

    Evaluated over the rationals, the compensation terms of the kernels are
    zero, the running sum is the sum of the window, and the running mean
    and sum of squared differences are those of the window. *)
Module ExactKernelFacts.
Import Pandas Spec Invariants KernelFacts.

Lemma qcount_add (a b : Z) : qcount (a + b) = (qcount a + qcount b)%Qc.
Proof.
  apply Qc_is_canon. unfold qcount, Qcplus, Q2Qc. cbn [this].
  rewrite !Qred_correct. rewrite inject_Z_plus. reflexivity.
Qed.

Lemma qcount_1 : qcount 1 = 1%Qc.
Proof. apply Qc_is_canon. reflexivity. Qed.

Lemma qcount_0 : qcount 0 = 0%Qc.
Proof. apply Qc_is_canon. reflexivity. Qed.

Lemma qcount_pos (z : Z) : 0 < z -> (0 < qcount z)%Qc.
Proof.
  intros H. unfold Qclt, qcount. cbn [this Q2Qc].
  rewrite (Qred_correct (inject_Z z)).
  change (inject_Z 0 < inject_Z z)%Q. rewrite <- Zlt_Qlt. exact H.
Qed.

Lemma qcount_nonzero (z : Z) : 0 < z -> qcount z <> 0%Qc.
Proof.
  intros H E. pose proof (qcount_pos z H) as Hp. rewrite E in Hp.
  exact (Qclt_not_eq _ _ Hp eq_refl).
Qed.

Lemma qcount_succ (n : nat) :
  qcount (Z.of_nat (S n)) = (qcount (Z.of_nat n) + 1)%Qc.
Proof.
  replace (Z.of_nat (S n)) with (Z.of_nat n + 1) by lia.
  now rewrite qcount_add, qcount_1.
Qed.

Lemma total_cons (x : Qc) (w : list Qc) : total (x :: w) = (x + total w)%Qc.
Proof. reflexivity. Qed.

Lemma total_app (w : list Qc) (v : Qc) :
  total (w ++ [v]) = (total w + v)%Qc.
Proof.
  induction w as [|x w IH].
  - cbn [app]. rewrite total_cons. unfold total at 1 2. simpl. ring.
  - cbn [app]. rewrite !total_cons, IH. ring.
Qed.

Lemma total_constant (w : list Qc) (p : Qc) :
  (forall x, In x w -> x = p) ->
  total w = (qcount (Z.of_nat (length w)) * p)%Qc.
Proof.
  induction w as [|x w IH]; intros H.
  - change (total []) with 0%Qc. change (Z.of_nat (length (@nil Qc))) with 0.
    rewrite qcount_0. ring.
  - rewrite total_cons. cbn [length]. rewrite qcount_succ.
    rewrite IH by (intros y Hy; apply H; now right).
    rewrite (H x (or_introl eq_refl)). ring.
Qed.

Lemma total_nonneg (w : list Qc) :
  (forall x, In x w -> (0 <= x)%Qc) -> (0 <= total w)%Qc.
Proof.
  induction w as [|x w IH]; intros H.
  - apply Qcle_refl.
  - rewrite total_cons.
    assert (Hx : (0 <= x)%Qc) by (apply H; now left).
    assert (Ht : (0 <= total w)%Qc)
      by (apply IH; intros y Hy; apply H; now right).
    pose proof (Qcplus_le_compat _ _ _ _ Hx Ht) as Hs.
    now replace (0 + 0)%Qc with 0%Qc in Hs by ring.
Qed.

Lemma total_nonpos (w : list Qc) :
  (forall x, In x w -> (x <= 0)%Qc) -> (total w <= 0)%Qc.
Proof.
  induction w as [|x w IH]; intros H.
  - apply Qcle_refl.
  - rewrite total_cons.
    assert (Hx : (x <= 0)%Qc) by (apply H; now left).
    assert (Ht : (total w <= 0)%Qc)
      by (apply IH; intros y Hy; apply H; now right).
    pose proof (Qcplus_le_compat _ _ _ _ Hx Ht) as Hs.
    now replace (0 + 0)%Qc with 0%Qc in Hs by ring.
Qed.

(** The sign of a quotient by a count. *)
Lemma div_count_not_neg (x : Qc) (n : Z) :
  0 < n -> (0 <= x)%Qc -> ~ (x / qcount n < 0)%Qc.
Proof.
  intros Hn Hx Hlt. pose proof (qcount_pos n Hn) as Hp.
  apply (Qcmult_lt_compat_r _ _ _ Hp) in Hlt.
  replace (x / qcount n * qcount n)%Qc with x in Hlt
    by (field; now apply qcount_nonzero).
  replace (0 * qcount n)%Qc with 0%Qc in Hlt by ring.
  exact (Qcle_not_lt _ _ Hx Hlt).
Qed.

Lemma div_count_not_pos (x : Qc) (n : Z) :
  0 < n -> (x <= 0)%Qc -> ~ (0 < x / qcount n)%Qc.
Proof.
  intros Hn Hx Hlt. pose proof (qcount_pos n Hn) as Hp.
  apply (Qcmult_lt_compat_r _ _ _ Hp) in Hlt.
  replace (x / qcount n * qcount n)%Qc with x in Hlt
    by (field; now apply qcount_nonzero).
  replace (0 * qcount n)%Qc with 0%Qc in Hlt by ring.
  exact (Qcle_not_lt _ _ Hx Hlt).
Qed.


Lemma total_zero {B : Type} (f : B -> Qc) (w : list B) :
  (forall x, In x w -> f x = 0%Qc) -> total (map f w) = 0%Qc.
Proof.
  induction w as [|x w IH]; intros H; [reflexivity|].
  cbn [map]. rewrite total_cons, (H x (or_introl eq_refl)), IH.
  - ring.
  - intros y Hy. apply H. now right.
Qed.

(** The sum of the squared differences from any [m], from the sum and the
    sum of the squares. *)
Lemma total_squared_differences (w : list Qc) (m : Qc) :
  total (map (fun x => (x - m) * (x - m))%Qc w)
  = (total (map square w) - (1 + 1) * m * total w
     + qcount (Z.of_nat (length w)) * m * m)%Qc.
Proof.
  induction w as [|x w IH].
  - change (Z.of_nat (length (@nil Qc))) with 0. rewrite qcount_0.
    cbn [map]. change (total []) with 0%Qc. ring.
  - cbn [map length]. rewrite !total_cons, IH, qcount_succ. unfold square.
    ring.
Qed.

Lemma filter_none {B : Type} (f : B -> bool) (w : list B) :
  length (filter f w) = 0%nat -> forall x, In x w -> f x = false.
Proof.
  induction w as [|y w IH]; intros H x Hx; [destruct Hx|].
  cbn [filter] in H. destruct (f y) eqn:E; [discriminate|].
  destruct Hx as [<- | Hx]; [exact E | now apply IH].
Qed.

Lemma filter_every {B : Type} (f : B -> bool) (w : list B) :
  length (filter f w) = length w -> forall x, In x w -> f x = true.
Proof.
  induction w as [|y w IH]; intros H x Hx; [destruct Hx|].
  pose proof (filter_length_le f w) as Hle.
  cbn [filter] in H. destruct (f y) eqn:E; cbn [length] in H; [|lia].
  destruct Hx as [<- | Hx]; [exact E | apply IH; [lia | exact Hx]].
Qed.

Lemma In_slice {B : Type} (xs : list B) (s e : Z) (x : B) :
  0 <= s -> In x (slice xs s e) ->
  exists j, s <= j < e /\ nth_error xs (Z.to_nat j) = Some x.
Proof.
  intros Hs Hx. apply In_nth_error in Hx. destruct Hx as [k Hk].
  assert (Hlen : (k < length (slice xs s e))%nat)
    by (apply nth_error_Some; congruence).
  rewrite slice_length in Hlen. unfold slice in Hk.
  rewrite nth_error_firstn in Hk.
  destruct (Nat.ltb_spec k (Z.to_nat (e - s))) as [Hlt|Hge]; [|lia].
  rewrite nth_error_skipn_add in Hk.
  exists (s + Z.of_nat k). split; [lia|].
  replace (Z.to_nat (s + Z.of_nat k)) with (Z.to_nat s + k)%nat by lia.
  exact Hk.
Qed.

Lemma slice_full_length {B : Type} (xs : list B) (s e : Z) :
  0 <= s <= e -> e <= Z.of_nat (length xs) ->
  Z.of_nat (length (slice xs s e)) = e - s.
Proof. intros Hse He. rewrite slice_length. lia. Qed.


Ltac exact_ops :=
  cbn [a_add a_sub a_mul a_div a_neg a_zero a_of_count a_observed a_eqb
       a_ltb a_signbit a_nan rationals
       m_nobs m_sum_x m_neg_ct m_compensation_add m_compensation_remove
       m_num_consecutive_same_value m_prev_value
       v_nobs v_mean_x v_ssqdm_x v_compensation_add v_compensation_remove
       v_num_consecutive_same_value v_prev_value] in *;
  repeat match goal with
         | |- context [Q2Qc (inject_Z ?z)] =>
             change (Q2Qc (inject_Z z)) with (qcount z)
         end.

Section Exact.

Variable vals : list Qc.

Lemma same_run_add (s e same : Z) (prev v : Qc) :
  0 <= s <= e -> nth_error vals (Z.to_nat e) = Some v ->
  same_run vals s e same prev ->
  same_run vals s (e + 1) (if Qc_eq_bool v prev then same + 1 else 1) v.
Proof.
  intros Hse Hv H j Hj Hrun.
  destruct (Z.eq_dec j e) as [->|Hne]; [exact Hv|].
  destruct (Qc_eq_bool v prev) eqn:E; [|lia].
  apply Qc_eq_bool_correct in E. subst v. apply H; lia.
Qed.

Lemma same_run_remove (s e same : Z) (prev : Qc) :
  same_run vals s e same prev -> same_run vals (s + 1) e same prev.
Proof. intros H j Hj Hrun. apply H; lia. Qed.

Lemma same_run_all (s e same : Z) (prev : Qc) :
  0 <= s -> e - s <= same -> same_run vals s e same prev ->
  forall x, In x (slice vals s e) -> x = prev.
Proof.
  intros Hs Hsame H x Hx. destruct (In_slice vals s e x Hs Hx) as (j & Hj & E).
  rewrite (H j Hj) in E by lia. congruence.
Qed.

Lemma negatives_empty (s : Z) : negatives vals s s = 0.
Proof. unfold negatives. now rewrite slice_nil by lia. Qed.

Lemma negatives_snoc (s e : Z) (v : Qc) :
  0 <= s <= e -> nth_error vals (Z.to_nat e) = Some v ->
  negatives vals s (e + 1)
  = negatives vals s e + (if a_signbit rationals v then 1 else 0).
Proof.
  intros Hse Hv. unfold negatives.
  rewrite (slice_snoc vals s e v Hse Hv), filter_app, length_app.
  cbn [filter]. destruct (a_signbit rationals v); cbn [length]; lia.
Qed.

Lemma negatives_cons (s e : Z) (v : Qc) :
  0 <= s < e -> nth_error vals (Z.to_nat s) = Some v ->
  negatives vals (s + 1) e
  = negatives vals s e - (if a_signbit rationals v then 1 else 0).
Proof.
  intros Hse Hv. unfold negatives.
  rewrite (slice_cons vals s e v Hse Hv). cbn [filter].
  destruct (a_signbit rationals v); cbn [length]; lia.
Qed.

Lemma roll_mean_state (W : Z) (i : nat) :
  0 <= W -> (i < length vals)%nat ->
  exists st,
    nth_error (roll_mean rationals W vals) i
    = Some (calc_mean rationals W st)
    /\ mean_state vals
         (fst (window_bounds (Z.of_nat (length vals)) W (Z.of_nat i)))
         (snd (window_bounds (Z.of_nat (length vals)) W (Z.of_nat i))) st.
Proof.
  intros HW Hi. unfold roll_mean.
  apply (roll_loop_at rationals _ _ _ _ vals (mean_state vals));
    try assumption.
  - intros s _. unfold mean_state, init_mean. exact_ops.
    rewrite negatives_empty, slice_nil by lia.
    repeat split; try lia. intros j Hj. lia.
  - intros s e st v Hse Hv (Hn & Hsum & Hca & Hcr & Hneg & Hrun).
    unfold mean_state, add_mean. exact_ops.
    rewrite (negatives_snoc s e v Hse Hv), (slice_snoc vals s e v Hse Hv),
      total_app, Hca, Hsum, Hn, Hneg.
    repeat split; try ring; try assumption.
    + exact_ops. destruct (Qclt_le_dec v 0); lia.
    + now apply same_run_add.
  - intros s e st v Hse _ Hv (Hn & Hsum & Hca & Hcr & Hneg & Hrun).
    unfold mean_state, remove_mean. exact_ops.
    rewrite (negatives_cons s e v Hse Hv), Hcr, Hsum, Hn, Hneg.
    rewrite (slice_cons vals s e v Hse Hv), total_cons.
    repeat split; try ring; try assumption.
    + exact_ops. destruct (Qclt_le_dec v 0); lia.
    + now apply same_run_remove.
Qed.


Lemma calc_mean_exact (W s e : Z) (st : RollMean) :
  0 <= s < e -> e <= Z.of_nat (length vals) -> W <= e - s ->
  mean_state vals s e st ->
  calc_mean rationals W st = mean_exact (slice vals s e).
Proof.
  intros Hse He HW (Hn & Hsum & _ & _ & Hneg & Hrun).
  pose proof (slice_full_length vals s e) as Hlen.
  assert (Hpos : 0 < Z.of_nat (length (slice vals s e))) by lia.
  unfold calc_mean, mean_exact. rewrite Hn, Hsum, Hneg. exact_ops.
  replace (W <=? e - s) with true by (symmetry; apply Z.leb_le; lia).
  replace (0 <? e - s) with true by (symmetry; apply Z.ltb_lt; lia).
  cbn [andb]. rewrite <- Hlen by lia.
  destruct (Z.leb_spec (Z.of_nat (length (slice vals s e)))
              (m_num_consecutive_same_value st)) as [Hsame|_].
  { rewrite (total_constant (slice vals s e) (m_prev_value st)).
    - field. now apply qcount_nonzero.
    - apply (same_run_all s e (m_num_consecutive_same_value st)); try lia.
      exact Hrun. }
  destruct (Z.eqb_spec (negatives vals s e) 0) as [H0|_]; cbn [andb].
  { destruct (Qclt_le_dec _ 0) as [Hlt|_].
    - exfalso. revert Hlt. apply div_count_not_neg; [exact Hpos|].
      apply total_nonneg. intros x Hx.
      assert (E : a_signbit rationals x = false)
        by (apply (filter_none _ (slice vals s e));
            [unfold negatives in H0; lia | exact Hx]).
      exact_ops. now destruct (Qclt_le_dec x 0).
    - destruct (Z.eqb_spec (negatives vals s e)
                  (Z.of_nat (length (slice vals s e)))) as [Hall|_];
        [lia | reflexivity]. }
  destruct (Z.eqb_spec (negatives vals s e)
              (Z.of_nat (length (slice vals s e)))) as [Hall|_];
    cbn [andb]; [|reflexivity].
  destruct (Qclt_le_dec 0 _) as [Hlt|_]; [|reflexivity].
  exfalso. revert Hlt. apply div_count_not_pos; [exact Hpos|].
  apply total_nonpos. intros x Hx.
  assert (E : a_signbit rationals x = true)
    by (apply (filter_every _ (slice vals s e));
        [unfold negatives in Hall; lia | exact Hx]).
  exact_ops. destruct (Qclt_le_dec x 0) as [Hx0|]; [|discriminate].
  now apply Qclt_le_weak.
Qed.


Lemma roll_var_state (W : Z) (i : nat) :
  0 <= W -> (i < length vals)%nat ->
  exists st,
    nth_error (roll_var rationals W vals) i
    = Some (calc_var rationals (Z.max W 1) 1 st)
    /\ var_state vals
         (fst (window_bounds (Z.of_nat (length vals)) W (Z.of_nat i)))
         (snd (window_bounds (Z.of_nat (length vals)) W (Z.of_nat i))) st.
Proof.
  intros HW Hi. unfold roll_var.
  apply (roll_loop_at rationals _ _ _ _ vals (var_state vals));
    try assumption.
  - intros s _. unfold var_state, init_var. exact_ops.
    rewrite slice_nil by lia. cbn [map]. change (total []) with 0%Qc.
    repeat split; try lia; try ring. intros j Hj. lia.
  - intros s e st v Hse Hv (Hn & Hca & Hcr & Hrun & Hmean & Hss).
    unfold var_state, add_var. exact_ops.
    rewrite (slice_snoc vals s e v Hse Hv), map_app. cbn [map].
    rewrite !total_app.
    rewrite Hn, Hca, Hss, <- Hmean.
    replace (e - s + 1 =? 0) with false by (symmetry; apply Z.eqb_neq; lia).
    replace (e + 1 - s) with (e - s + 1) by lia.
    rewrite qcount_add, qcount_1.
    assert (Hq : (qcount (e - s) + 1)%Qc <> 0%Qc).
    { rewrite <- qcount_1, <- qcount_add. apply qcount_nonzero. lia. }
    unfold square.
    repeat split; try assumption; try lia; try (field; exact Hq).
    now apply same_run_add.
  - intros s e st v Hse He Hv (Hn & Hca & Hcr & Hrun & Hmean & Hss).
    unfold var_state, remove_var. exact_ops.
    rewrite (slice_cons vals s e v Hse Hv) in Hmean, Hss.
    cbn [map] in Hss. rewrite !total_cons in Hss. rewrite total_cons in Hmean.
    rewrite Hn. destruct (Z.eqb_spec (e - s - 1) 0) as [H0|H0]; exact_ops.
    + rewrite slice_nil by lia. cbn [map]. change (total []) with 0%Qc.
      repeat split; try assumption; try lia; try ring.
      now apply same_run_remove.
    + assert (Hq : qcount (e - s - 1) <> 0%Qc) by (apply qcount_nonzero; lia).
      replace (e - s) with (e - s - 1 + 1) in Hmean by lia.
      rewrite qcount_add, qcount_1 in Hmean.
      replace (e - (s + 1)) with (e - s - 1) by lia.
      assert (Ht : total (slice vals (s + 1) e)
                   = ((qcount (e - s - 1) + 1) * v_mean_x st - v)%Qc)
        by (rewrite Hmean; ring).
      assert (Ht2 : total (map square (slice vals (s + 1) e))
                    = (v_ssqdm_x st
                       + v_mean_x st * (v + total (slice vals (s + 1) e))
                       - square v)%Qc)
        by (rewrite Hss; ring).
      rewrite Ht2, Ht, Hcr. unfold square.
      repeat split; try assumption; try lia; try (field; exact Hq).
      now apply same_run_remove.
Qed.


Lemma calc_var_exact (W s e : Z) (st : RollVar) :
  0 <= s -> e <= Z.of_nat (length vals) -> 2 <= e - s -> W <= e - s ->
  var_state vals s e st ->
  calc_var rationals (Z.max W 1) 1 st = variance_exact (slice vals s e).
Proof.
  intros Hs He H2 HW (Hn & _ & _ & Hrun & Hmean & Hss).
  pose proof (slice_full_length vals s e) as Hlen.
  assert (Hq : qcount (Z.of_nat (length (slice vals s e))) <> 0%Qc)
    by (apply qcount_nonzero; lia).
  assert (Hq1 : qcount (Z.of_nat (length (slice vals s e)) - 1) <> 0%Qc)
    by (apply qcount_nonzero; lia).
  unfold calc_var, variance_exact. rewrite Hn. exact_ops.
  replace (Z.max W 1 <=? e - s) with true by (symmetry; apply Z.leb_le; lia).
  replace (1 <? e - s) with true by (symmetry; apply Z.ltb_lt; lia).
  replace (e - s =? 1) with false by (symmetry; apply Z.eqb_neq; lia).
  cbn [andb orb]. rewrite <- Hlen in * by lia.
  destruct (Z.leb_spec (Z.of_nat (length (slice vals s e)))
              (v_num_consecutive_same_value st)) as [Hsame|_].
  - assert (Hall : forall x, In x (slice vals s e) -> x = v_prev_value st)
      by (apply (same_run_all s e (v_num_consecutive_same_value st));
          [lia | lia | exact Hrun]).
    assert (Hm : mean_exact (slice vals s e) = v_prev_value st).
    { unfold mean_exact. rewrite (total_constant _ _ Hall). now field. }
    rewrite total_zero.
    + now field.
    + intros x Hx. rewrite Hm, (Hall x Hx). ring.
  - rewrite total_squared_differences, Hss. unfold mean_exact.
    rewrite <- Hmean. now field.
Qed.

End Exact.

(** X29.  In exact arithmetic, at every position whose window lies within the
    series, the window holds [W] values, the mean kernel returns their mean
    and, for a window of two values or more, the variance kernel returns
    their sample variance. *)
Theorem rolling_kernels_exact (W : Z) (vals : list Qc) (i : nat) :
  0 < W -> 0 <= Z.of_nat i - W / 2 ->
  Z.of_nat i + (W - 1) / 2 < Z.of_nat (length vals) ->
  let window :=
    slice vals (Z.of_nat i - W / 2) (Z.of_nat i + (W - 1) / 2 + 1) in
  Z.of_nat (length window) = W
  /\ nth_error (roll_mean rationals W vals) i = Some (mean_exact window)
  /\ (2 <= W ->
      nth_error (roll_var rationals W vals) i
      = Some (variance_exact window)).
Proof.
  intros HW Hlo Hhi window.
  assert (Hi : (i < length vals)%nat).
  { assert (0 <= (W - 1) / 2) by (apply Z.div_pos; lia). lia. }
  pose proof (window_bounds_inside (Z.of_nat (length vals)) W (Z.of_nat i)
                HW Hlo Hhi) as Hb.
  pose proof (window_halves W) as Hk.
  assert (HW' : 0 <= W) by lia.
  assert (Hlen : Z.of_nat (length window) = W)
    by (unfold window; rewrite slice_full_length; lia).
  split; [exact Hlen|]. split.
  - destruct (roll_mean_state vals W i HW' Hi) as (st & Hn & Hst).
    rewrite Hb in Hst. cbn [fst snd] in Hst. rewrite Hn. f_equal.
    apply calc_mean_exact; try lia. exact Hst.
  - intros H2. destruct (roll_var_state vals W i HW' Hi) as (st & Hn & Hst).
    rewrite Hb in Hst. cbn [fst snd] in Hst. rewrite Hn. f_equal.
    apply calc_var_exact; try lia. exact Hst.
Qed.

Lemma rolling_kernels_exact_doubling :
  nth_error (roll_mean rationals 3 Examples.doubling) 1
  = Some (Q2Qc (7 # 3))
  /\ nth_error (roll_var rationals 3 Examples.doubling) 1
     = Some (Q2Qc (7 # 3))
  /\ nth_error (roll_mean rationals 3 Examples.doubling) 3
     = Some (Q2Qc (28 # 3)).
Proof.
  destruct (rolling_kernels_exact 3 Examples.doubling 1) as (_ & Hm & Hv);
    [lia | vm_compute; discriminate | vm_compute; reflexivity |].
  destruct (rolling_kernels_exact 3 Examples.doubling 3) as (_ & Hm3 & _);
    [lia | vm_compute; discriminate | vm_compute; reflexivity |].
  rewrite Hm, Hm3, Hv by lia.
  repeat split; f_equal; apply Qc_is_canon; vm_compute; reflexivity.
Defined.

End ExactKernelFacts.
(** ** Boolean indexing, label alignment and positional assignment *)
Module IndexingFacts.
Import Pandas.

Lemma select_map {A B : Type} (f : A -> B) (mask : list bool) (xs : list A) :
  select mask (map f xs) = map f (select mask xs).
Proof.
  revert xs. induction mask as [|b mask IH]; intros [|x xs]; simpl; auto.
  destruct b; simpl; rewrite IH; reflexivity.
Qed.

Lemma select_length {A B : Type} (mask : list bool) (xs : list A)
    (ys : list B) :
  length xs = length ys -> length (select mask xs) = length (select mask ys).
Proof.
  revert xs ys. induction mask as [|b mask IH]; intros [|x xs] [|y ys] H;
    simpl in *; try discriminate; auto.
  destruct b; simpl; rewrite (IH xs ys); auto.
Qed.

Lemma select_In {A : Type} (mask : list bool) (xs : list A) (x : A) :
  In x (select mask xs) -> In x xs.
Proof.
  revert xs. induction mask as [|b mask IH]; intros [|y xs]; simpl;
    try contradiction.
  destruct b; simpl; intros H.
  - destruct H as [H|H]; [left; exact H | right; apply IH, H].
  - right; apply IH, H.
Qed.

Lemma scatter_length (mask : list bool) (col vals : list float) :
  length (scatter mask col vals) = length col.
Proof.
  revert col vals. induction mask as [|b mask IH]; intros [|old col] vals;
    simpl; auto.
  destruct b; [destruct vals|]; simpl; rewrite IH; reflexivity.
Qed.

Lemma series_at_skip (pre rest : Series) (l : Z) :
  ~ In l (map fst pre) -> series_at (pre ++ rest) l = series_at rest l.
Proof.
  induction pre as [|[l' v] pre IH]; simpl; intros H; auto.
  destruct (Z.eqb_spec l' l) as [->|_]; [tauto|]. apply IH. tauto.
Qed.

(** Assigning a Series whose labels are those of the masked rows, all
    distinct, is assigning its values in order. *)
Lemma loc_set_series_scatter_gen (mask : list bool) :
  forall (labels : list Z) (col vals : list float) (pre : Series),
    length mask = length labels ->
    NoDup labels ->
    (forall l, In l labels -> ~ In l (map fst pre)) ->
    length vals = length (select mask labels) ->
    loc_set_series mask labels col
      (pre ++ combine (select mask labels) vals)
    = scatter mask col vals.
Proof.
  induction mask as [|b mask IH]; intros [|l labels] col vals pre Hlen Hnd Hpre Hv;
    simpl in *; try discriminate; auto.
  destruct col as [|old col]; [reflexivity|].
  inversion Hnd as [|? ? Hl Hnd']; subst.
  destruct b; simpl in *.
  - destruct vals as [|v vals]; [discriminate|]. simpl.
    rewrite series_at_skip by (apply Hpre; auto). simpl.
    rewrite Z.eqb_refl. f_equal.
    change (pre ++ (l, v) :: combine (select mask labels) vals)
      with (pre ++ [(l, v)] ++ combine (select mask labels) vals).
    rewrite app_assoc. apply IH; auto.
    intros l' Hin. rewrite map_app, in_app_iff. simpl.
    intros [H|[H|[]]]; [apply (Hpre l'); auto | subst; auto].
  - f_equal. apply IH; auto.
Qed.

Lemma loc_set_series_scatter (mask : list bool) (labels : list Z)
    (col vals : list float) :
  length mask = length labels ->
  NoDup labels ->
  length vals = length (select mask labels) ->
  loc_set_series mask labels col (combine (select mask labels) vals)
  = scatter mask col vals.
Proof.
  intros. apply (loc_set_series_scatter_gen mask labels col vals []); auto.
Qed.

Lemma map_fst_combine {A B : Type} (xs : list A) (ys : list B) :
  length xs = length ys -> map fst (combine xs ys) = xs.
Proof.
  revert ys. induction xs as [|x xs IH]; intros [|y ys] H; simpl in *;
    try discriminate; auto.
  rewrite IH; auto.
Qed.

Lemma map_snd_combine {A B : Type} (xs : list A) (ys : list B) :
  length xs = length ys -> map snd (combine xs ys) = ys.
Proof.
  revert ys. induction xs as [|x xs IH]; intros [|y ys] H; simpl in *;
    try discriminate; auto.
  rewrite IH; auto.
Qed.

(** Reading back the rows that were assigned gives the values assigned. *)
Lemma select_scatter_same (mask : list bool) :
  forall col vals : list float,
    length mask = length col ->
    length vals = length (select mask col) ->
    select mask (scatter mask col vals) = vals.
Proof.
  induction mask as [|b mask IH]; intros [|old col] vals Hl Hv; simpl in *;
    try discriminate.
  - destruct vals; [reflexivity|discriminate].
  - destruct b; simpl in *.
    + destruct vals as [|v vals]; [discriminate|]. simpl.
      rewrite IH; auto.
    + apply IH; auto.
Qed.

(** Rows outside the mask keep their cells. *)
Lemma select_scatter_other (mask' : list bool) :
  forall (mask : list bool) (col vals : list float),
    length mask = length mask' ->
    (forall i, nth i mask false = true -> nth i mask' false = false) ->
    select mask' (scatter mask col vals) = select mask' col.
Proof.
  induction mask' as [|b' mask' IH]; intros [|b mask] col vals Hl Hd;
    simpl in *; try discriminate; auto.
  destruct col as [|old col]; [reflexivity|].
  assert (Hd' : forall i, nth i mask false = true -> nth i mask' false = false)
    by (intros i; apply (Hd (S i))).
  destruct b.
  - pose proof (Hd 0%nat eq_refl) as Hb. simpl in Hb. subst b'.
    destruct vals as [|v vals]; simpl; apply IH; auto.
  - simpl. destruct b'; [f_equal|]; apply IH; auto.
Qed.

Lemma existsb_eqb_In (x : string) (acc : list string) :
  existsb (String.eqb x) acc = true <-> In x acc.
Proof.
  rewrite existsb_exists. split.
  - intros [y [Hy He]]. apply String.eqb_eq in He. subst. exact Hy.
  - intros H. exists x. split; [exact H|apply String.eqb_refl].
Qed.

Lemma unique_fold_spec (xs : list string) :
  forall acc : list string,
    NoDup acc ->
    NoDup (fold_left
             (fun acc x =>
                if existsb (String.eqb x) acc then acc else (acc ++ [x])%list)
             xs acc)
    /\ (forall x, In x acc \/ In x xs <->
                  In x (fold_left
                          (fun acc x =>
                             if existsb (String.eqb x) acc then acc
                             else (acc ++ [x])%list)
                          xs acc)).
Proof.
  induction xs as [|y xs IH]; intros acc Hnd; simpl.
  - split; [exact Hnd|]. intros x. tauto.
  - destruct (existsb (String.eqb y) acc) eqn:E.
    + destruct (IH acc Hnd) as [H1 H2]. split; [exact H1|].
      intros x. rewrite <- H2. apply existsb_eqb_In in E.
      split; [intros [H|[H|H]]; subst; auto | tauto].
    + assert (Hy : ~ In y acc)
        by (intros H; apply existsb_eqb_In in H; congruence).
      assert (Hnd' : NoDup (acc ++ [y])).
      { apply NoDup_app; [exact Hnd | repeat constructor; simpl; tauto |].
        intros a Ha [<-|[]]. exact (Hy Ha). }
      destruct (IH _ Hnd') as [H1 H2]. split; [exact H1|].
      intros x. rewrite <- H2, in_app_iff. simpl. tauto.
Qed.

Lemma unique_NoDup (xs : list string) : NoDup (unique xs).
Proof. apply (unique_fold_spec xs []). constructor. Qed.

Lemma unique_In (xs : list string) (x : string) :
  In x (unique xs) <-> In x xs.
Proof.
  unfold unique. destruct (unique_fold_spec xs [] (NoDup_nil _)) as [_ H].
  rewrite <- H. simpl. tauto.
Qed.

End IndexingFacts.

(** ** The rolling statistics of a frame: both strategies *)
Module FrameFacts.
Import Pandas Analysis KernelFacts IndexingFacts.

Lemma distinct_NoDup (ls : list Z) : distinct ls = true -> NoDup ls.
Proof.
  induction ls as [|l ls IH]; simpl; intros H; constructor.
  - apply andb_true_iff in H. destruct H as [H _].
    apply negb_true_iff in H. intros Hin.
    assert (existsb (Z.eqb l) ls = true)
      by (apply existsb_exists; exists l; split; [exact Hin|apply Z.eqb_refl]).
    congruence.
  - apply IH. apply andb_true_iff in H. tauto.
Qed.

Lemma frame_of_well_formed (rs : list Row) : well_formed (frame_of rs).
Proof. repeat split. Qed.

Lemma column_length (df : DataFrame) (c : option (list float)) :
  column_ok df c -> length (column df c) = length (rows df).
Proof.
  destruct c as [l|]; simpl; intros H; [exact H|apply repeat_length].
Qed.

Lemma city_mask_length (df : DataFrame) (c : string) :
  length (city_mask df c) = length (rows df).
Proof. apply length_map. Qed.

Lemma series_apply_loc_temperature (f : list float -> list float)
    (df : DataFrame) (mask : list bool) :
  series_apply f (loc_temperature df mask)
  = combine (select mask (labels df)) (f (select mask (col_temperature df))).
Proof.
  unfold series_apply, loc_temperature, values.
  assert (H : length (select mask (labels df))
              = length (select mask (col_temperature df)))
    by (apply select_length; unfold labels, col_temperature;
        rewrite !length_map; reflexivity).
  rewrite map_fst_combine, map_snd_combine by exact H. reflexivity.
Qed.

(** The sequential step, which aligns a Series on the labels, assigns one
    city's rows position by position when the labels are distinct. *)
Lemma seq_step_assign (df : DataFrame) (c : string) :
  NoDup (labels df) -> moving_avg_seq_step df c = assign_city df c.
Proof.
  intros Hnd. unfold moving_avg_seq_step, assign_city.
  cbn zeta. rewrite !series_apply_loc_temperature.
  change (city_mask (set_moving_mean df _) c) with (city_mask df c).
  change (labels (set_moving_mean df _)) with (labels df).
  change (col_temperature (set_moving_mean df _)) with (col_temperature df).
  assert (Hm : length (city_mask df c) = length (labels df))
    by (unfold labels; rewrite city_mask_length, length_map; reflexivity).
  assert (Hv : length (select (city_mask df c) (col_temperature df))
               = length (select (city_mask df c) (labels df))).
  { apply select_length.
    unfold labels, col_temperature. rewrite !length_map. reflexivity. }
  rewrite !loc_set_series_scatter
    by (auto; rewrite ?rolling_mean_length, ?rolling_std_length; exact Hv).
  reflexivity.
Qed.

Lemma assign_city_rows (df : DataFrame) (c : string) :
  rows (assign_city df c) = rows df.
Proof. reflexivity. Qed.

Lemma assign_city_well_formed (df : DataFrame) (c : string) :
  well_formed df -> well_formed (assign_city df c).
Proof.
  intros (Hm & Hs & Ht). unfold well_formed, assign_city; cbn.
  rewrite !scatter_length.
  repeat split; try apply column_length; assumption.
Qed.

(** The merging step of the parallel strategy never raises on a well-formed
    frame, and assigns the same cells. *)
Lemma par_step_assign (df cur : DataFrame) (c : string) :
  rows cur = rows df -> well_formed cur ->
  moving_avg_par_step cur
    (calc_city_moving (select (city_mask df c) (rows df), c))
  = Py.Ok (assign_city cur c).
Proof.
  intros Hr (Hm & Hs & Ht).
  unfold moving_avg_par_step, calc_city_moving, assign_city, loc_set_values.
  cbn zeta.
  assert (Hmask : city_mask cur c = city_mask df c)
    by (unfold city_mask; rewrite Hr; reflexivity).
  assert (Htemp : map temperature (select (city_mask df c) (rows df))
                  = select (city_mask cur c) (col_temperature cur))
    by (unfold col_temperature; rewrite select_map, Hmask, Hr; reflexivity).
  rewrite Htemp.
  assert (Hlen : forall col : list float,
             length col = length (rows cur) ->
             length (select (city_mask cur c) (col_temperature cur))
             = length (select (city_mask cur c) col)).
  { intros col Hc. apply select_length.
    unfold col_temperature. rewrite length_map. auto. }
  replace (length (rolling_mean WINDOW_SIZE
                     (select (city_mask cur c) (col_temperature cur)))
           =? length (select (city_mask cur c)
                        (column cur (moving_mean cur))))%nat
    with true
    by (symmetry; apply Nat.eqb_eq; rewrite rolling_mean_length;
        apply Hlen, column_length; exact Hm).
  cbn [Py.bind].
  change (column (set_moving_mean cur _) (moving_std (set_moving_mean cur _)))
    with (column cur (moving_std cur)).
  replace (length (rolling_std WINDOW_SIZE
                     (select (city_mask cur c) (col_temperature cur)))
           =? length (select (city_mask cur c)
                        (column cur (moving_std cur))))%nat
    with true
    by (symmetry; apply Nat.eqb_eq; rewrite rolling_std_length;
        apply Hlen, column_length; exact Hs).
  cbn [Py.bind].
  reflexivity.
Qed.

Lemma seq_fold_assign (cities : list string) :
  forall cur : DataFrame,
    NoDup (labels cur) ->
    fold_left moving_avg_seq_step cities cur
    = fold_left assign_city cities cur.
Proof.
  induction cities as [|c cities IH]; intros cur Hnd; simpl; [reflexivity|].
  rewrite seq_step_assign by exact Hnd. apply IH. exact Hnd.
Qed.

Lemma par_fold_assign (df : DataFrame) (cities : list string) :
  forall cur : DataFrame,
    rows cur = rows df -> well_formed cur ->
    fold_left (fun acc res => df' <- acc ;; moving_avg_par_step df' res)
      (pool_map calc_city_moving
         (map (fun c => (select (city_mask df c) (rows df), c)) cities))
      (Py.Ok cur)
    = Py.Ok (fold_left assign_city cities cur).
Proof.
  induction cities as [|c cities IH]; intros cur Hr Hwf; [reflexivity|].
  unfold pool_map in *. cbn [map fold_left Py.bind].
  rewrite par_step_assign by assumption.
  apply IH; [exact Hr | apply assign_city_well_formed, Hwf].
Qed.

(** Both strategies, when labels are distinct, assign every city's rows
    position by position. *)
Lemma calc_moving_avg_assign (df : DataFrame) (parallel : bool) :
  NoDup (labels df) -> well_formed df ->
  calc_moving_avg df parallel
  = Py.Ok (fold_left assign_city (unique (col_city df)) df).
Proof.
  intros Hnd Hwf. unfold calc_moving_avg. destruct parallel; cbn [negb].
  - apply par_fold_assign; [reflexivity | exact Hwf].
  - rewrite seq_fold_assign by exact Hnd. reflexivity.
Qed.

(** C1.  On a frame whose row labels are distinct, the sequential strategy
    and the parallel strategy return the same frame: the same [moving_mean]
    and [moving_std] cell in every row of every city, bit for bit. *)
Theorem calc_moving_avg_parallel_eq_sequential (df : DataFrame) :
  NoDup (labels df) -> well_formed df ->
  calc_moving_avg df true = calc_moving_avg df false.
Proof.
  intros Hnd Hwf. rewrite !calc_moving_avg_assign by assumption. reflexivity.
Qed.

Lemma calc_moving_avg_parallel_eq_sequential_two_cities :
  calc_moving_avg Examples.two_cities true
  = calc_moving_avg Examples.two_cities false.
Proof.
  apply (calc_moving_avg_parallel_eq_sequential Examples.two_cities).
  - apply distinct_NoDup. vm_compute. reflexivity.
  - apply frame_of_well_formed.
Defined.

End FrameFacts.

(** ** The rolling statistics of a frame: what is written, and where *)
Module SeriesFacts.
Import Pandas Analysis KernelFacts IndexingFacts FrameFacts.

Lemma same_but_moving_refl (df : DataFrame) : same_but_moving df df.
Proof. repeat split. Qed.

Lemma same_but_moving_trans (a b c : DataFrame) :
  same_but_moving a b -> same_but_moving b c -> same_but_moving a c.
Proof.
  unfold same_but_moving. intros (H1 & H2 & H3 & H4 & H5) (K1 & K2 & K3 & K4 & K5).
  repeat split; congruence.
Qed.

Lemma seq_step_same (df : DataFrame) (c : string) :
  same_but_moving df (moving_avg_seq_step df c).
Proof. repeat split. Qed.

Lemma par_step_same (df df' : DataFrame) (res : string * list float * list float) :
  moving_avg_par_step df res = Py.Ok df' -> same_but_moving df df'.
Proof.
  destruct res as [[c mean_vals] std_vals]. unfold moving_avg_par_step.
  destruct (loc_set_values _ _ mean_vals) as [mm|e]; [|discriminate].
  cbn [Py.bind].
  destruct (loc_set_values _ _ std_vals) as [ms|e]; [|discriminate].
  cbn [Py.bind]. intros H. injection H as <-. repeat split.
Qed.

Lemma seq_fold_same (cities : list string) :
  forall df : DataFrame,
    same_but_moving df (fold_left moving_avg_seq_step cities df).
Proof.
  induction cities as [|c cities IH]; intros df; simpl.
  - apply same_but_moving_refl.
  - eapply same_but_moving_trans; [apply (seq_step_same df c)|apply IH].
Qed.

Lemma par_fold_raise (results : list (string * list float * list float))
    (e : Py.exn) :
  fold_left (fun acc res => df' <- acc ;; moving_avg_par_step df' res)
            results (Py.Raise e)
  = Py.Raise e.
Proof. induction results as [|r results IH]; simpl; auto. Qed.

Lemma par_fold_same (results : list (string * list float * list float)) :
  forall df df' : DataFrame,
    fold_left (fun acc res => df' <- acc ;; moving_avg_par_step df' res)
              results (Py.Ok df)
    = Py.Ok df' ->
    same_but_moving df df'.
Proof.
  induction results as [|r results IH]; intros df df'; simpl.
  - intros H. injection H as <-. apply same_but_moving_refl.
  - destruct (moving_avg_par_step df r) as [d|e] eqn:E.
    + intros H. eapply same_but_moving_trans;
        [apply (par_step_same _ _ _ E) | apply IH, H].
    + rewrite par_fold_raise. discriminate.
Qed.

(** C8.  Whichever strategy runs, the frame [calc_moving_avg] returns has
    the rows of its input, each with its label, timestamp, city,
    temperature and season, in the same order, and every column other than
    [moving_mean] and [moving_std] as it was. *)
Theorem calc_moving_avg_keeps_the_rows
    (df df' : DataFrame) (parallel : bool) :
  calc_moving_avg df parallel = Py.Ok df' ->
  rows df' = rows df /\ lower_bound df' = lower_bound df
  /\ upper_bound df' = upper_bound df /\ is_anomaly df' = is_anomaly df
  /\ trend df' = trend df.
Proof.
  unfold calc_moving_avg. destruct parallel; cbn [negb].
  - apply par_fold_same.
  - intros H. injection H as <-. apply seq_fold_same.
Qed.

Lemma calc_moving_avg_keeps_the_rows_two_cities :
  exists df' : DataFrame,
    calc_moving_avg Examples.two_cities true = Py.Ok df'
    /\ rows df' = rows Examples.two_cities
    /\ trend df' = trend Examples.two_cities.
Proof.
  destruct (calc_moving_avg Examples.two_cities true) as [df'|e] eqn:E.
  - exists df'. split; [reflexivity|].
    destruct (calc_moving_avg_keeps_the_rows Examples.two_cities df' true E)
      as (H1 & _ & _ & _ & H5).
    split; assumption.
  - exfalso.
    rewrite (calc_moving_avg_assign Examples.two_cities true) in E.
    + discriminate E.
    + apply distinct_NoDup. vm_compute. reflexivity.
    + apply frame_of_well_formed.
Defined.

Lemma city_mask_disjoint (df : DataFrame) (c d : string) (i : nat) :
  c <> d ->
  nth i (city_mask df d) false = true -> nth i (city_mask df c) false = false.
Proof.
  intros Hcd. unfold city_mask. revert i.
  induction (rows df) as [|r rs IH]; intros [|i]; simpl; auto.
  intros H. apply String.eqb_eq in H. apply String.eqb_neq. congruence.
Qed.

Lemma select_absent_city {A : Type} (df : DataFrame) (c : string) (xs : list A) :
  ~ In c (col_city df) -> select (city_mask df c) xs = [].
Proof.
  unfold city_mask, col_city. revert xs.
  induction (rows df) as [|r rs IH]; intros [|x xs] H; simpl in *; auto.
  destruct (String.eqb_spec (city r) c) as [E|_]; [tauto|].
  apply IH. tauto.
Qed.

(** After the rows of the cities [cities], all distinct, have been
    assigned, the cells of each of them are its rolling statistics, and the
    cells of any other city are untouched. *)
Lemma assign_fold_city_series (cities : list string) :
  forall cur : DataFrame,
    NoDup cities -> well_formed cur ->
    let final := fold_left assign_city cities cur in
    (forall c, In c cities ->
       select (city_mask cur c) (column final (moving_mean final))
       = city_means cur c
       /\ select (city_mask cur c) (column final (moving_std final))
          = city_stds cur c)
    /\ (forall c, ~ In c cities ->
          select (city_mask cur c) (column final (moving_mean final))
          = select (city_mask cur c) (column cur (moving_mean cur))
          /\ select (city_mask cur c) (column final (moving_std final))
             = select (city_mask cur c) (column cur (moving_std cur))).
Proof.
  induction cities as [|d cities IH]; intros cur Hnd Hwf; cbn zeta.
  - split; [intros c []|]. intros c _. split; reflexivity.
  - inversion Hnd as [|? ? Hd Hnd']; subst. cbn [fold_left].
    destruct (IH (assign_city cur d) Hnd' (assign_city_well_formed _ d Hwf))
      as [IH1 IH2].
    change (city_mask (assign_city cur d)) with (city_mask cur) in IH1, IH2.
    change (city_means (assign_city cur d)) with (city_means cur) in IH1.
    change (city_stds (assign_city cur d)) with (city_stds cur) in IH1.
    destruct Hwf as (Hm & Hs & Ht).
    assert (Hsame : forall (f : list float -> list float)
                           (col : list float),
               (forall xs, length (f xs) = length xs) ->
               length col = length (rows cur) ->
               select (city_mask cur d)
                 (scatter (city_mask cur d) col
                    (f (select (city_mask cur d) (col_temperature cur))))
               = f (select (city_mask cur d) (col_temperature cur))).
    { intros f col Hf Hc. apply select_scatter_same.
      - rewrite city_mask_length. auto.
      - rewrite Hf. apply select_length.
        unfold col_temperature. rewrite length_map. auto. }
    assert (Hother : forall c (col vals : list float),
               c <> d ->
               select (city_mask cur c) (scatter (city_mask cur d) col vals)
               = select (city_mask cur c) col).
    { intros c col vals Hc. apply select_scatter_other.
      - rewrite !city_mask_length. reflexivity.
      - intros i. apply city_mask_disjoint. exact Hc. }
    split.
    + intros c [<-|Hin].
      * destruct (IH2 d Hd) as [E1 E2]. rewrite E1, E2.
        unfold assign_city; cbn. unfold city_means, city_stds.
        split; apply Hsame;
          try apply rolling_mean_length; try apply rolling_std_length;
          apply column_length; assumption.
      * apply IH1, Hin.
    + intros c Hc. simpl in Hc.
      assert (c <> d) by (intros ->; tauto).
      destruct (IH2 c) as [E1 E2]; [tauto|]. rewrite E1, E2.
      unfold assign_city; cbn. split; apply Hother; assumption.
Qed.

(** Every city's cells, read in the order of its rows, are the rolling
    statistics of its own series of temperatures. *)
Lemma calc_moving_avg_city_series
    (df df' : DataFrame) (parallel : bool) (c : string) :
  NoDup (labels df) -> well_formed df ->
  calc_moving_avg df parallel = Py.Ok df' ->
  select (city_mask df c) (column df' (moving_mean df')) = city_means df c
  /\ select (city_mask df c) (column df' (moving_std df')) = city_stds df c.
Proof.
  intros Hnd Hwf H. rewrite calc_moving_avg_assign in H by assumption.
  injection H as <-.
  destruct (assign_fold_city_series (unique (col_city df)) df
              (unique_NoDup _) Hwf) as [H1 H2].
  destruct (in_dec string_dec c (unique (col_city df))) as [Hin|Hout].
  - apply H1, Hin.
  - rewrite unique_In in Hout.
    rewrite !(select_absent_city df c _ Hout).
    unfold city_means, city_stds.
    rewrite (select_absent_city df c _ Hout). split; reflexivity.
Qed.

End SeriesFacts.

(** ** The centered fixed window *)
Module RollingFacts.
Import Pandas Analysis KernelFacts IndexingFacts FrameFacts SeriesFacts.




End RollingFacts.


(** * Live readings: one request per city, sequentially or concurrently *)
Module FetchFacts.
Import WeatherMonitor.

Lemma fetch_from_length (net : Network) (key : string) (cities : list string) :
  forall k, length (fetch_from net k cities key) = length cities.
Proof.
  induction cities as [|c cities IH]; intros k; simpl; [reflexivity|].
  now rewrite IH.
Qed.

Lemma fetch_from_nth (net : Network) (key : string) (cities : list string) :
  forall (k i : nat) (city : string),
    nth_error cities i = Some city ->
    nth_error (fetch_from net k cities key) i
    = Some (get_current_temp net (k + i) city key).
Proof.
  induction cities as [|c cities IH]; intros k i city H.
  - destruct i; discriminate.
  - destruct i as [|i]; simpl in *.
    + injection H as ->. now rewrite Nat.add_0_r.
    + rewrite (IH (S k) i city H). now rewrite Nat.add_succ_r.
Qed.

Lemma get_current_temp_request_raises (net : Network) (k : nat)
    (city key : string) (e : Py.exn) :
  net k city key = Py.Raise e -> get_current_temp net k city key = None.
Proof. intros H. unfold get_current_temp. now rewrite H. Qed.

Lemma get_current_temp_bad_status (net : Network) (k : nat)
    (city key : string) (response : Response) (e : Py.exn) :
  net k city key = Py.Ok response ->
  raise_for_status response = Py.Raise e ->
  get_current_temp net k city key = None.
Proof.
  intros H He. unfold get_current_temp, read_response.
  rewrite H. simpl. now rewrite He.
Qed.

Lemma raise_for_status_error (response : Response) :
  400 <= status_code response < 600 ->
  raise_for_status response = Py.Raise (Py.HTTPError (status_code response)).
Proof.
  intros [H1 H2]. unfold raise_for_status.
  apply Z.leb_le in H1. apply Z.ltb_lt in H2. now rewrite H1, H2.
Qed.

(** X1.  [get_current_temp] returns a reading exactly when the request came
    back, its status is not an error status, its body parsed, and the body
    has [main.temp], [main.feels_like] and [weather[0].description]; the
    reading carries these three values as they are, and the name of the city
    that was asked for. *)
Theorem get_current_temp_reading (net : Network) (k : nat)
    (city key : string) (r : LiveReading) :
  get_current_temp net k city key = Some r <->
  exists (response : Response) (data main weather first : Json),
    net k city key = Py.Ok response
    /\ raise_for_status response = Py.Ok tt
    /\ json response = Py.Ok data
    /\ getitem data "main" = Py.Ok main
    /\ getitem main "temp" = Py.Ok (lr_temperature r)
    /\ getitem main "feels_like" = Py.Ok (lr_feels_like r)
    /\ getitem data "weather" = Py.Ok weather
    /\ getfirst weather = Py.Ok first
    /\ getitem first "description" = Py.Ok (lr_description r)
    /\ lr_city r = city.
Proof.
  unfold get_current_temp, read_response. split.
  - destruct (net k city key) as [response|e] eqn:Hnet; simpl; [|discriminate].
    destruct (raise_for_status response) as [[]|e] eqn:Hst; simpl;
      [|discriminate].
    destruct (json response) as [data|e] eqn:Hj; simpl; [|discriminate].
    destruct (getitem data "main") as [main|e] eqn:Hm; simpl; [|discriminate].
    destruct (getitem main "temp") as [temp|e] eqn:Ht; simpl; [|discriminate].
    destruct (getitem main "feels_like") as [feels|e] eqn:Hf; simpl;
      [|discriminate].
    destruct (getitem data "weather") as [weather|e] eqn:Hw; simpl;
      [|discriminate].
    destruct (getfirst weather) as [first|e] eqn:H0; simpl; [|discriminate].
    destruct (getitem first "description") as [description|e] eqn:Hd; simpl;
      [|discriminate].
    intros [= <-]. exists response, data, main, weather, first.
    simpl. repeat split; assumption || reflexivity.
  - intros (response & data & main & weather & first & Hnet & Hst & Hj & Hm
            & Ht & Hf & Hw & H0 & Hd & Hc).
    rewrite Hnet. simpl. rewrite Hst. simpl. rewrite Hj. simpl.
    rewrite Hm. simpl. rewrite Ht. simpl. rewrite Hf. simpl.
    rewrite Hw. simpl. rewrite H0. simpl. rewrite Hd. simpl.
    destruct r as [c t f d]. simpl in *. now subst.
Qed.

(** X2.  Whatever goes wrong with a request is turned into [None]: a request
    that raises, an error status (400 to 599) whatever the body holds, and a
    body that is not JSON. *)
Theorem get_current_temp_failure (net : Network) (k : nat) (city key : string) :
  (exists e, net k city key = Py.Raise e) \/
  (exists response, net k city key = Py.Ok response /\
     (400 <= status_code response < 600 \/ json_body response = None)) ->
  get_current_temp net k city key = None.
Proof.
  intros [[e He] | (response & Hnet & [Hst | Hbody])].
  - now apply get_current_temp_request_raises with e.
  - eapply get_current_temp_bad_status; [eassumption|].
    now apply raise_for_status_error.
  - unfold get_current_temp, read_response, json. rewrite Hnet. simpl.
    destruct (raise_for_status response) as [[]|e]; simpl; [|reflexivity].
    now rewrite Hbody.
Qed.

Lemma get_current_temp_failure_atlantis :
  get_current_temp Examples.sample_network 1 "Atlantis" "key" = None
  /\ get_current_temp Examples.sample_network 2 "Cairo" "key" = None.
Proof.
  split.
  - apply get_current_temp_failure. right.
    eexists. split; [reflexivity|]. left. simpl. lia.
  - apply get_current_temp_failure. left. eexists. reflexivity.
Defined.

(** X3.  The sequential strategy returns one entry per city, in the order of
    the cities.  A city whose request fails has [None] at its position, and
    every other position holds what that city's own request gave. *)
Theorem fetch_all_temps_sync_isolates_failure (net : Network)
    (cities : list string) (key : string) (i : nat) (city : string)
    (e : Py.exn) :
  nth_error cities i = Some city ->
  net i city key = Py.Raise e ->
  length (fetch_all_temps_sync net cities key) = length cities
  /\ nth_error (fetch_all_temps_sync net cities key) i = Some None
  /\ forall (j : nat) (other : string),
       nth_error cities j = Some other ->
       nth_error (fetch_all_temps_sync net cities key) j
       = Some (get_current_temp net j other key).
Proof.
  intros Hi He. unfold fetch_all_temps_sync. split; [|split].
  - apply fetch_from_length.
  - rewrite (fetch_from_nth net key cities 0 i city Hi). simpl.
    now rewrite (get_current_temp_request_raises net i city key e He).
  - intros j other Hj. now rewrite (fetch_from_nth net key cities 0 j other Hj).
Qed.

Lemma fetch_all_temps_sync_isolates_failure_four_cities :
  nth_error (fetch_all_temps_sync Examples.sample_network
               Examples.four_cities "key") 2 = Some None
  /\ nth_error (fetch_all_temps_sync Examples.sample_network
                  Examples.four_cities "key") 3
     = Some (Some (mkLiveReading "Cairo" (JNum 29) (JNum 31.5)
                     (JStr "clear sky"))).
Proof.
  destruct (fetch_all_temps_sync_isolates_failure Examples.sample_network
              Examples.four_cities "key" 2 "Cairo"
              (Py.ConnectionError "unreachable") eq_refl eq_refl)
    as (_ & Hnone & Hrest).
  split; [exact Hnone|]. exact (Hrest 3%nat "Cairo"%string eq_refl).
Defined.

(** *** The event loop *)

Lemma get_current_temp_async_request_raises (net : Network) (k : nat)
    (city key : string) (e : Py.exn) :
  net k city key = Py.Raise e -> get_current_temp_async net k city key = None.
Proof. intros H. unfold get_current_temp_async. now rewrite H. Qed.

Lemma get_current_temp_async_bad_status (net : Network) (k : nat)
    (city key : string) (response : Response) (e : Py.exn) :
  net k city key = Py.Ok response ->
  aio_raise_for_status response = Py.Raise e ->
  get_current_temp_async net k city key = None.
Proof.
  intros H He. unfold get_current_temp_async, read_response_async.
  rewrite H. simpl. now rewrite He.
Qed.

Lemma gathered_from_length (net : Network) (key : string)
    (cities : list string) :
  forall k, length (gathered_from net k cities key) = length cities.
Proof.
  induction cities as [|c cities IH]; intros k; simpl; [reflexivity|].
  now rewrite IH.
Qed.

Lemma gathered_from_nth (net : Network) (key : string)
    (cities : list string) :
  forall (k i : nat) (city : string),
    nth_error cities i = Some city ->
    nth_error (gathered_from net k cities key) i
    = Some (get_current_temp_async net (k + i) city key).
Proof.
  induction cities as [|c cities IH]; intros k i city H.
  - destruct i; discriminate.
  - destruct i as [|i]; simpl in *.
    + injection H as ->. now rewrite Nat.add_0_r.
    + rewrite (IH (S k) i city H). now rewrite Nat.add_succ_r.
Qed.

Lemma start_from_ok (net : Network) (key : string) (cities : list string) :
  forall k, tasks_ok net key k cities (start_from k cities).
Proof.
  induction cities as [|c cities IH]; intros k; simpl; [exact I|].
  split; [split; reflexivity | apply IH].
Qed.

Lemma resume_ok (net : Network) (key : string) (k : nat) (city : string)
    (t : Task) :
  task_ok net key k city t -> task_ok net key k city (resume net key t).
Proof.
  destruct t as [k' city' | city' response | r]; simpl.
  - intros [-> ->].
    destruct (net k city key) as [response|e] eqn:Hnet; simpl.
    + destruct (aio_raise_for_status response) as [[]|e] eqn:Hst; simpl.
      * repeat split; assumption.
      * symmetry. now apply get_current_temp_async_bad_status with response e.
    + symmetry. now apply get_current_temp_async_request_raises with e.
  - intros (-> & Hnet & Hst).
    unfold get_current_temp_async, read_response_async.
    rewrite Hnet. cbn [Py.bind]. rewrite Hst. cbn [Py.bind].
    destruct (aio_json response) as [data|e]; cbn [Py.bind]; reflexivity.
  - trivial.
Qed.

Lemma resume_nth_ok (net : Network) (key : string) (ts : list Task) :
  forall (k : nat) (cities : list string) (i : nat),
    tasks_ok net key k cities ts ->
    tasks_ok net key k cities (resume_nth net key i ts).
Proof.
  induction ts as [|t ts IH]; intros k cities i H;
    [destruct i; exact H|].
  destruct cities as [|c cities]; [contradiction|].
  destruct H as [Ht Hts]. destruct i as [|i]; simpl.
  - split; [now apply resume_ok | exact Hts].
  - split; [exact Ht | now apply IH].
Qed.

Lemma run_loop_ok (net : Network) (key : string) (schedule : list nat) :
  forall (k : nat) (cities : list string) (ts : list Task),
    tasks_ok net key k cities ts ->
    tasks_ok net key k cities (run_loop net key schedule ts).
Proof.
  unfold run_loop.
  induction schedule as [|i schedule IH]; intros k cities ts H; simpl;
    [exact H|].
  apply IH. now apply resume_nth_ok.
Qed.

Lemma results_ok (net : Network) (key : string) (ts : list Task) :
  forall (k : nat) (cities : list string) (rs : list (option LiveReading)),
    tasks_ok net key k cities ts ->
    results ts = Some rs ->
    rs = gathered_from net k cities key.
Proof.
  induction ts as [|t ts IH]; intros k cities rs H Hr.
  - destruct cities; [|contradiction]. simpl in Hr. now injection Hr as <-.
  - destruct cities as [|c cities]; [contradiction|].
    destruct H as [Ht Hts].
    destruct t as [k' city' | city' response | r]; simpl in Hr;
      try discriminate.
    destruct (results ts) as [rs'|] eqn:Hrs; simpl in Hr; [|discriminate].
    injection Hr as <-. simpl in Ht. subst r. simpl.
    f_equal. now apply IH.
Qed.

(** Whatever the schedule, the results of [gather] are what the coroutines
    return, in the order of the cities. *)
Lemma gather_in_city_order (net : Network) (schedule : list nat)
    (cities : list string) (key : string) (rs : list (option LiveReading)) :
  fetch_all_temps_async net schedule cities key = Some rs ->
  rs = gathered_from net 0 cities key.
Proof.
  unfold fetch_all_temps_async. intros H.
  apply results_ok with (ts := run_loop net key schedule (start_from 0 cities));
    [|exact H].
  apply run_loop_ok, start_from_ok.
Qed.

(** The two clients read a response alike when its status is below 600
    and its [Content-Type] names a JSON type. *)
Lemma get_current_temp_async_plain (net : Network) (k : nat)
    (city key : string) :
  plain_answer (net k city key) ->
  get_current_temp_async net k city key = get_current_temp net k city key.
Proof.
  unfold plain_answer, get_current_temp_async, get_current_temp,
    read_response_async, read_response.
  destruct (net k city key) as [response|e]; [|reflexivity].
  intros [Hst Hct]. cbn [Py.bind].
  unfold aio_raise_for_status, raise_for_status, aio_json, json, json_body.
  rewrite Hct.
  replace (status_code response <? 600) with true
    by (symmetry; now apply Z.ltb_lt).
  rewrite andb_true_r.
  destruct (400 <=? status_code response); cbn [Py.bind]; [reflexivity|].
  destruct (body response); reflexivity.
Qed.

Lemma gathered_from_plain (net : Network) (key : string)
    (cities : list string) :
  forall k,
    (forall i city, nth_error cities i = Some city ->
                    plain_answer (net (k + i)%nat city key)) ->
    gathered_from net k cities key = fetch_from net k cities key.
Proof.
  induction cities as [|c cities IH]; intros k H; simpl; [reflexivity|].
  f_equal.
  - pose proof (H 0%nat c eq_refl) as H0. rewrite Nat.add_0_r in H0.
    now apply get_current_temp_async_plain.
  - apply IH. intros i city Hi. specialize (H (S i) city Hi).
    now rewrite Nat.add_succ_r in H.
Qed.

(** X4.  In whatever order the responses arrive, once [gather] has its results
    there is one per city, in the order of the cities and not of arrival:
    each is what the city's own coroutine returned, [None] where its fetch
    failed.  They are the results of the sequential strategy when every
    response has a status below 600 and a JSON [Content-Type], which the
    two clients read alike. *)
Theorem fetch_all_temps_async_keeps_city_order (net : Network)
    (schedule : list nat) (cities : list string) (key : string)
    (rs : list (option LiveReading)) :
  fetch_all_temps_async net schedule cities key = Some rs ->
  length rs = length cities
  /\ (forall i city,
        nth_error cities i = Some city ->
        nth_error rs i = Some (get_current_temp_async net i city key))
  /\ ((forall i city,
         nth_error cities i = Some city -> plain_answer (net i city key)) ->
      rs = fetch_all_temps_sync net cities key).
Proof.
  intros H. apply gather_in_city_order in H. subst rs.
  split; [apply gathered_from_length|]. split.
  - intros i city Hi. now apply (gathered_from_nth net key cities 0 i city).
  - intros Hplain. unfold fetch_all_temps_sync.
    now apply gathered_from_plain.
Qed.

Lemma fetch_all_temps_async_keeps_city_order_reversed :
  fetch_all_temps_async Examples.sample_network [3; 2; 1; 0; 0; 3; 1; 2]%nat
      Examples.four_cities "key"
    = Some (fetch_all_temps_sync Examples.sample_network
              Examples.four_cities "key")
  /\ nth_error (fetch_all_temps_sync Examples.sample_network
                  Examples.four_cities "key") 1 = Some None
  /\ fetch_all_temps_async Examples.text_plain_network [0; 0]%nat
       ["Berlin"%string] "key" = Some [None]
  /\ fetch_all_temps_sync Examples.text_plain_network ["Berlin"%string] "key"
     <> [None].
Proof.
  split; [|split; [reflexivity|split; [reflexivity|discriminate]]].
  destruct (fetch_all_temps_async_keeps_city_order Examples.sample_network
              [3; 2; 1; 0; 0; 3; 1; 2]%nat Examples.four_cities "key"
              _ eq_refl) as (_ & _ & Hsync).
  rewrite <- Hsync; [reflexivity|].
  intros [|[|[|[|i]]]] city Hi; try (injection Hi as <-; vm_compute; tauto).
  destruct i; discriminate.
Defined.

Lemma resume_nth_app (net : Network) (key : string) (pre : list Task)
    (t : Task) (ts : list Task) :
  resume_nth net key (length pre) (pre ++ t :: ts)
  = (pre ++ resume net key t :: ts)%list.
Proof.
  induction pre as [|p pre IH]; simpl; [reflexivity|]. now rewrite IH.
Qed.

Lemma resume_each_once (net : Network) (key : string) (ts : list Task) :
  forall pre : list Task,
    fold_left (fun ts i => resume_nth net key i ts)
              (seq (length pre) (length ts)) (pre ++ ts)%list
    = (pre ++ map (resume net key) ts)%list.
Proof.
  induction ts as [|t ts IH]; intros pre; simpl; [reflexivity|].
  rewrite resume_nth_app.
  replace (pre ++ resume net key t :: ts)%list
    with ((pre ++ [resume net key t]) ++ ts)%list
    by (now rewrite <- app_assoc).
  replace (S (length pre)) with (length (pre ++ [resume net key t]))
    by (rewrite length_app; simpl; lia).
  rewrite IH. now rewrite <- app_assoc.
Qed.

Lemma start_from_length (cities : list string) :
  forall k, length (start_from k cities) = length cities.
Proof.
  induction cities as [|c cities IH]; intros k; simpl; [reflexivity|].
  now rewrite IH.
Qed.

Lemma results_resumed_twice (net : Network) (key : string)
    (cities : list string) :
  forall k,
    results (map (resume net key) (map (resume net key) (start_from k cities)))
    = Some (gathered_from net k cities key).
Proof.
  induction cities as [|c cities IH]; intros k; simpl; [reflexivity|].
  assert (Ht : resume net key (resume net key (AwaitingResponse k c))
               = Done (get_current_temp_async net k c key)).
  { pose proof (resume_ok net key k c _
                  (resume_ok net key k c (AwaitingResponse k c)
                     (conj eq_refl eq_refl))) as H.
    simpl in *.
    destruct (net k c key) as [response|e]; simpl in *.
    - destruct (aio_raise_for_status response) as [[]|e]; simpl in *;
        now rewrite H.
    - now rewrite H. }
  simpl in Ht. rewrite Ht. simpl. now rewrite IH.
Qed.

(** Resuming every task twice, in turn, brings every task to its end. *)
Lemma round_robin_gathers (net : Network) (cities : list string)
    (key : string) (k : nat) :
  results (run_loop net key (round_robin (length cities))
             (start_from k cities))
  = Some (gathered_from net k cities key).
Proof.
  unfold run_loop, round_robin.
  rewrite fold_left_app.
  pose proof (resume_each_once net key (start_from k cities) []) as H1.
  simpl in H1. rewrite start_from_length in H1. rewrite H1.
  pose proof (resume_each_once net key
                (map (resume net key) (start_from k cities)) []) as H2.
  simpl in H2. rewrite length_map, start_from_length in H2. rewrite H2.
  apply results_resumed_twice.
Qed.

(** X5.  When every task is resumed twice, [gather] has all its results: the
    concurrent strategy returns, with one entry per city, whatever failed
    on the way. *)
Theorem fetch_all_temps_async_completes (net : Network)
    (cities : list string) (key : string) :
  exists rs : list (option LiveReading),
    fetch_all_temps_async net (round_robin (length cities)) cities key
    = Some rs
    /\ length rs = length cities
    /\ forall i city,
         nth_error cities i = Some city ->
         nth_error rs i = Some (get_current_temp_async net i city key).
Proof.
  exists (gathered_from net 0 cities key).
  split; [apply round_robin_gathers|].
  split; [apply gathered_from_length|].
  intros i city Hi. now apply (gathered_from_nth net key cities 0 i city).
Qed.

Lemma failed_sync (net : Network) (k : nat) (city key : string) :
  failed (net k city key) -> get_current_temp net k city key = None.
Proof.
  unfold failed, get_current_temp, read_response.
  destruct (net k city key) as [response|e]; [|reflexivity].
  intros [Hst|Hbody]; cbn [Py.bind].
  - now rewrite (raise_for_status_error response Hst).
  - destruct (raise_for_status response) as [[]|e]; [|reflexivity].
    cbn [Py.bind]. unfold json. now rewrite Hbody.
Qed.

Lemma failed_async (net : Network) (k : nat) (city key : string) :
  failed (net k city key) -> get_current_temp_async net k city key = None.
Proof.
  unfold failed, get_current_temp_async, read_response_async.
  destruct (net k city key) as [response|e]; [|reflexivity].
  intros [[Hst _]|Hbody]; cbn [Py.bind].
  - unfold aio_raise_for_status.
    replace (400 <=? status_code response) with true
      by (symmetry; now apply Z.leb_le).
    reflexivity.
  - destruct (aio_raise_for_status response) as [[]|e]; [|reflexivity].
    cbn [Py.bind]. unfold aio_json, json_body in *.
    destruct (content_type_json response); [|reflexivity].
    destruct (body response); try discriminate; reflexivity.
Qed.

(** C7.  In both strategies a fetch that fails (the request raises, the
    status is an error status, or the body is not JSON) leaves [None] at
    the position of its city, and every city, before it or after it, has
    at its own position what its own fetch returned.  The sequential
    strategy always returns; the concurrent one has all its results once
    every task has been resumed twice, and whatever the order in which
    the tasks were resumed. *)
Theorem failed_fetch_is_isolated (net : Network) (cities : list string)
    (key : string) (i : nat) (city : string) :
  nth_error cities i = Some city ->
  failed (net i city key) ->
  (length (fetch_all_temps_sync net cities key) = length cities
   /\ nth_error (fetch_all_temps_sync net cities key) i = Some None
   /\ forall j c,
        nth_error cities j = Some c ->
        nth_error (fetch_all_temps_sync net cities key) j
        = Some (get_current_temp net j c key))
  /\ (exists rs,
        fetch_all_temps_async net (round_robin (length cities)) cities key
        = Some rs)
  /\ forall schedule rs,
       fetch_all_temps_async net schedule cities key = Some rs ->
       length rs = length cities
       /\ nth_error rs i = Some None
       /\ forall j c,
            nth_error cities j = Some c ->
            nth_error rs j = Some (get_current_temp_async net j c key).
Proof.
  intros Hi Hfail. split; [|split].
  - unfold fetch_all_temps_sync. split; [apply fetch_from_length|]. split.
    + rewrite (fetch_from_nth net key cities 0 i city Hi). simpl.
      now rewrite failed_sync.
    + intros j c Hj. now rewrite (fetch_from_nth net key cities 0 j c Hj).
  - exists (gathered_from net 0 cities key). apply round_robin_gathers.
  - intros schedule rs Hrs. apply gather_in_city_order in Hrs. subst rs.
    split; [apply gathered_from_length|]. split.
    + rewrite (gathered_from_nth net key cities 0 i city Hi). simpl.
      now rewrite failed_async.
    + intros j c Hj. now rewrite (gathered_from_nth net key cities 0 j c Hj).
Qed.

Lemma failed_fetch_is_isolated_four_cities :
  nth_error (fetch_all_temps_sync Examples.sample_network
               Examples.four_cities "key") 1 = Some None
  /\ nth_error (fetch_all_temps_sync Examples.sample_network
                  Examples.four_cities "key") 3
     = Some (Some (mkLiveReading "Cairo" (JNum 29) (JNum 31.5)
                     (JStr "clear sky")))
  /\ fetch_all_temps_async Examples.sample_network
       (round_robin 4) Examples.four_cities "key"
     = Some [ Some (mkLiveReading "Berlin" (JNum 3.5) (JNum 1) (JStr "mist"));
              None; None;
              Some (mkLiveReading "Cairo" (JNum 29) (JNum 31.5)
                      (JStr "clear sky")) ].
Proof.
  destruct (failed_fetch_is_isolated Examples.sample_network
              Examples.four_cities "key" 1 "Atlantis" eq_refl)
    as ((_ & Hnone & Hsync) & _ & _).
  - left. vm_compute. split; [discriminate | reflexivity].
  - split; [exact Hnone|]. split; [|reflexivity].
    rewrite (Hsync 3%nat "Cairo"%string eq_refl). reflexivity.
Defined.

End FetchFacts.

(** * The trend of each city *)
Module TrendFacts.
Import F64 F64Facts Pandas Analysis IndexingFacts FrameFacts SeriesFacts.

(** ** Minimum and maximum of the day offsets *)

Lemma fold_min_le (xs : list Z) :
  forall a, fold_left Z.min xs a <= a
            /\ forall x, In x xs -> fold_left Z.min xs a <= x.
Proof.
  induction xs as [|y xs IH]; intros a; simpl.
  - split; [lia | contradiction].
  - destruct (IH (Z.min a y)) as [H1 H2]. split; [lia|].
    intros x [<- | Hx]; [lia | now apply H2].
Qed.

Lemma fold_max_ge (xs : list Z) :
  forall a, a <= fold_left Z.max xs a
            /\ forall x, In x xs -> x <= fold_left Z.max xs a.
Proof.
  induction xs as [|y xs IH]; intros a; simpl.
  - split; [lia | contradiction].
  - destruct (IH (Z.max a y)) as [H1 H2]. split; [lia|].
    intros x [<- | Hx]; [lia | now apply H2].
Qed.

Lemma fold_min_In (xs : list Z) :
  forall a, fold_left Z.min xs a = a \/ In (fold_left Z.min xs a) xs.
Proof.
  induction xs as [|y xs IH]; intros a; simpl; [now left|].
  destruct (IH (Z.min a y)) as [H | H]; [|now right; right].
  rewrite H. destruct (Z.min_spec a y) as [[_ ->] | [_ ->]]; [now left|].
  right. now left.
Qed.

Lemma zmin_le (xs : list Z) (x : Z) : In x xs -> zmin xs <= x.
Proof.
  destruct xs as [|a xs]; [contradiction|]. simpl.
  destruct (fold_min_le xs a) as [H1 H2].
  intros [<- | Hx]; [exact H1 | now apply H2].
Qed.

Lemma zmax_ge (xs : list Z) (x : Z) : In x xs -> x <= zmax xs.
Proof.
  destruct xs as [|a xs]; [contradiction|]. simpl.
  destruct (fold_max_ge xs a) as [H1 H2].
  intros [<- | Hx]; [exact H1 | now apply H2].
Qed.

Lemma zmin_In (xs : list Z) : xs <> [] -> In (zmin xs) xs.
Proof.
  destruct xs as [|a xs]; [congruence|]. intros _. simpl.
  destruct (fold_min_In xs a) as [-> | H]; [now left | now right].
Qed.

Lemma zmin_zmax_constant (xs : list Z) (v : Z) :
  (forall x, In x xs -> x = v) -> zmax xs = zmin xs.
Proof.
  destruct xs as [|a xs]; [reflexivity|]. intros H. simpl.
  assert (Ha : a = v) by (apply H; now left). subst a.
  assert (Hxs : forall x, In x xs -> x = v)
    by (intros x Hx; apply H; now right).
  clear H. induction xs as [|y xs IH]; simpl; [reflexivity|].
  rewrite (Hxs y) by now left.
  rewrite Z.max_id, Z.min_id. apply IH. intros x Hx. apply Hxs. now right.
Qed.

(** The day offsets start at 0; they are all 0 when the readings lie
    within one day, and reach 1 when two readings lie a day apart. *)
Lemma day_offsets_length (ts : list Z) : length (day_offsets ts) = length ts.
Proof. unfold day_offsets. apply length_map. Qed.

Lemma day_offsets_nonneg (ts : list Z) (d : Z) :
  In d (day_offsets ts) -> 0 <= d.
Proof.
  unfold day_offsets. rewrite in_map_iff. intros (t & <- & Ht).
  pose proof (zmin_le ts t Ht). apply Z.div_pos; lia.
Qed.

Lemma day_offsets_zero (ts : list Z) : ts <> [] -> In 0 (day_offsets ts).
Proof.
  intros H. unfold day_offsets. rewrite in_map_iff.
  exists (zmin ts). split; [|now apply zmin_In].
  now rewrite Z.sub_diag.
Qed.

Lemma zmin_day_offsets (ts : list Z) : zmin (day_offsets ts) = 0.
Proof.
  destruct ts as [|t ts]; [reflexivity|].
  assert (Hne : t :: ts <> []) by discriminate.
  pose proof (zmin_le _ _ (day_offsets_zero _ Hne)) as H1.
  assert (Hd : day_offsets (t :: ts) <> [])
    by (unfold day_offsets; simpl; discriminate).
  pose proof (day_offsets_nonneg _ _ (zmin_In _ Hd)) as H2. lia.
Qed.

Lemma day_offsets_same_day (rs : list Row) :
  within_one_day rs ->
  forall d, In d (day_offsets (map timestamp rs)) -> d = 0.
Proof.
  intros H d. unfold day_offsets. rewrite in_map_iff.
  intros (t & <- & Ht). rewrite in_map_iff in Ht.
  destruct Ht as (r' & <- & Hr').
  assert (Hne : map timestamp rs <> [])
    by (destruct rs; [contradiction | discriminate]).
  pose proof (zmin_In _ Hne) as Hmin. rewrite in_map_iff in Hmin.
  destruct Hmin as (r & Hr & Hin).
  pose proof (H r r' Hin Hr') as Hlt.
  pose proof (zmin_le (map timestamp rs) (timestamp r') (in_map _ _ _ Hr')).
  apply Z.div_small. lia.
Qed.

Lemma day_offsets_spread (rs : list Row) :
  spans_a_day rs ->
  zmax (day_offsets (map timestamp rs))
  <> zmin (day_offsets (map timestamp rs)).
Proof.
  intros (r & r' & Hr & Hr' & Hge). rewrite zmin_day_offsets.
  set (ts := map timestamp rs).
  assert (Hin : In ((timestamp r' - zmin ts) / 86400) (day_offsets ts)).
  { unfold day_offsets. apply in_map_iff. exists (timestamp r').
    split; [reflexivity | now apply in_map]. }
  pose proof (zmax_ge _ _ Hin) as Hmax.
  pose proof (zmin_le ts (timestamp r) (in_map _ _ _ Hr)) as Hmin.
  assert (1 <= (timestamp r' - zmin ts) / 86400)
    by (apply Z.div_le_lower_bound; lia).
  lia.
Qed.

(** ** [linregress]: when it raises and when it returns *)

Section Trend.

Variable p : float -> Z -> float.

Lemma linregress_identical (x : list Z) (y : list float) :
  (2 <= length x)%nat -> y <> [] -> zmax x = zmin x ->
  linregress p x y = Py.Raise (Py.ValueError IDENTICAL_X).
Proof.
  intros Hx Hy Heq. unfold linregress.
  destruct x as [|x0 [|x1 x]]; simpl in Hx; try lia.
  destruct y as [|y0 y]; [congruence|].
  change (length (x0 :: x1 :: x) =? 0)%nat with false.
  change (length (y0 :: y) =? 0)%nat with false.
  rewrite Heq, Z.eqb_refl. reflexivity.
Qed.

Lemma linregress_returns (x : list Z) (y : list float) :
  x <> [] -> y <> [] -> zmax x <> zmin x \/ length x = 1%nat ->
  exists lr, linregress p x y = Py.Ok lr.
Proof.
  intros Hx Hy H. unfold linregress.
  destruct x as [|x0 x]; [congruence|]. destruct y as [|y0 y]; [congruence|].
  change (length (x0 :: x) =? 0)%nat with false.
  change (length (y0 :: y) =? 0)%nat with false.
  cbv beta iota delta [orb].
  assert (Hc : (zmax (x0 :: x) =? zmin (x0 :: x))
               && (1 <? length (x0 :: x))%nat = false).
  { destruct H as [H | H].
    - apply Z.eqb_neq in H. now rewrite H.
    - rewrite H. apply andb_false_r. }
  rewrite Hc.
  destruct (length (x0 :: x) =? 2)%nat; eexists; reflexivity.
Qed.

Lemma linregress_raise_cases (x : list Z) (y : list float) (e : Py.exn) :
  linregress p x y = Py.Raise e ->
  (x = [] \/ y = []) \/
  (e = Py.ValueError IDENTICAL_X /\ zmax x = zmin x /\ (2 <= length x)%nat).
Proof.
  unfold linregress.
  destruct x as [|x0 x]; [now left; left|].
  destruct y as [|y0 y]; [now left; right|].
  change (length (x0 :: x) =? 0)%nat with false.
  change (length (y0 :: y) =? 0)%nat with false.
  cbv beta iota delta [orb].
  destruct (zmax (x0 :: x) =? zmin (x0 :: x)) eqn:Hz;
    destruct (1 <? length (x0 :: x))%nat eqn:Hl;
    cbv beta iota delta [andb];
    try (destruct (length (x0 :: x) =? 2)%nat; discriminate).
  intros [= <-]. right. split; [reflexivity|]. split.
  - now apply Z.eqb_eq.
  - apply Nat.ltb_lt in Hl. lia.
Qed.

(** ** One step of the loop *)

Lemma city_frame_filter (df : DataFrame) (c : string) :
  city_frame df c = filter (fun r => String.eqb (city r) c) (rows df).
Proof.
  unfold city_frame, city_mask.
  induction (rows df) as [|r rs IH]; simpl; [reflexivity|].
  destruct (String.eqb (city r) c); now rewrite IH.
Qed.

Lemma city_frame_nonempty (df : DataFrame) (c : string) :
  In c (col_city df) -> city_frame df c <> [].
Proof.
  unfold col_city. rewrite in_map_iff. intros (r & Hc & Hr).
  rewrite city_frame_filter. intros Hnil.
  assert (Hin : In r (filter (fun r => String.eqb (city r) c) (rows df))).
  { apply filter_In. split; [exact Hr|]. now apply String.eqb_eq. }
  now rewrite Hnil in Hin.
Qed.

Lemma city_frame_same_rows (df cur : DataFrame) (c : string) :
  rows cur = rows df -> city_frame cur c = city_frame df c.
Proof. intros H. unfold city_frame, city_mask. now rewrite H. Qed.

Lemma city_days_length (df : DataFrame) (c : string) :
  length (city_days df c) = length (city_frame df c).
Proof. unfold city_days. now rewrite day_offsets_length, length_map. Qed.

Lemma calc_trend_step_eq (trends : Trends) (cur : DataFrame) (c : string) :
  column_ok cur (trend cur) ->
  calc_trend_step p (trends, cur) c
  = (lr <- city_fit p cur c ;;
     Py.Ok ((trends ++ [(c, (slope lr, rvalue lr, pvalue lr))])%list,
            set_trend cur
              (scatter (city_mask cur c) (column cur (trend cur))
                 (fitted lr (city_days cur c))))).
Proof.
  intros Hok. unfold calc_trend_step, city_fit.
  fold (city_frame cur c). fold (city_days cur c).
  destruct (linregress p (city_days cur c) (map temperature (city_frame cur c)))
    as [lr|e]; [|reflexivity].
  cbv beta iota delta [Py.bind]. fold (fitted lr (city_days cur c)).
  unfold loc_set_values.
  assert (Hlen : length (fitted lr (city_days cur c))
                 = length (select (city_mask cur c) (column cur (trend cur)))).
  { unfold fitted. rewrite length_map, city_days_length. unfold city_frame.
    apply select_length. symmetry. now apply column_length. }
  rewrite Hlen, Nat.eqb_refl. reflexivity.
Qed.

(** ** The loop over the cities *)

Local Notation "'trend_loop' cities acc" :=
  (fold_left (fun a c => st <- a ;; calc_trend_step p st c) cities acc)
  (at level 10, cities at level 9, acc at level 9, only parsing).

Lemma trend_loop_raise (cities : list string) (e : Py.exn) :
  trend_loop cities (Py.Raise e) = Py.Raise e.
Proof. induction cities as [|c cities IH]; simpl; [reflexivity | exact IH]. Qed.

Lemma trend_loop_cons (c : string) (cities : list string)
    (st : Trends * DataFrame) :
  trend_loop (c :: cities) (Py.Ok st)
  = trend_loop cities (calc_trend_step p st c).
Proof. reflexivity. Qed.

Lemma city_fit_same_rows (df cur : DataFrame) (c : string) :
  rows cur = rows df -> city_fit p cur c = city_fit p df c.
Proof.
  intros H. unfold city_fit, city_days.
  now rewrite (city_frame_same_rows df cur c H).
Qed.

Lemma city_fit_identical (df : DataFrame) (c : string) :
  (2 <= length (city_frame df c))%nat ->
  within_one_day (city_frame df c) ->
  city_fit p df c = Py.Raise (Py.ValueError IDENTICAL_X).
Proof.
  intros Hlen Hday. unfold city_fit. apply linregress_identical.
  - now rewrite city_days_length.
  - destruct (city_frame df c); [simpl in Hlen; lia | discriminate].
  - unfold city_days. apply zmin_zmax_constant with 0.
    now apply day_offsets_same_day.
Qed.

Lemma city_fit_returns (df : DataFrame) (c : string) :
  In c (col_city df) ->
  length (city_frame df c) = 1%nat \/ spans_a_day (city_frame df c) ->
  exists lr, city_fit p df c = Py.Ok lr.
Proof.
  intros Hin H. pose proof (city_frame_nonempty df c Hin) as Hne.
  unfold city_fit. apply linregress_returns.
  - unfold city_days, day_offsets.
    destruct (city_frame df c); [congruence | discriminate].
  - destruct (city_frame df c); [congruence | discriminate].
  - destruct H as [H | H].
    + right. now rewrite city_days_length.
    + left. unfold city_days. now apply day_offsets_spread.
Qed.

Lemma city_fit_raise (df : DataFrame) (c : string) (e : Py.exn) :
  In c (col_city df) -> city_fit p df c = Py.Raise e ->
  e = Py.ValueError IDENTICAL_X.
Proof.
  intros Hin H. pose proof (city_frame_nonempty df c Hin) as Hne.
  unfold city_fit in H.
  destruct (linregress_raise_cases _ _ _ H) as [[Hx | Hy] | [He _]];
    [| |exact He]; exfalso.
  - unfold city_days, day_offsets in Hx.
    destruct (city_frame df c); [congruence | discriminate].
  - destruct (city_frame df c); [congruence | discriminate].
Qed.

(** Whatever the cities, the loop either stops on the one error of
    [linregress] or goes through, keeping the rows. *)
Lemma trend_loop_outcome (df : DataFrame) (cities : list string) :
  forall (trends : Trends) (cur : DataFrame),
    rows cur = rows df -> column_ok cur (trend cur) ->
    (forall c, In c cities -> In c (col_city df)) ->
    trend_loop cities (Py.Ok (trends, cur))
      = Py.Raise (Py.ValueError IDENTICAL_X)
    \/ exists trends' cur',
         trend_loop cities (Py.Ok (trends, cur)) = Py.Ok (trends', cur')
         /\ rows cur' = rows df /\ column_ok cur' (trend cur').
Proof.
  induction cities as [|c cities IH]; intros trends cur Hrows Hok Hin.
  - right. exists trends, cur. now repeat split.
  - rewrite trend_loop_cons, (calc_trend_step_eq trends cur c Hok).
    rewrite (city_fit_same_rows df cur c Hrows).
    destruct (city_fit p df c) as [lr|e] eqn:Hfit; cbn [Py.bind].
    + apply IH.
      * exact Hrows.
      * simpl. rewrite scatter_length. now apply column_length.
      * intros c' Hc'. apply Hin. now right.
    + left.
      rewrite (city_fit_raise df c e); [apply trend_loop_raise | | exact Hfit].
      apply Hin. now left.
Qed.

Lemma calc_trend_loop (df : DataFrame) :
  calc_trend p df
  = trend_loop (unique (col_city df)) (Py.Ok (([] : Trends), df)).
Proof. reflexivity. Qed.

Lemma city_frame_member (df : DataFrame) (c : string) :
  city_frame df c <> [] -> In c (col_city df).
Proof.
  rewrite city_frame_filter. intros H.
  destruct (filter (fun r => String.eqb (city r) c) (rows df))
    as [|r rs] eqn:Hf;
    [congruence|].
  assert (Hr : In r (filter (fun r => String.eqb (city r) c) (rows df)))
    by (rewrite Hf; now left).
  apply filter_In in Hr. destruct Hr as [Hr Hc]. apply String.eqb_eq in Hc.
  subst c. unfold col_city. now apply in_map.
Qed.

(** X6.  A city with two or more readings, all of them less than a day after
    its first one, has a single day offset: [linregress] refuses it, and
    since [calc_trend] handles no exception the whole call raises that
    [ValueError], whatever the other cities are. *)
Theorem calc_trend_aborts_on_one_day_city (df : DataFrame) (c : string) :
  well_formed df ->
  (2 <= length (city_frame df c))%nat ->
  within_one_day (city_frame df c) ->
  calc_trend p df = Py.Raise (Py.ValueError IDENTICAL_X).
Proof.
  intros (_ & _ & Hok) Hlen Hday.
  assert (Hin : In c (unique (col_city df))).
  { apply unique_In, city_frame_member.
    destruct (city_frame df c); [simpl in Hlen; lia | discriminate]. }
  destruct (in_split _ _ Hin) as (pre & post & Hsplit).
  rewrite calc_trend_loop, Hsplit, fold_left_app.
  destruct (trend_loop_outcome df pre [] df eq_refl Hok) as [H | H].
  - intros c' Hc'. apply (unique_In (col_city df)). rewrite Hsplit.
    apply in_or_app. now left.
  - rewrite H. apply trend_loop_raise.
  - destruct H as (trends' & cur' & H & Hrows & Hok').
    rewrite H, trend_loop_cons, (calc_trend_step_eq trends' cur' c Hok').
    rewrite (city_fit_same_rows df cur' c Hrows).
    rewrite (city_fit_identical df c Hlen Hday). cbn [Py.bind].
    apply trend_loop_raise.
Qed.

Lemma trend_loop_returns (df : DataFrame) (cities : list string) :
  forall (trends : Trends) (cur : DataFrame),
    rows cur = rows df -> column_ok cur (trend cur) ->
    (forall c, In c cities ->
       In c (col_city df) /\
       (length (city_frame df c) = 1%nat \/ spans_a_day (city_frame df c))) ->
    exists trends' cur',
      trend_loop cities (Py.Ok (trends, cur)) = Py.Ok (trends', cur')
      /\ map fst trends' = (map fst trends ++ cities)%list
      /\ same_but_trend cur cur'
      /\ column_ok cur' (trend cur')
      /\ (cities <> [] \/ trend cur <> None -> trend cur' <> None).
Proof.
  induction cities as [|c cities IH]; intros trends cur Hrows Hok Hc.
  - exists trends, cur. split; [reflexivity|]. split; [now rewrite app_nil_r|].
    split; [now repeat split|]. split; [exact Hok|].
    intros [H | H]; [congruence | exact H].
  - destruct (Hc c (or_introl eq_refl)) as [Hin Hcond].
    destruct (city_fit_returns df c Hin Hcond) as [lr Hfit].
    rewrite trend_loop_cons, (calc_trend_step_eq trends cur c Hok).
    rewrite (city_fit_same_rows df cur c Hrows), Hfit. cbn [Py.bind].
    set (cur1 := set_trend cur _).
    destruct (IH (trends ++ [(c, (slope lr, rvalue lr, pvalue lr))])%list cur1)
      as (trends' & cur' & Hrun & Hkeys & Hsame & Hok' & Hsome).
    + exact Hrows.
    + unfold cur1. simpl. rewrite scatter_length. now apply column_length.
    + intros c' Hc'. apply Hc. now right.
    + exists trends', cur'. split; [exact Hrun|]. split.
      { rewrite Hkeys, map_app. simpl. now rewrite <- app_assoc. }
      split.
      { destruct Hsame as (H1 & H2 & H3 & H4 & H5 & H6).
        unfold cur1 in *. simpl in *. now repeat split. }
      split; [exact Hok'|].
      intros _. apply Hsome. right. unfold cur1. simpl. discriminate.
Qed.

(** X7.  When every city has either a single reading or two readings a day or
    more apart, [calc_trend] returns: the dict has one entry per city, in
    the order the cities first appear, the frame keeps its rows and its other
    columns, and it has a [trend] column with one cell per row. *)
Theorem calc_trend_returns (df : DataFrame) :
  well_formed df ->
  (forall c, In c (col_city df) ->
     length (city_frame df c) = 1%nat \/ spans_a_day (city_frame df c)) ->
  exists trends df',
    calc_trend p df = Py.Ok (trends, df')
    /\ map fst trends = unique (col_city df)
    /\ same_but_trend df df'
    /\ column_ok df' (trend df')
    /\ (rows df <> [] -> trend df' <> None).
Proof.
  intros (_ & _ & Hok) Hc.
  destruct (trend_loop_returns df (unique (col_city df)) [] df eq_refl Hok)
    as (trends' & cur' & Hrun & Hkeys & Hsame & Hok' & Hsome).
  - intros c Hin. apply (proj1 (unique_In _ _)) in Hin.
    split; [exact Hin | now apply Hc].
  - exists trends', cur'. split; [rewrite calc_trend_loop; exact Hrun|].
    split; [exact Hkeys|].
    split; [exact Hsame|]. split; [exact Hok'|].
    intros Hne. apply Hsome. left. intros Hu.
    destruct (rows df) as [|r rs] eqn:Hr; [congruence|].
    assert (Hin : In (city r) (unique (col_city df))).
    { apply unique_In. unfold col_city. rewrite Hr. now left. }
    now rewrite Hu in Hin.
Qed.

Lemma fold_max_In (xs : list Z) :
  forall a, fold_left Z.max xs a = a \/ In (fold_left Z.max xs a) xs.
Proof.
  induction xs as [|y xs IH]; intros a; simpl; [now left|].
  destruct (IH (Z.max a y)) as [H | H]; [|now right; right].
  rewrite H. destruct (Z.max_spec a y) as [[_ ->] | [_ ->]]; [|now left].
  right. now left.
Qed.

Lemma zmax_In (xs : list Z) : xs <> [] -> In (zmax xs) xs.
Proof.
  destruct xs as [|a xs]; [congruence|]. intros _. simpl.
  destruct (fold_max_In xs a) as [-> | H]; [now left | now right].
Qed.

Lemma day_offsets_spread_inv (rs : list Row) :
  zmax (day_offsets (map timestamp rs))
  <> zmin (day_offsets (map timestamp rs)) ->
  spans_a_day rs.
Proof.
  rewrite zmin_day_offsets. intros Hne.
  destruct rs as [|r0 rs]; [now simpl in Hne|].
  set (all := r0 :: rs) in *. set (ts := map timestamp all) in *.
  assert (Hts : ts <> []) by discriminate.
  assert (Hd : day_offsets ts <> []) by discriminate.
  pose proof (zmax_In _ Hd) as Hmax.
  pose proof (day_offsets_nonneg _ _ Hmax) as Hpos.
  unfold day_offsets in Hmax at 2. rewrite in_map_iff in Hmax.
  destruct Hmax as (t' & Ht' & Hin').
  unfold ts in Hin'. rewrite in_map_iff in Hin'.
  destruct Hin' as (r' & <- & Hr').
  pose proof (zmin_In _ Hts) as Hmin. unfold ts in Hmin at 2.
  rewrite in_map_iff in Hmin. destruct Hmin as (r & Hr & Hin).
  exists r, r'. split; [exact Hin|]. split; [exact Hr'|].
  rewrite Hr.
  assert (H1 : 1 <= (timestamp r' - zmin ts) / 86400) by lia.
  destruct (Z.lt_ge_cases (timestamp r' - zmin ts) 86400) as [Hlt | Hge];
    [|exact Hge].
  pose proof (zmin_le ts (timestamp r') (in_map _ _ _ Hr')).
  rewrite Z.div_small in H1 by lia. lia.
Qed.

Lemma linregress_ok_cases (x : list Z) (y : list float)
    (lr : LinregressResult) :
  linregress p x y = Py.Ok lr -> zmax x <> zmin x \/ (length x <= 1)%nat.
Proof.
  unfold linregress.
  destruct ((length x =? 0)%nat || (length y =? 0)%nat); [discriminate|].
  destruct (zmax x =? zmin x) eqn:Hz; [|left; now apply Z.eqb_neq].
  destruct (1 <? length x)%nat eqn:Hl; [discriminate|].
  intros _. right. apply Nat.ltb_ge in Hl. exact Hl.
Qed.

Lemma city_fit_ok_condition (df : DataFrame) (c : string)
    (lr : LinregressResult) :
  In c (col_city df) -> city_fit p df c = Py.Ok lr ->
  length (city_frame df c) = 1%nat \/ spans_a_day (city_frame df c).
Proof.
  intros Hin H. unfold city_fit in H.
  destruct (linregress_ok_cases _ _ _ H) as [Hne | Hle].
  - right. now apply day_offsets_spread_inv.
  - left. rewrite city_days_length in Hle.
    pose proof (city_frame_nonempty df c Hin).
    destruct (city_frame df c) as [|r [|r' rs]]; simpl in *;
      [congruence | reflexivity | lia].
Qed.

(** ** What each city is given *)

Lemma city_mask_same_rows (df cur : DataFrame) (c : string) :
  rows cur = rows df -> city_mask cur c = city_mask df c.
Proof. intros H. unfold city_mask. now rewrite H. Qed.

Lemma city_days_same_rows (df cur : DataFrame) (c : string) :
  rows cur = rows df -> city_days cur c = city_days df c.
Proof.
  intros H. unfold city_days. now rewrite (city_frame_same_rows df cur c H).
Qed.

Lemma trend_loop_fits (df : DataFrame) (cities : list string) :
  forall (trends : Trends) (cur : DataFrame) (trends' : Trends)
         (cur' : DataFrame),
    NoDup cities -> rows cur = rows df -> column_ok cur (trend cur) ->
    trend_loop cities (Py.Ok (trends, cur)) = Py.Ok (trends', cur') ->
    incl trends trends'
    /\ (forall c, In c cities ->
          exists lr,
            city_fit p df c = Py.Ok lr
            /\ In (c, (slope lr, rvalue lr, pvalue lr)) trends'
            /\ select (city_mask df c) (column cur' (trend cur'))
               = fitted lr (city_days df c))
    /\ (forall c, ~ In c cities ->
          select (city_mask df c) (column cur' (trend cur'))
          = select (city_mask df c) (column cur (trend cur))).
Proof.
  induction cities as [|c0 cities IH];
    intros trends cur trends' cur' Hnd Hrows Hok Hrun.
  - simpl in Hrun. injection Hrun as <- <-.
    split; [apply incl_refl|]. split; [contradiction | reflexivity].
  - rewrite trend_loop_cons, (calc_trend_step_eq trends cur c0 Hok) in Hrun.
    rewrite (city_fit_same_rows df cur c0 Hrows) in Hrun.
    rewrite (city_mask_same_rows df cur c0 Hrows) in Hrun.
    rewrite (city_days_same_rows df cur c0 Hrows) in Hrun.
    destruct (city_fit p df c0) as [lr0|e] eqn:Hfit; cbn [Py.bind] in Hrun;
      [|rewrite trend_loop_raise in Hrun; discriminate].
    inversion Hnd as [|? ? Hnotin Hnd']; subst.
    set (col1 := scatter (city_mask df c0) (column cur (trend cur))
                   (fitted lr0 (city_days df c0))) in *.
    assert (Hlenc : length (column cur (trend cur)) = length (rows df))
      by (rewrite <- Hrows; now apply column_length).
    assert (Hok1 : column_ok (set_trend cur col1) (trend (set_trend cur col1))).
    { simpl. unfold col1. rewrite scatter_length. now rewrite Hrows in *. }
    destruct (IH _ (set_trend cur col1) _ _ Hnd' Hrows Hok1 Hrun)
      as (Hincl & Hin & Hout).
    assert (Hcol1 : column (set_trend cur col1) (trend (set_trend cur col1))
                    = col1) by reflexivity.
    rewrite Hcol1 in Hout.
    split; [|split].
    + intros x Hx. apply Hincl. apply in_or_app. now left.
    + intros c [<- | Hc]; [|now apply Hin].
      exists lr0. split; [exact Hfit|]. split.
      * apply Hincl. apply in_or_app. right. now left.
      * rewrite (Hout c0 Hnotin). unfold col1. apply select_scatter_same.
        -- now rewrite city_mask_length.
        -- unfold fitted. rewrite length_map, city_days_length.
           unfold city_frame. apply select_length. now symmetry.
    + intros c Hc. rewrite (Hout c) by (intros H; apply Hc; now right).
      unfold col1. apply select_scatter_other.
      * now rewrite !city_mask_length.
      * intros i. apply city_mask_disjoint. intros ->. apply Hc. now left.
Qed.

(** X8.  When [calc_trend] returns, each city has in the dict the slope, r and
    p of the regression of its own temperatures on its own day offsets, and
    the [trend] cells of its rows are that line, [slope * days + intercept],
    in the order of its rows: no city's cells are touched by another's. *)
Theorem calc_trend_fits_each_city (df : DataFrame) (trends : Trends)
    (df' : DataFrame) (c : string) :
  well_formed df ->
  calc_trend p df = Py.Ok (trends, df') ->
  In c (col_city df) ->
  exists lr,
    city_fit p df c = Py.Ok lr
    /\ In (c, (slope lr, rvalue lr, pvalue lr)) trends
    /\ select (city_mask df c) (column df' (trend df'))
       = fitted lr (city_days df c).
Proof.
  intros (_ & _ & Hok) Hrun Hin. rewrite calc_trend_loop in Hrun.
  destruct (trend_loop_fits df _ _ _ _ _ (unique_NoDup (col_city df))
              eq_refl Hok Hrun) as (_ & Hfit & _).
  apply Hfit. now apply unique_In.
Qed.

(** ** A city with a single reading *)

Lemma zero_mul_cases (z : float) :
  (0 * z = 0 \/ 0 * z = -0 \/ 0 * z = nan)%float.
Proof.
  pose proof (FloatAxioms.mul_spec 0 z) as H.
  change (Prim2SF 0) with (S754_zero false) in H.
  destruct (Prim2SF z) as [s | s | | s m e]; simpl in H.
  - destruct s; [right; left | left]; apply Prim2SF_inj; rewrite H; reflexivity.
  - right; right. now apply SF_nan_eq.
  - right; right. now apply SF_nan_eq.
  - destruct s; [right; left | left]; apply Prim2SF_inj; rewrite H; reflexivity.
Qed.

Lemma slope_of_single (z : float) : ((-0 + 0 * z) / 1 / 0)%float = nan.
Proof. destruct (zero_mul_cases z) as [-> | [-> | ->]]; reflexivity. Qed.

Lemma linregress_single (y : float) :
  exists lr,
    linregress p [0] [y] = Py.Ok lr /\ slope lr = nan /\ intercept lr = nan.
Proof.
  eexists. split; [|split].
  - unfold linregress.
    change (length [0] =? 0)%nat with false.
    change (length [y] =? 0)%nat with false.
    cbv beta iota delta [orb andb zmax zmin fold_left length
                           Nat.ltb Nat.leb Nat.eqb Z.eqb].
    reflexivity.
  - cbv [slope]. vm_compute. apply slope_of_single.
  - cbv [intercept]. vm_compute.
    now rewrite slope_of_single, mul_nan_l, sub_nan_r.
Qed.

(** X9.  A city with a single reading is not refused: its slope is NaN (0/0),
    and so is the [trend] cell of its row. *)
Theorem calc_trend_single_reading (df : DataFrame) (trends : Trends)
    (df' : DataFrame) (c : string) (r : Row) :
  well_formed df ->
  calc_trend p df = Py.Ok (trends, df') ->
  city_frame df c = [r] ->
  (exists rv pv, In (c, (nan, rv, pv)) trends)
  /\ select (city_mask df c) (column df' (trend df')) = [nan].
Proof.
  intros (_ & _ & Hok) Hrun Hr. rewrite calc_trend_loop in Hrun.
  destruct (trend_loop_fits df _ _ _ _ _ (unique_NoDup (col_city df))
              eq_refl Hok Hrun) as (_ & Hfit & _).
  destruct (Hfit c) as (lr & Hlr & Hin & Hcol).
  { apply unique_In, city_frame_member. rewrite Hr. discriminate. }
  unfold city_fit, city_days in Hlr. unfold city_days in Hcol.
  rewrite Hr in Hlr, Hcol. unfold day_offsets in Hlr, Hcol.
  simpl in Hlr, Hcol. rewrite Z.sub_diag in Hlr, Hcol.
  change (0 / 86400) with 0 in Hlr, Hcol.
  destruct (linregress_single (temperature r)) as (lr' & Hlr' & Hs & Hi).
  rewrite Hlr' in Hlr. injection Hlr as <-.
  rewrite Hs in Hin. split; [now exists (rvalue lr'), (pvalue lr')|].
  rewrite Hcol. unfold fitted. simpl. rewrite Hs, Hi.
  now rewrite mul_nan_l, add_nan_l.
Qed.

(** ** A city whose readings share one day offset *)

Lemma trend_loop_keys (cities : list string) :
  forall (trends : Trends) (cur : DataFrame) (trends' : Trends)
         (cur' : DataFrame),
    trend_loop cities (Py.Ok (trends, cur)) = Py.Ok (trends', cur') ->
    map fst trends' = (map fst trends ++ cities)%list.
Proof.
  induction cities as [|c cities IH]; intros trends cur trends' cur' Hrun.
  - simpl in Hrun. injection Hrun as <- <-. now rewrite app_nil_r.
  - rewrite trend_loop_cons in Hrun.
    destruct (calc_trend_step p (trends, cur) c) as [[trends1 cur1]|e] eqn:Hs;
      cbn [Py.bind] in Hrun; [|rewrite trend_loop_raise in Hrun; discriminate].
    rewrite (IH _ _ _ _ Hrun).
    unfold calc_trend_step in Hs.
    destruct (linregress p _ _) as [lr|e]; cbn [Py.bind] in Hs;
      [|discriminate].
    destruct (loc_set_values _ _ _) as [col|e]; cbn [Py.bind] in Hs;
      [|discriminate].
    injection Hs as <- _. rewrite map_app. simpl. now rewrite <- app_assoc.
Qed.

Lemma assoc_unique {A B : Type} (l : list (A * B)) (k : A) (v v' : B) :
  NoDup (map fst l) -> In (k, v) l -> In (k, v') l -> v = v'.
Proof.
  induction l as [|[k0 v0] l IH]; simpl; intros Hnd H H'; [contradiction|].
  inversion Hnd as [|? ? Hnotin Hnd']; subst.
  destruct H as [H|H], H' as [H'|H'].
  - congruence.
  - injection H as <- <-. exfalso. apply Hnotin.
    change k0 with (fst (k0, v')). now apply in_map.
  - injection H' as <- <-. exfalso. apply Hnotin.
    change k0 with (fst (k0, v)). now apply in_map.
  - now apply IH.
Qed.

(** C5, amended.  For a city whose readings all lie within a day of its
    first one, so that they share the day offset 0: with two or more
    readings, the [ValueError] of [linregress] leaves [calc_trend], and no
    trend is returned for any city; with a single reading, the regression
    of the city does not raise, and when [calc_trend] returns, the one
    entry of the city in the dict has the slope NaN, not zero, and the
    [trend] cell of its row is NaN. *)
Theorem calc_trend_constant_regressor (df : DataFrame) (c : string) :
  well_formed df ->
  city_frame df c <> [] ->
  within_one_day (city_frame df c) ->
  ((2 <= length (city_frame df c))%nat ->
   calc_trend p df = Py.Raise (Py.ValueError IDENTICAL_X))
  /\ (length (city_frame df c) = 1%nat ->
      (exists lr, city_fit p df c = Py.Ok lr /\ slope lr = nan)
      /\ forall (trends : Trends) (df' : DataFrame),
           calc_trend p df = Py.Ok (trends, df') ->
           (exists rv pv, In (c, (nan, rv, pv)) trends)
           /\ (forall s rv pv, In (c, (s, rv, pv)) trends -> s = nan)
           /\ select (city_mask df c) (column df' (trend df')) = [nan]).
Proof.
  intros Hwf Hne Hday. pose proof Hwf as (_ & _ & Hok).
  assert (Hin : In c (unique (col_city df)))
    by (now apply unique_In, city_frame_member).
  split.
  - intros Hlen.
    destruct (in_split _ _ Hin) as (pre & post & Hsplit).
    rewrite calc_trend_loop, Hsplit, fold_left_app.
    destruct (trend_loop_outcome df pre [] df eq_refl Hok) as [H | H].
    + intros c' Hc'. apply (unique_In (col_city df)). rewrite Hsplit.
      apply in_or_app. now left.
    + rewrite H. apply trend_loop_raise.
    + destruct H as (trends' & cur' & H & Hrows & Hok').
      rewrite H, trend_loop_cons, (calc_trend_step_eq trends' cur' c Hok').
      rewrite (city_fit_same_rows df cur' c Hrows).
      rewrite (city_fit_identical df c Hlen Hday). cbn [Py.bind].
      apply trend_loop_raise.
  - intros Hlen.
    destruct (city_frame df c) as [|r [|r' rs]] eqn:Hr; try discriminate.
    destruct (linregress_single (temperature r)) as (lr' & Hlr' & Hs & Hi).
    assert (Hfit' : city_fit p df c = Py.Ok lr').
    { unfold city_fit, city_days. rewrite Hr. unfold day_offsets. simpl.
      rewrite Z.sub_diag. exact Hlr'. }
    split; [now exists lr'|].
    intros trends df' Hrun. rewrite calc_trend_loop in Hrun.
    pose proof (trend_loop_keys _ _ _ _ _ Hrun) as Hkeys. simpl in Hkeys.
    destruct (trend_loop_fits df _ _ _ _ _ (unique_NoDup (col_city df))
                eq_refl Hok Hrun) as (_ & Hfit & _).
    destruct (Hfit c Hin) as (lr & Hlr & Hent & Hcol).
    rewrite Hfit' in Hlr. injection Hlr as <-. rewrite Hs in Hent.
    split; [now exists (rvalue lr'), (pvalue lr')|]. split.
    + intros s rv pv Hent'.
      assert (Hnd : NoDup (map fst trends))
        by (rewrite Hkeys; apply unique_NoDup).
      pose proof (assoc_unique _ _ _ _ Hnd Hent Hent') as He.
      now injection He as <- _ _.
    + rewrite Hcol. unfold fitted, city_days. rewrite Hr.
      unfold day_offsets. simpl. rewrite Hs, Hi.
      now rewrite mul_nan_l, add_nan_l.
Qed.

(** ** Moving the calendar *)

Lemma fold_min_shift (k : Z) (xs : list Z) :
  forall a,
    fold_left Z.min (map (fun t => t + k) xs) (a + k)
    = fold_left Z.min xs a + k.
Proof.
  induction xs as [|x xs IH]; intros a; simpl; [reflexivity|].
  now rewrite Z.add_min_distr_r, IH.
Qed.

Lemma day_offsets_shift (k : Z) (ts : list Z) :
  day_offsets (map (fun t => t + k) ts) = day_offsets ts.
Proof.
  destruct ts as [|t ts]; [reflexivity|].
  unfold day_offsets. rewrite map_map.
  assert (Hmin : zmin (map (fun t => t + k) (t :: ts)) = zmin (t :: ts) + k)
    by (simpl; apply fold_min_shift).
  rewrite Hmin. apply map_ext. intros x. f_equal. lia.
Qed.

Lemma city_mask_shift (k : Z) (df : DataFrame) (c : string) :
  city_mask (shift_timestamps k df) c = city_mask df c.
Proof. unfold city_mask. simpl. now rewrite map_map. Qed.

Lemma city_days_shift (k : Z) (df : DataFrame) (c : string) :
  day_offsets
    (map timestamp (select (city_mask df c) (rows (shift_timestamps k df))))
  = day_offsets (map timestamp (select (city_mask df c) (rows df))).
Proof.
  simpl. rewrite select_map, map_map.
  rewrite <- (day_offsets_shift k (map timestamp _)). now rewrite map_map.
Qed.

Lemma city_temperatures_shift (k : Z) (df : DataFrame) (c : string) :
  map temperature (select (city_mask df c) (rows (shift_timestamps k df)))
  = map temperature (select (city_mask df c) (rows df)).
Proof. simpl. now rewrite select_map, map_map. Qed.

Lemma column_shift (k : Z) (df : DataFrame) :
  column (shift_timestamps k df) (trend (shift_timestamps k df))
  = column df (trend df).
Proof. unfold column. simpl. now rewrite length_map. Qed.

Lemma calc_trend_step_shift (k : Z) (trends : Trends) (cur : DataFrame)
    (c : string) :
  calc_trend_step p (trends, shift_timestamps k cur) c
  = (r <- calc_trend_step p (trends, cur) c ;;
     Py.Ok (fst r, shift_timestamps k (snd r))).
Proof.
  unfold calc_trend_step.
  rewrite city_mask_shift, city_days_shift, city_temperatures_shift,
    column_shift.
  destruct (linregress p _ _) as [lr|e]; [|reflexivity].
  cbn [Py.bind].
  destruct (loc_set_values _ _ _) as [col|e]; reflexivity.
Qed.

Lemma trend_loop_shift (k : Z) (cities : list string) :
  forall (trends : Trends) (cur : DataFrame),
    trend_loop cities (Py.Ok (trends, shift_timestamps k cur))
    = (r <- trend_loop cities (Py.Ok (trends, cur)) ;;
       Py.Ok (fst r, shift_timestamps k (snd r))).
Proof.
  induction cities as [|c cities IH]; intros trends cur; [reflexivity|].
  rewrite !trend_loop_cons, calc_trend_step_shift.
  destruct (calc_trend_step p (trends, cur) c) as [[trends1 cur1]|e];
    cbn [Py.bind fst snd].
  - apply IH.
  - now rewrite !trend_loop_raise.
Qed.

(** X10.  [calc_trend] sees the timestamps only through the whole days since the
    first reading of each city: moving every timestamp of the frame by the
    same amount changes neither the outcome, nor the dict, nor the [trend]
    column. *)
Theorem calc_trend_shift_invariant (k : Z) (df : DataFrame) :
  calc_trend p (shift_timestamps k df)
  = (r <- calc_trend p df ;; Py.Ok (fst r, shift_timestamps k (snd r))).
Proof.
  rewrite !calc_trend_loop.
  assert (Hc : col_city (shift_timestamps k df) = col_city df)
    by (unfold col_city; simpl; now rewrite map_map).
  rewrite Hc. apply trend_loop_shift.
Qed.

End Trend.

Lemma calc_trend_aborts_on_one_day_city_cairo :
  calc_trend Examples.no_p_value Examples.cairo_same_day
  = Py.Raise (Py.ValueError IDENTICAL_X).
Proof.
  apply (calc_trend_aborts_on_one_day_city Examples.no_p_value
           Examples.cairo_same_day "Cairo").
  - apply frame_of_well_formed.
  - vm_compute. repeat constructor.
  - intros r r' Hr Hr'. vm_compute in Hr, Hr'.
    destruct Hr as [<- | [<- | []]]; destruct Hr' as [<- | [<- | []]];
      reflexivity.
Defined.

Lemma calc_trend_returns_cairo_single :
  exists trends df',
    calc_trend Examples.no_p_value Examples.cairo_single = Py.Ok (trends, df')
    /\ map fst trends = unique (col_city Examples.cairo_single)
    /\ same_but_trend Examples.cairo_single df'
    /\ column_ok df' (trend df')
    /\ (rows Examples.cairo_single <> [] -> trend df' <> None).
Proof.
  apply (calc_trend_returns Examples.no_p_value Examples.cairo_single).
  - apply frame_of_well_formed.
  - intros c Hc. vm_compute in Hc.
    destruct Hc as [<- | [<- | [<- | [<- | []]]]].
    4: now left.
    all: right;
      exists (mkRow 0 0 "Berlin" 1.5%float "winter"),
             (mkRow 1 Examples.day "Berlin" 2.5%float "winter");
      split; [vm_compute; now left|];
      split; [vm_compute; right; now left|];
      vm_compute; discriminate.
Defined.

Lemma calc_trend_fits_each_city_berlin :
  exists lr,
    city_fit Examples.no_p_value Examples.cairo_single "Berlin" = Py.Ok lr
    /\ In ("Berlin"%string, (slope lr, rvalue lr, pvalue lr))
          (fst Examples.cairo_single_trend)
    /\ select (city_mask Examples.cairo_single "Berlin")
          (column (snd Examples.cairo_single_trend)
             (trend (snd Examples.cairo_single_trend)))
       = fitted lr (city_days Examples.cairo_single "Berlin").
Proof.
  apply (calc_trend_fits_each_city Examples.no_p_value Examples.cairo_single).
  - apply frame_of_well_formed.
  - vm_compute. reflexivity.
  - vm_compute. now left.
Defined.

Lemma calc_trend_single_reading_cairo :
  (exists rv pv,
     In ("Cairo"%string, (nan, rv, pv)) (fst Examples.cairo_single_trend))
  /\ select (city_mask Examples.cairo_single "Cairo")
        (column (snd Examples.cairo_single_trend)
           (trend (snd Examples.cairo_single_trend)))
     = [nan].
Proof.
  apply (calc_trend_single_reading Examples.no_p_value Examples.cairo_single
           _ _ "Cairo" (mkRow 3 (5 * Examples.day) "Cairo" 18%float "winter")).
  - apply frame_of_well_formed.
  - vm_compute. reflexivity.
  - reflexivity.
Defined.

Lemma calc_trend_constant_regressor_cairo :
  calc_trend Examples.no_p_value Examples.cairo_same_day
    = Py.Raise (Py.ValueError IDENTICAL_X)
  /\ select (city_mask Examples.cairo_single "Cairo")
        (column (snd Examples.cairo_single_trend)
           (trend (snd Examples.cairo_single_trend)))
     = [nan].
Proof.
  split.
  - destruct (calc_trend_constant_regressor Examples.no_p_value
                Examples.cairo_same_day "Cairo") as [Hraise _].
    + apply frame_of_well_formed.
    + discriminate.
    + intros r r' Hr Hr'. vm_compute in Hr, Hr'.
      destruct Hr as [<- | [<- | []]]; destruct Hr' as [<- | [<- | []]];
        reflexivity.
    + apply Hraise. vm_compute. repeat constructor.
  - destruct (calc_trend_constant_regressor Examples.no_p_value
                Examples.cairo_single "Cairo") as [_ Hsingle].
    + apply frame_of_well_formed.
    + discriminate.
    + intros r r' Hr Hr'. vm_compute in Hr, Hr'.
      destruct Hr as [<- | []]; destruct Hr' as [<- | []]; reflexivity.
    + destruct (Hsingle eq_refl) as [_ Hrun].
      destruct (Hrun (fst Examples.cairo_single_trend)
                  (snd Examples.cairo_single_trend)) as (_ & _ & Hcell);
        [vm_compute; reflexivity | exact Hcell].
Defined.

(** C5, as stated, fails.  Cairo has two readings taken an hour apart, so
    both have the day offset 0; Berlin has three daily readings, whose
    regression returns.  [calc_trend] raises the [ValueError] of
    [linregress]: it returns no dict, so neither an undefined slope for
    Cairo nor the trend of Berlin. *)
Lemma one_day_city_aborts_the_batch :
  city_days Examples.cairo_same_day "Cairo" = [0; 0]
  /\ city_days Examples.cairo_same_day "Berlin" = [0; 1; 2]
  /\ (match city_fit Examples.no_p_value Examples.cairo_same_day "Berlin" with
      | Py.Ok _ => true
      | Py.Raise _ => false
      end) = true
  /\ calc_trend Examples.no_p_value Examples.cairo_same_day
     = Py.Raise (Py.ValueError IDENTICAL_X).
Proof. repeat split; vm_compute; reflexivity. Qed.

End TrendFacts.

(** * The analysis pipeline: moving statistics, then anomaly flags *)
Module PipelineFacts.
Import F64 F64Facts Pandas Analysis IndexingFacts FrameFacts SeriesFacts.
Import KernelFacts RollingFacts.

Lemma assign_fold_rows (cities : list string) :
  forall cur, rows (fold_left assign_city cities cur) = rows cur.
Proof.
  induction cities as [|c cities IH]; intros cur; simpl; [reflexivity|].
  now rewrite IH, assign_city_rows.
Qed.

Lemma assign_fold_well_formed (cities : list string) :
  forall cur, well_formed cur -> well_formed (fold_left assign_city cities cur).
Proof.
  induction cities as [|c cities IH]; intros cur H; simpl; [exact H|].
  now apply IH, assign_city_well_formed.
Qed.

Lemma assign_fold_present (cities : list string) :
  forall cur,
    cities <> [] \/ (moving_mean cur <> None /\ moving_std cur <> None) ->
    moving_mean (fold_left assign_city cities cur) <> None
    /\ moving_std (fold_left assign_city cities cur) <> None.
Proof.
  induction cities as [|c cities IH]; intros cur H; simpl.
  - destruct H as [H | H]; [congruence | exact H].
  - apply IH. right. simpl. split; discriminate.
Qed.

Lemma unique_nonempty (xs : list string) : xs <> [] -> unique xs <> [].
Proof.
  destruct xs as [|x xs]; [congruence|]. intros _ H.
  assert (Hin : In x (unique (x :: xs))) by (apply unique_In; now left).
  now rewrite H in Hin.
Qed.

(** X11.  On a frame that has rows, [calc_moving_avg] returns in both modes, and
    the frame it returns has the two columns [moving_mean] and [moving_std],
    each with one cell per row. *)
Theorem calc_moving_avg_adds_both_columns (df : DataFrame) (parallel : bool) :
  NoDup (labels df) -> well_formed df -> rows df <> [] ->
  exists df' mm ms,
    calc_moving_avg df parallel = Py.Ok df'
    /\ moving_mean df' = Some mm /\ moving_std df' = Some ms
    /\ length mm = length (rows df) /\ length ms = length (rows df).
Proof.
  intros Hnd Hwf Hne. rewrite (calc_moving_avg_assign df parallel Hnd Hwf).
  set (final := fold_left assign_city (unique (col_city df)) df).
  assert (Hrows : rows final = rows df) by apply assign_fold_rows.
  destruct (assign_fold_well_formed (unique (col_city df)) df Hwf)
    as (Hm & Hs & _). fold final in Hm, Hs.
  destruct (assign_fold_present (unique (col_city df)) df) as [Pm Ps].
  { left. apply unique_nonempty. unfold col_city.
    destruct (rows df); [congruence | discriminate]. }
  fold final in Pm, Ps.
  destruct (moving_mean final) as [mm|] eqn:Em; [|congruence].
  destruct (moving_std final) as [ms|] eqn:Es; [|congruence].
  exists final, mm, ms. simpl in Hm, Hs. rewrite Hrows in Hm, Hs.
  now repeat split.
Qed.

Lemma calc_moving_avg_adds_both_columns_two_cities :
  exists df' mm ms,
    calc_moving_avg Examples.two_cities true = Py.Ok df'
    /\ moving_mean df' = Some mm /\ moving_std df' = Some ms
    /\ length mm = length (rows Examples.two_cities)
    /\ length ms = length (rows Examples.two_cities).
Proof.
  apply calc_moving_avg_adds_both_columns.
  - apply distinct_NoDup. vm_compute. reflexivity.
  - apply frame_of_well_formed.
  - discriminate.
Defined.

(** X12.  A frame without rows has no city: the loop of [calc_moving_avg] does
    not run, the frame comes back as it was, and when it had no
    [moving_mean] column the [calc_anomalies] that follows raises
    [KeyError]. *)
Theorem calc_moving_avg_of_no_rows (df : DataFrame) (parallel : bool) :
  rows df = [] ->
  calc_moving_avg df parallel = Py.Ok df
  /\ (moving_mean df = None ->
      (df' <- calc_moving_avg df parallel ;; calc_anomalies df')
      = Py.Raise (Py.KeyError "moving_mean")).
Proof.
  intros Hrows.
  assert (H : calc_moving_avg df parallel = Py.Ok df).
  { unfold calc_moving_avg, col_city. rewrite Hrows.
    destruct parallel; reflexivity. }
  split; [exact H|]. intros Hm. rewrite H. simpl.
  unfold calc_anomalies. now rewrite Hm.
Qed.

Lemma calc_moving_avg_of_no_rows_header_only :
  calc_moving_avg (frame_of []) false = Py.Ok (frame_of [])
  /\ (moving_mean (frame_of []) = None ->
      (df' <- calc_moving_avg (frame_of []) false ;; calc_anomalies df')
      = Py.Raise (Py.KeyError "moving_mean")).
Proof. apply calc_moving_avg_of_no_rows. reflexivity. Defined.

(** ** The flags of one city *)

Lemma select_combine {A B : Type} (mask : list bool) :
  forall (xs : list A) (ys : list B),
    select mask (combine xs ys) = combine (select mask xs) (select mask ys).
Proof.
  induction mask as [|b mask IH]; intros xs ys; [reflexivity|].
  destruct xs as [|x xs]; [reflexivity|].
  destruct ys as [|y ys]; simpl.
  - destruct b; [reflexivity|]. now destruct (select mask xs).
  - destruct b; simpl; now rewrite IH.
Qed.

Lemma flags_zip (T : list float) :
  forall X : list (float * float),
    map (fun p => outside (fst p) (fst (snd p)) (snd (snd p)))
        (combine T
           (combine (map (fun q => lower_f64 (fst q) (snd q)) X)
                    (map (fun q => upper_f64 (fst q) (snd q)) X)))
    = map (fun p => flag_of (fst p) (fst (snd p)) (snd (snd p))) (combine T X).
Proof.
  induction T as [|t T IH]; intros X; [reflexivity|].
  destruct X as [|x X]; [reflexivity|]. simpl. now rewrite IH.
Qed.

Lemma calc_anomalies_flag_column (df1 df2 : DataFrame) :
  calc_anomalies df1 = Py.Ok df2 ->
  exists mm ms,
    moving_mean df1 = Some mm /\ moving_std df1 = Some ms
    /\ rows df2 = rows df1
    /\ is_anomaly df2
       = Some (map (fun p => flag_of (fst p) (fst (snd p)) (snd (snd p)))
                 (combine (col_temperature df1) (combine mm ms))).
Proof.
  unfold calc_anomalies.
  destruct (moving_mean df1) as [mm|]; [|discriminate].
  destruct (moving_std df1) as [ms|]; [|discriminate].
  intros [= <-]. exists mm, ms. simpl. rewrite flags_zip. now repeat split.
Qed.

Lemma calc_moving_avg_rows (df df1 : DataFrame) (parallel : bool) :
  NoDup (labels df) -> well_formed df ->
  calc_moving_avg df parallel = Py.Ok df1 -> rows df1 = rows df.
Proof.
  intros Hnd Hwf H. rewrite (calc_moving_avg_assign df parallel Hnd Hwf) in H.
  injection H as <-. apply assign_fold_rows.
Qed.

Lemma city_temperatures (df : DataFrame) (c : string) :
  select (city_mask df c) (col_temperature df)
  = map temperature (city_frame df c).
Proof. unfold col_temperature, city_frame. apply select_map. Qed.

(** The flags of a city's rows are computed from the city's own
    temperatures and the rolling statistics of those same temperatures. *)
Lemma city_flags (df df1 df2 : DataFrame) (parallel : bool) (c : string)
    (flags : list bool) :
  NoDup (labels df) -> well_formed df ->
  calc_moving_avg df parallel = Py.Ok df1 ->
  calc_anomalies df1 = Py.Ok df2 ->
  is_anomaly df2 = Some flags ->
  select (city_mask df c) flags
  = map (fun p => flag_of (fst p) (fst (snd p)) (snd (snd p)))
      (combine (map temperature (city_frame df c))
         (combine (city_means df c) (city_stds df c))).
Proof.
  intros Hnd Hwf Hrun Han Hflags.
  destruct (calc_anomalies_flag_column df1 df2 Han)
    as (mm & ms & Hmm & Hms & _ & Hf).
  rewrite Hflags in Hf. injection Hf as ->.
  destruct (calc_moving_avg_city_series df df1 parallel c Hnd Hwf Hrun)
    as [Em Es].
  rewrite Hmm in Em. rewrite Hms in Es. simpl in Em, Es.
  rewrite <- Em, <- Es, <- city_temperatures.
  rewrite <- !select_combine, <- select_map.
  unfold col_temperature.
  now rewrite (calc_moving_avg_rows df df1 parallel Hnd Hwf Hrun).
Qed.

Lemma city_statistics_length (df : DataFrame) (c : string) :
  length (city_means df c) = length (city_frame df c)
  /\ length (city_stds df c) = length (city_frame df c).
Proof.
  unfold city_means, city_stds.
  rewrite rolling_mean_length, rolling_std_length, city_temperatures,
    length_map. now split.
Qed.

Lemma city_statistics_edge (df : DataFrame) (c : string) (i : nat) :
  (i < length (city_frame df c))%nat ->
  (i < 15)%nat \/ (length (city_frame df c) <= i + 14)%nat ->
  nth_error (city_means df c) i = Some nan
  /\ nth_error (city_stds df c) i = Some nan.
Proof.
  intros Hi Hedge.
  unfold city_means, city_stds.
  assert (Hlen : length (select (city_mask df c) (col_temperature df))
                 = length (city_frame df c))
    by (now rewrite city_temperatures, length_map).
  assert (HW : 0 < WINDOW_SIZE) by reflexivity.
  rewrite <- Hlen in Hi, Hedge.
  destruct (rolling_window WINDOW_SIZE _ i HW Hi) as [_ H].
  apply H. change (WINDOW_SIZE / 2) with 15.
  change ((WINDOW_SIZE - 1) / 2) with 14. lia.
Qed.

(** X13.  The first fifteen and the last fourteen rows of every city are never
    flagged, whatever their temperatures: their window is incomplete, their
    moving statistics are NaN, and every comparison with NaN is false. *)
Theorem edge_rows_are_never_flagged (df df1 df2 : DataFrame) (parallel : bool)
    (c : string) (flags : list bool) (i : nat) :
  NoDup (labels df) -> well_formed df ->
  calc_moving_avg df parallel = Py.Ok df1 ->
  calc_anomalies df1 = Py.Ok df2 ->
  is_anomaly df2 = Some flags ->
  (i < length (city_frame df c))%nat ->
  (i < 15)%nat \/ (length (city_frame df c) <= i + 14)%nat ->
  nth_error (select (city_mask df c) flags) i = Some false.
Proof.
  intros Hnd Hwf Hrun Han Hflags Hi Hedge.
  rewrite (city_flags df df1 df2 parallel c flags Hnd Hwf Hrun Han Hflags).
  destruct (city_statistics_edge df c i Hi Hedge) as [Hm Hs].
  destruct (nth_error (map temperature (city_frame df c)) i) as [t|] eqn:Ht.
  2: { apply nth_error_None in Ht. rewrite length_map in Ht. lia. }
  rewrite nth_error_map.
  rewrite (AnomalyFacts.nth_error_combine _ _ i t (nan, nan) Ht
             (AnomalyFacts.nth_error_combine _ _ i nan nan Hm Hs)).
  simpl. unfold flag_of.
  change (lower_f64 nan nan) with nan. change (upper_f64 nan nan) with nan.
  now rewrite AnomalyFacts.outside_nan_bounds.
Qed.

Lemma edge_rows_are_never_flagged_berlin_30 :
  nth_error
    (select (city_mask Examples.berlin_30 "Berlin")
       (Examples.anomaly_flags Examples.berlin_30_anomalies)) 3 = Some false
  /\ nth_error
       (select (city_mask Examples.berlin_30 "Berlin")
          (Examples.anomaly_flags Examples.berlin_30_anomalies)) 16
     = Some false.
Proof.
  assert (Hnd : NoDup (labels Examples.berlin_30))
    by (apply distinct_NoDup; vm_compute; reflexivity).
  assert (Hrun : calc_moving_avg Examples.berlin_30 false
                 = Py.Ok Examples.berlin_30_stats)
    by (vm_compute; reflexivity).
  assert (Han : calc_anomalies Examples.berlin_30_stats
                = Py.Ok Examples.berlin_30_anomalies)
    by (vm_compute; reflexivity).
  assert (Hf : is_anomaly Examples.berlin_30_anomalies
               = Some (Examples.anomaly_flags Examples.berlin_30_anomalies))
    by (vm_compute; reflexivity).
  split.
  - apply (edge_rows_are_never_flagged Examples.berlin_30
             Examples.berlin_30_stats Examples.berlin_30_anomalies false
             "Berlin" _ 3 Hnd (frame_of_well_formed _) Hrun Han Hf).
    + clear. vm_compute. lia.
    + left. clear. lia.
  - apply (edge_rows_are_never_flagged Examples.berlin_30
             Examples.berlin_30_stats Examples.berlin_30_anomalies false
             "Berlin" _ 16 Hnd (frame_of_well_formed _) Hrun Han Hf).
    + clear. vm_compute. lia.
    + right. clear. vm_compute. lia.
Defined.

Lemma all_equal_repeat {A : Type} (l : list A) (v : A) :
  (forall i, (i < length l)%nat -> nth_error l i = Some v) ->
  l = repeat v (length l).
Proof.
  induction l as [|a l IH]; intros H; [reflexivity|]. simpl.
  assert (Ha : Some a = Some v) by (apply (H 0%nat); simpl; lia).
  injection Ha as ->. f_equal. apply IH.
  intros i Hi. apply (H (S i)). simpl. lia.
Qed.

Lemma flags_of_nan (ts : list float) :
  map (fun p => flag_of (fst p) (fst (snd p)) (snd (snd p)))
      (combine ts (combine (repeat nan (length ts)) (repeat nan (length ts))))
  = repeat false (length ts).
Proof.
  induction ts as [|t ts IH]; [reflexivity|]. simpl. rewrite IH. f_equal.
  unfold flag_of.
  change (lower_f64 nan nan) with nan. change (upper_f64 nan nan) with nan.
  apply AnomalyFacts.outside_nan_bounds.
Qed.

(** X14.  A city with fewer than thirty readings gets no moving statistics and
    no anomaly at all: every [moving_mean] and [moving_std] cell of its rows
    is NaN and every flag of its rows is false. *)
Theorem short_series_is_never_flagged (df df1 df2 : DataFrame)
    (parallel : bool) (c : string) (flags : list bool) :
  NoDup (labels df) -> well_formed df ->
  calc_moving_avg df parallel = Py.Ok df1 ->
  calc_anomalies df1 = Py.Ok df2 ->
  is_anomaly df2 = Some flags ->
  (length (city_frame df c) < 30)%nat ->
  select (city_mask df c) (column df1 (moving_mean df1))
    = repeat nan (length (city_frame df c))
  /\ select (city_mask df c) (column df1 (moving_std df1))
     = repeat nan (length (city_frame df c))
  /\ select (city_mask df c) flags
     = repeat false (length (city_frame df c)).
Proof.
  intros Hnd Hwf Hrun Han Hflags Hshort.
  destruct (calc_moving_avg_city_series df df1 parallel c Hnd Hwf Hrun)
    as [Em Es].
  destruct (city_statistics_length df c) as [Lm Ls].
  assert (Hm : city_means df c = repeat nan (length (city_frame df c))).
  { rewrite <- Lm. apply all_equal_repeat. intros i Hi. rewrite Lm in Hi.
    apply (city_statistics_edge df c i Hi). lia. }
  assert (Hs : city_stds df c = repeat nan (length (city_frame df c))).
  { rewrite <- Ls. apply all_equal_repeat. intros i Hi. rewrite Ls in Hi.
    apply (city_statistics_edge df c i Hi). lia. }
  split; [now rewrite Em|]. split; [now rewrite Es|].
  rewrite (city_flags df df1 df2 parallel c flags Hnd Hwf Hrun Han Hflags).
  rewrite Hm, Hs.
  rewrite <- (length_map temperature (city_frame df c)).
  apply flags_of_nan.
Qed.

Lemma short_series_is_never_flagged_cairo :
  select (city_mask Examples.cairo_same_day "Cairo")
    (column (Examples.with_moving Examples.cairo_same_day)
       (moving_mean (Examples.with_moving Examples.cairo_same_day)))
    = repeat nan (length (city_frame Examples.cairo_same_day "Cairo"))
  /\ select (city_mask Examples.cairo_same_day "Cairo")
       (column (Examples.with_moving Examples.cairo_same_day)
          (moving_std (Examples.with_moving Examples.cairo_same_day)))
     = repeat nan (length (city_frame Examples.cairo_same_day "Cairo"))
  /\ select (city_mask Examples.cairo_same_day "Cairo")
       (Examples.anomaly_flags
          (Examples.with_flags (Examples.with_moving Examples.cairo_same_day)))
     = repeat false (length (city_frame Examples.cairo_same_day "Cairo")).
Proof.
  apply (short_series_is_never_flagged Examples.cairo_same_day
           (Examples.with_moving Examples.cairo_same_day)
           (Examples.with_flags (Examples.with_moving Examples.cairo_same_day))
           false "Cairo").
  - apply distinct_NoDup. vm_compute. reflexivity.
  - apply frame_of_well_formed.
  - vm_compute. reflexivity.
  - vm_compute. reflexivity.
  - vm_compute. reflexivity.
  - vm_compute. lia.
Defined.

Lemma assign_fold_others (cities : list string) :
  forall cur,
    lower_bound (fold_left assign_city cities cur) = lower_bound cur
    /\ upper_bound (fold_left assign_city cities cur) = upper_bound cur
    /\ trend (fold_left assign_city cities cur) = trend cur.
Proof.
  induction cities as [|c cities IH]; intros cur; simpl; [now repeat split|].
  destruct (IH (assign_city cur c)) as (H1 & H2 & H3).
  rewrite H1, H2, H3. now repeat split.
Qed.

(** X15.  [calc_anomalies] accepts what [calc_moving_avg] returns for a frame
    that has rows: it adds the columns [lower_bound], [upper_bound] and
    [is_anomaly], each with one cell per row, and leaves the rows, the moving
    statistics and the [trend] column as they were. *)
Theorem calc_anomalies_after_calc_moving_avg (df : DataFrame)
    (parallel : bool) :
  NoDup (labels df) -> well_formed df -> rows df <> [] ->
  exists df1 df2 lo hi flags,
    calc_moving_avg df parallel = Py.Ok df1
    /\ calc_anomalies df1 = Py.Ok df2
    /\ rows df2 = rows df
    /\ moving_mean df2 = moving_mean df1 /\ moving_std df2 = moving_std df1
    /\ trend df2 = trend df
    /\ lower_bound df2 = Some lo /\ upper_bound df2 = Some hi
    /\ is_anomaly df2 = Some flags
    /\ length lo = length (rows df) /\ length hi = length (rows df)
    /\ length flags = length (rows df).
Proof.
  intros Hnd Hwf Hne. rewrite (calc_moving_avg_assign df parallel Hnd Hwf).
  set (final := fold_left assign_city (unique (col_city df)) df).
  assert (Hrows : rows final = rows df) by apply assign_fold_rows.
  destruct (assign_fold_well_formed (unique (col_city df)) df Hwf)
    as (Hm & Hs & _). fold final in Hm, Hs.
  destruct (assign_fold_others (unique (col_city df)) df) as (_ & _ & Ht).
  fold final in Ht.
  destruct (assign_fold_present (unique (col_city df)) df) as [Pm Ps].
  { left. apply unique_nonempty. unfold col_city.
    destruct (rows df); [congruence | discriminate]. }
  fold final in Pm, Ps.
  destruct (moving_mean final) as [mm|] eqn:Em; [|congruence].
  destruct (moving_std final) as [ms|] eqn:Es; [|congruence].
  simpl in Hm, Hs. rewrite Hrows in Hm, Hs.
  exists final. unfold calc_anomalies. rewrite Em, Es.
  eexists. eexists. eexists. eexists.
  split; [reflexivity|]. split; [reflexivity|]. simpl.
  split; [exact Hrows|]. split; [reflexivity|]. split; [reflexivity|].
  split; [exact Ht|]. split; [reflexivity|]. split; [reflexivity|].
  split; [reflexivity|].
  unfold col_temperature.
  rewrite !length_map, !length_combine, !length_map, !length_combine.
  rewrite Hrows, Hm, Hs. repeat split; lia.
Qed.

Lemma calc_anomalies_after_calc_moving_avg_two_cities :
  exists df1 df2 lo hi flags,
    calc_moving_avg Examples.two_cities false = Py.Ok df1
    /\ calc_anomalies df1 = Py.Ok df2
    /\ rows df2 = rows Examples.two_cities
    /\ moving_mean df2 = moving_mean df1 /\ moving_std df2 = moving_std df1
    /\ trend df2 = trend Examples.two_cities
    /\ lower_bound df2 = Some lo /\ upper_bound df2 = Some hi
    /\ is_anomaly df2 = Some flags
    /\ length lo = length (rows Examples.two_cities)
    /\ length hi = length (rows Examples.two_cities)
    /\ length flags = length (rows Examples.two_cities).
Proof.
  apply calc_anomalies_after_calc_moving_avg.
  - apply distinct_NoDup. vm_compute. reflexivity.
  - apply frame_of_well_formed.
  - discriminate.
Defined.

(** ** Counting the anomalies of a city *)

Lemma n_anomalies_app (l1 l2 : list bool) :
  n_anomalies (l1 ++ l2) = (n_anomalies l1 + n_anomalies l2)%nat.
Proof. unfold n_anomalies. now rewrite filter_app, length_app. Qed.

Lemma n_anomalies_le (l : list bool) : (n_anomalies l <= length l)%nat.
Proof. unfold n_anomalies. apply filter_length_le. Qed.

Lemma n_anomalies_none (l : list bool) :
  (forall i, (i < length l)%nat -> nth_error l i = Some false) ->
  n_anomalies l = 0%nat.
Proof.
  induction l as [|b l IH]; intros H; [reflexivity|].
  assert (Hb : Some b = Some false) by (apply (H 0%nat); simpl; lia).
  injection Hb as ->. unfold n_anomalies in *. simpl. apply IH.
  intros i Hi. apply (H (S i)). simpl. lia.
Qed.

Lemma n_anomalies_edges (l : list bool) (a b : nat) :
  (forall i, (i < length l)%nat -> (i < a)%nat \/ (length l <= i + b)%nat ->
             nth_error l i = Some false) ->
  (n_anomalies l <= length l - (a + b))%nat.
Proof.
  intros H.
  rewrite <- (firstn_skipn a l) at 1. rewrite n_anomalies_app.
  assert (H1 : n_anomalies (firstn a l) = 0%nat).
  { apply n_anomalies_none. intros i Hi. rewrite length_firstn in Hi.
    rewrite nth_error_firstn.
    destruct (Nat.ltb_spec i a) as [Hlt | Hge]; [|lia].
    apply H; lia. }
  remember (skipn a l) as l' eqn:El'.
  assert (Hl' : length l' = (length l - a)%nat)
    by (rewrite El'; apply length_skipn).
  rewrite <- (firstn_skipn (length l' - b) l'), n_anomalies_app.
  assert (H2 : n_anomalies (skipn (length l' - b) l') = 0%nat).
  { apply n_anomalies_none. intros i Hi. rewrite length_skipn in Hi.
    rewrite Hl' in Hi. rewrite El', !nth_error_skipn, length_skipn.
    apply H; lia. }
  pose proof (n_anomalies_le (firstn (length l' - b) l')) as H3.
  rewrite length_firstn in H3. lia.
Qed.

(** X16.  A city with [n] readings has at most [n - 29] anomalies, and none when
    it has fewer than thirty readings: the count
    [city_df['is_anomaly'].sum()] of the report cannot exceed that. *)
Theorem anomalies_of_a_city_are_bounded (df df1 df2 : DataFrame)
    (parallel : bool) (c : string) (flags : list bool) :
  NoDup (labels df) -> well_formed df ->
  calc_moving_avg df parallel = Py.Ok df1 ->
  calc_anomalies df1 = Py.Ok df2 ->
  is_anomaly df2 = Some flags ->
  (n_anomalies (select (city_mask df c) flags)
   <= length (city_frame df c) - 29)%nat.
Proof.
  intros Hnd Hwf Hrun Han Hflags.
  pose proof (city_flags df df1 df2 parallel c flags Hnd Hwf Hrun Han Hflags)
    as Hsel.
  destruct (city_statistics_length df c) as [Lm Ls].
  assert (Hlen : length (select (city_mask df c) flags)
                 = length (city_frame df c)).
  { rewrite Hsel, length_map, !length_combine, length_map, Lm, Ls. lia. }
  rewrite <- Hlen.
  apply (n_anomalies_edges (select (city_mask df c) flags) 15 14).
  intros i Hi Hedge. rewrite Hlen in Hi, Hedge. rewrite Hsel.
  destruct (city_statistics_edge df c i Hi Hedge) as [Hm Hs].
  destruct (nth_error (map temperature (city_frame df c)) i) as [t|] eqn:Ht.
  2: { apply nth_error_None in Ht. rewrite length_map in Ht. lia. }
  rewrite nth_error_map.
  rewrite (AnomalyFacts.nth_error_combine _ _ i t (nan, nan) Ht
             (AnomalyFacts.nth_error_combine _ _ i nan nan Hm Hs)).
  simpl. unfold flag_of.
  change (lower_f64 nan nan) with nan. change (upper_f64 nan nan) with nan.
  now rewrite AnomalyFacts.outside_nan_bounds.
Qed.

Lemma anomalies_of_a_city_are_bounded_two_cities :
  (n_anomalies
     (select (city_mask Examples.two_cities "Cairo")
        (Examples.anomaly_flags
           (Examples.with_flags (Examples.with_moving Examples.two_cities))))
   <= length (city_frame Examples.two_cities "Cairo") - 29)%nat.
Proof.
  apply (anomalies_of_a_city_are_bounded Examples.two_cities
           (Examples.with_moving Examples.two_cities)
           (Examples.with_flags (Examples.with_moving Examples.two_cities))
           false "Cairo").
  - apply distinct_NoDup. vm_compute. reflexivity.
  - apply frame_of_well_formed.
  - vm_compute. reflexivity.
  - vm_compute. reflexivity.
  - vm_compute. reflexivity.
Defined.

(** ** Running [calc_moving_avg] again *)

Lemma scatter_select_id (mask : list bool) :
  forall col : list float, scatter mask col (select mask col) = col.
Proof.
  induction mask as [|b mask IH]; intros col; [now destruct col|].
  destruct col as [|x col]; [reflexivity|]. simpl.
  destruct b; simpl; now rewrite IH.
Qed.

Lemma assign_city_fixpoint (df : DataFrame) (c : string)
    (mm ms : list float) :
  moving_mean df = Some mm -> moving_std df = Some ms ->
  select (city_mask df c) mm = city_means df c ->
  select (city_mask df c) ms = city_stds df c ->
  assign_city df c = df.
Proof.
  intros Hmm Hms Em Es. unfold assign_city. rewrite Hmm, Hms. simpl.
  rewrite <- Em, <- Es, !scatter_select_id.
  destruct df; simpl in *; now subst.
Qed.

Lemma assign_fold_fixpoint (cities : list string) (df : DataFrame) :
  (forall c, In c cities -> assign_city df c = df) ->
  fold_left assign_city cities df = df.
Proof.
  induction cities as [|c cities IH]; intros H; simpl; [reflexivity|].
  rewrite (H c) by now left. apply IH. intros c' Hc'. apply H. now right.
Qed.

(** X17.  Running [calc_moving_avg] on its own result, in either mode, changes
    nothing: the statistics are recomputed from the temperatures, which it
    never writes. *)
Theorem calc_moving_avg_idempotent (df df' : DataFrame)
    (parallel again : bool) :
  NoDup (labels df) -> well_formed df ->
  calc_moving_avg df parallel = Py.Ok df' ->
  calc_moving_avg df' again = Py.Ok df'.
Proof.
  intros Hnd Hwf Hrun.
  pose proof (calc_moving_avg_rows df df' parallel Hnd Hwf Hrun) as Hrows.
  assert (Hnd' : NoDup (labels df')) by (unfold labels; now rewrite Hrows).
  assert (Hfinal : df' = fold_left assign_city (unique (col_city df)) df).
  { rewrite (calc_moving_avg_assign df parallel Hnd Hwf) in Hrun.
    now injection Hrun. }
  assert (Hwf' : well_formed df')
    by (rewrite Hfinal; now apply assign_fold_well_formed).
  rewrite (calc_moving_avg_assign df' again Hnd' Hwf'). f_equal.
  assert (Hcities : col_city df' = col_city df)
    by (unfold col_city; now rewrite Hrows).
  rewrite Hcities.
  destruct (unique (col_city df)) as [|c0 cities] eqn:Hu; [reflexivity|].
  destruct (assign_fold_present (c0 :: cities) df) as [Pm Ps];
    [left; discriminate|].
  rewrite <- Hfinal in Pm, Ps.
  destruct (moving_mean df') as [mm|] eqn:Hmm; [|congruence].
  destruct (moving_std df') as [ms|] eqn:Hms; [|congruence].
  apply assign_fold_fixpoint. intros c _.
  destruct (calc_moving_avg_city_series df df' parallel c Hnd Hwf Hrun)
    as [Em Es].
  rewrite Hmm in Em. rewrite Hms in Es. simpl in Em, Es.
  apply (assign_city_fixpoint df' c mm ms Hmm Hms).
  - unfold city_means, city_mask, col_temperature in *. now rewrite Hrows.
  - unfold city_stds, city_mask, col_temperature in *. now rewrite Hrows.
Qed.

Lemma calc_moving_avg_idempotent_two_cities :
  calc_moving_avg (Examples.with_moving Examples.two_cities) true
  = Py.Ok (Examples.with_moving Examples.two_cities).
Proof.
  apply (calc_moving_avg_idempotent Examples.two_cities
           (Examples.with_moving Examples.two_cities) false true).
  - apply distinct_NoDup. vm_compute. reflexivity.
  - apply frame_of_well_formed.
  - vm_compute. reflexivity.
Defined.

(** X18.  The moving statistics of a city depend on nothing but that city's own
    temperatures, in their order: two frames in which a city has the same
    temperatures give its rows the same [moving_mean] and [moving_std],
    whatever other cities are interleaved with it. *)
Theorem moving_statistics_are_per_city (dfa dfb dfa' dfb' : DataFrame)
    (pa pb : bool) (c : string) :
  NoDup (labels dfa) -> well_formed dfa ->
  NoDup (labels dfb) -> well_formed dfb ->
  calc_moving_avg dfa pa = Py.Ok dfa' ->
  calc_moving_avg dfb pb = Py.Ok dfb' ->
  map temperature (city_frame dfa c) = map temperature (city_frame dfb c) ->
  select (city_mask dfa c) (column dfa' (moving_mean dfa'))
    = select (city_mask dfb c) (column dfb' (moving_mean dfb'))
  /\ select (city_mask dfa c) (column dfa' (moving_std dfa'))
     = select (city_mask dfb c) (column dfb' (moving_std dfb')).
Proof.
  intros Hna Hwa Hnb Hwb Hra Hrb Hsame.
  destruct (calc_moving_avg_city_series dfa dfa' pa c Hna Hwa Hra) as [Ma Sa].
  destruct (calc_moving_avg_city_series dfb dfb' pb c Hnb Hwb Hrb) as [Mb Sb].
  rewrite Ma, Sa, Mb, Sb. unfold city_means, city_stds.
  rewrite !city_temperatures, Hsame. now split.
Qed.

Lemma moving_statistics_are_per_city_berlin :
  select (city_mask Examples.berlin_30 "Berlin")
    (column (Examples.with_moving Examples.berlin_30)
       (moving_mean (Examples.with_moving Examples.berlin_30)))
    = select (city_mask Examples.berlin_30_and_cairo "Berlin")
        (column (Examples.with_moving Examples.berlin_30_and_cairo)
           (moving_mean (Examples.with_moving Examples.berlin_30_and_cairo)))
  /\ select (city_mask Examples.berlin_30 "Berlin")
       (column (Examples.with_moving Examples.berlin_30)
          (moving_std (Examples.with_moving Examples.berlin_30)))
     = select (city_mask Examples.berlin_30_and_cairo "Berlin")
         (column (Examples.with_moving Examples.berlin_30_and_cairo)
            (moving_std (Examples.with_moving Examples.berlin_30_and_cairo))).
Proof.
  apply (moving_statistics_are_per_city Examples.berlin_30
           Examples.berlin_30_and_cairo
           (Examples.with_moving Examples.berlin_30)
           (Examples.with_moving Examples.berlin_30_and_cairo) false true).
  - apply distinct_NoDup. vm_compute. reflexivity.
  - apply frame_of_well_formed.
  - apply distinct_NoDup. vm_compute. reflexivity.
  - apply frame_of_well_formed.
  - vm_compute. reflexivity.
  - vm_compute. reflexivity.
  - vm_compute. reflexivity.
Defined.

(** ** What the window is counted in *)

Lemma city_mask_col_city (df : DataFrame) (c : string) :
  city_mask df c = map (fun x => String.eqb x c) (col_city df).
Proof. unfold city_mask, col_city. now rewrite map_map. Qed.

Lemma assign_city_ext (a b : DataFrame) (c : string) :
  col_city a = col_city b -> col_temperature a = col_temperature b ->
  moving_mean a = moving_mean b -> moving_std a = moving_std b ->
  moving_mean (assign_city a c) = moving_mean (assign_city b c)
  /\ moving_std (assign_city a c) = moving_std (assign_city b c).
Proof.
  intros Hc Ht Hm Hs.
  assert (Hlen : length (rows a) = length (rows b)).
  { rewrite <- (length_map city (rows a)), <- (length_map city (rows b)).
    unfold col_city in Hc. now rewrite Hc. }
  unfold assign_city, city_means, city_stds, column. simpl.
  rewrite !city_mask_col_city, Hc, Ht, Hm, Hs, Hlen. now split.
Qed.

Lemma assign_fold_ext (cities : list string) :
  forall a b : DataFrame,
    col_city a = col_city b -> col_temperature a = col_temperature b ->
    moving_mean a = moving_mean b -> moving_std a = moving_std b ->
    moving_mean (fold_left assign_city cities a)
      = moving_mean (fold_left assign_city cities b)
    /\ moving_std (fold_left assign_city cities a)
       = moving_std (fold_left assign_city cities b).
Proof.
  induction cities as [|c cities IH]; intros a b Hc Ht Hm Hs; simpl;
    [now split|].
  destruct (assign_city_ext a b c Hc Ht Hm Hs) as [Hm' Hs'].
  apply IH; assumption.
Qed.

(** X19.  The window of [calc_moving_avg] is thirty rows of the city, in the
    order of the frame; the timestamps play no part.  Two frames with the
    same cities and temperatures row by row get the same [moving_mean] and
    [moving_std] columns, whatever their timestamps, seasons and labels. *)
Theorem calc_moving_avg_ignores_timestamps (a b a' b' : DataFrame)
    (pa pb : bool) :
  NoDup (labels a) -> well_formed a -> NoDup (labels b) -> well_formed b ->
  col_city a = col_city b -> col_temperature a = col_temperature b ->
  moving_mean a = moving_mean b -> moving_std a = moving_std b ->
  calc_moving_avg a pa = Py.Ok a' -> calc_moving_avg b pb = Py.Ok b' ->
  moving_mean a' = moving_mean b' /\ moving_std a' = moving_std b'.
Proof.
  intros Hna Hwa Hnb Hwb Hc Ht Hm Hs Ha Hb.
  rewrite (calc_moving_avg_assign a pa Hna Hwa) in Ha.
  rewrite (calc_moving_avg_assign b pb Hnb Hwb) in Hb.
  injection Ha as <-. injection Hb as <-. rewrite Hc.
  now apply assign_fold_ext.
Qed.

Lemma calc_moving_avg_ignores_timestamps_hourly :
  moving_mean (Examples.with_moving Examples.berlin_30)
    = moving_mean (Examples.with_moving Examples.berlin_30_hourly)
  /\ moving_std (Examples.with_moving Examples.berlin_30)
     = moving_std (Examples.with_moving Examples.berlin_30_hourly).
Proof.
  apply (calc_moving_avg_ignores_timestamps Examples.berlin_30
           Examples.berlin_30_hourly _ _ false false).
  - apply distinct_NoDup. vm_compute. reflexivity.
  - apply frame_of_well_formed.
  - apply distinct_NoDup. vm_compute. reflexivity.
  - apply frame_of_well_formed.
  - vm_compute. reflexivity.
  - vm_compute. reflexivity.
  - reflexivity.
  - reflexivity.
  - vm_compute. reflexivity.
  - vm_compute. reflexivity.
Defined.

End PipelineFacts.

(** * The seasonal baseline at its edges *)
Module BaselineFacts.
Import F64 F64Facts WeatherMonitor.

(** X20.  When the history has no reading of the city in the season (a city that
    is not in the file, a season without data), every statistic of the
    baseline is NaN and every live temperature is reported as within the
    normal range, with a NaN deviation. *)
Theorem no_reading_baseline_is_silent (df : Analysis.DataFrame)
    (city season : string) :
  season_readings df city season = [] ->
  get_season_stats df city season = mkSeasonStats nan nan nan nan
  /\ forall t : float,
       check_anomaly t (get_season_stats df city season)
       = mkVerdict false "within normal range" nan.
Proof.
  intros H.
  assert (Hs : get_season_stats df city season = mkSeasonStats nan nan nan nan).
  { unfold get_season_stats. rewrite H. reflexivity. }
  split; [exact Hs|]. intros t. rewrite Hs. unfold check_anomaly. simpl.
  rewrite ltb_nan_r, ltb_nan_l, sub_nan_r. reflexivity.
Qed.

Lemma no_reading_baseline_is_silent_atlantis :
  get_season_stats Examples.rio_history "Atlantis" "summer"
    = mkSeasonStats nan nan nan nan
  /\ check_anomaly 60%float
       (get_season_stats Examples.rio_history "Atlantis" "summer")
     = mkVerdict false "within normal range" nan.
Proof.
  destruct (no_reading_baseline_is_silent Examples.rio_history
              "Atlantis" "summer" eq_refl) as [Hs Hv].
  split; [exact Hs | exact (Hv 60%float)].
Defined.

(** X21.  A live temperature that is NaN is reported as within the normal
    range, whatever the baseline. *)
Theorem nan_temperature_is_within_range (stats : SeasonStats) :
  check_anomaly nan stats = mkVerdict false "within normal range" nan.
Proof.
  unfold check_anomaly. rewrite ltb_nan_l, ltb_nan_r, sub_nan_l. reflexivity.
Qed.

(** X22.  [get_current_season] follows the meteorological seasons of the
    northern hemisphere: the months 12, 1, 2 are winter, and each following
    run of three months is the next of spring, summer and autumn. *)
Theorem season_of_month_table (month : Z) :
  1 <= month <= 12 ->
  season_of_month month
  = nth (Z.to_nat (month mod 12 / 3))
        ["winter"; "spring"; "summer"; "autumn"]%string "autumn"%string.
Proof.
  intros H.
  assert (Hm : month = 1 \/ month = 2 \/ month = 3 \/ month = 4 \/ month = 5
               \/ month = 6 \/ month = 7 \/ month = 8 \/ month = 9
               \/ month = 10 \/ month = 11 \/ month = 12) by lia.
  repeat (destruct Hm as [-> | Hm]; [reflexivity|]). now subst.
Qed.

Lemma season_of_month_table_november :
  season_of_month 11 = "autumn"%string /\ season_of_month 12 = "winter"%string.
Proof.
  split.
  - rewrite (season_of_month_table 11) by lia. reflexivity.
  - rewrite (season_of_month_table 12) by lia. reflexivity.
Defined.

End BaselineFacts.

(** * The analysis as the dashboard runs it *)
Module AppFacts.
Import F64 Pandas Analysis IndexingFacts FrameFacts SeriesFacts.
Import TrendFacts PipelineFacts.

Section Run.

Variable p : float -> Z -> float.

Lemma moving_then_flags (df : DataFrame) (parallel : bool) :
  NoDup (labels df) -> well_formed df -> rows df <> [] ->
  exists df1 df2 mm ms,
    calc_moving_avg df parallel = Py.Ok df1
    /\ calc_anomalies df1 = Py.Ok df2
    /\ rows df2 = rows df
    /\ moving_mean df2 = Some mm /\ moving_std df2 = Some ms
    /\ length mm = length (rows df) /\ length ms = length (rows df)
    /\ trend df2 = trend df
    /\ (exists lo hi flags,
          lower_bound df2 = Some lo /\ upper_bound df2 = Some hi
          /\ is_anomaly df2 = Some flags
          /\ length lo = length (rows df) /\ length hi = length (rows df)
          /\ length flags = length (rows df)).
Proof.
  intros Hnd Hwf Hne. rewrite (calc_moving_avg_assign df parallel Hnd Hwf).
  set (final := fold_left assign_city (unique (col_city df)) df).
  assert (Hrows : rows final = rows df) by apply assign_fold_rows.
  destruct (assign_fold_well_formed (unique (col_city df)) df Hwf)
    as (Hm & Hs & _). fold final in Hm, Hs.
  destruct (assign_fold_others (unique (col_city df)) df) as (_ & _ & Ht).
  fold final in Ht.
  destruct (assign_fold_present (unique (col_city df)) df) as [Pm Ps].
  { left. apply unique_nonempty. unfold col_city.
    destruct (rows df); [congruence | discriminate]. }
  fold final in Pm, Ps.
  destruct (moving_mean final) as [mm|] eqn:Em; [|congruence].
  destruct (moving_std final) as [ms|] eqn:Es; [|congruence].
  simpl in Hm, Hs. rewrite Hrows in Hm, Hs.
  exists final. unfold calc_anomalies. rewrite Em, Es.
  eexists. exists mm, ms.
  split; [reflexivity|]. split; [reflexivity|]. simpl.
  split; [exact Hrows|]. split; [reflexivity|]. split; [reflexivity|].
  split; [exact Hm|]. split; [exact Hs|]. split; [exact Ht|].
  eexists. eexists. eexists.
  split; [reflexivity|]. split; [reflexivity|]. split; [reflexivity|].
  unfold col_temperature.
  rewrite !length_map, !length_combine, !length_map, !length_combine.
  rewrite Hrows, Hm, Hs. repeat split; lia.
Qed.

Lemma run_analysis_no_rows (df : DataFrame) (parallel : bool) :
  rows df = [] -> moving_mean df = None ->
  App.run_analysis p parallel df = Py.Raise (Py.KeyError "moving_mean").
Proof.
  intros Hrows Hm. unfold App.run_analysis.
  assert (H : calc_moving_avg df parallel = Py.Ok df).
  { unfold calc_moving_avg, col_city. rewrite Hrows.
    destruct parallel; reflexivity. }
  rewrite H. simpl. unfold calc_anomalies. now rewrite Hm.
Qed.

(** X24.  For a file as [pd.read_csv] gives it, the three steps go through
    exactly when the file has a row and every city has either a single
    reading or two readings a day or more apart.  Otherwise the dashboard
    stops on an exception: [KeyError] for a file without rows, the
    [ValueError] of [linregress] for a city whose readings all fall within
    one day. *)
Theorem run_analysis_returns_iff (parallel : bool) (rs : list Row) :
  NoDup (map label rs) ->
  (exists res, App.run_analysis p parallel (frame_of rs) = Py.Ok res) <->
  rs <> [] /\
  forall c, In c (map city rs) ->
    length (city_frame (frame_of rs) c) = 1%nat
    \/ spans_a_day (city_frame (frame_of rs) c).
Proof.
  intros Hnd.
  assert (Hwf : well_formed (frame_of rs)) by apply frame_of_well_formed.
  split.
  - intros [res Hres].
    assert (Hne : rs <> []).
    { intros Hnil. rewrite Hnil in Hres.
      rewrite (run_analysis_no_rows (frame_of []) parallel eq_refl eq_refl)
        in Hres.
      discriminate. }
    split; [exact Hne|].
    destruct (moving_then_flags (frame_of rs) parallel Hnd Hwf Hne)
      as (df1 & df2 & mm & ms & H1 & H2 & Hrows & _ & _ & _ & _ & Ht & _).
    unfold App.run_analysis in Hres. rewrite H1 in Hres. simpl in Hres.
    rewrite H2 in Hres. simpl in Hres. destruct res as [trends df3].
    rewrite calc_trend_loop in Hres.
    assert (Hok : column_ok df2 (trend df2)) by (rewrite Ht; exact I).
    destruct (trend_loop_fits p df2 _ _ _ _ _ (unique_NoDup (col_city df2))
                eq_refl Hok Hres) as (_ & Hfit & _).
    intros c Hc.
    assert (Hc2 : In c (col_city df2))
      by (unfold col_city; rewrite Hrows; exact Hc).
    destruct (Hfit c (proj2 (unique_In _ _) Hc2)) as (lr & Hlr & _).
    rewrite <- (city_frame_same_rows (frame_of rs) df2 c Hrows).
    now apply (city_fit_ok_condition p df2 c lr).
  - intros [Hne Hc].
    destruct (moving_then_flags (frame_of rs) parallel Hnd Hwf Hne)
      as (df1 & df2 & mm & ms & H1 & H2 & Hrows & _ & _ & _ & _ & Ht & _).
    assert (Hok : column_ok df2 (trend df2)) by (rewrite Ht; exact I).
    destruct (trend_loop_returns p df2 (unique (col_city df2)) [] df2
                eq_refl Hok) as (trends & df3 & Hrun & _).
    { intros c Hin. apply (proj1 (unique_In _ _)) in Hin.
      split; [exact Hin|].
      rewrite (city_frame_same_rows (frame_of rs) df2 c Hrows).
      apply Hc. unfold col_city in Hin. now rewrite Hrows in Hin. }
    exists (trends, df3). unfold App.run_analysis. rewrite H1. simpl.
    rewrite H2. simpl. now rewrite calc_trend_loop.
Qed.

(** X25.  When the three steps return, the frame has its rows unchanged and all
    six derived columns, each with one cell per row, and the dict has a key
    for every city of the frame: the lookups [trends[selected_city]] and
    [city_df['trend']] of the dashboard cannot fail. *)
Theorem run_analysis_result (parallel : bool) (df : DataFrame)
    (trends : Trends) (df3 : DataFrame) :
  NoDup (labels df) -> well_formed df -> rows df <> [] ->
  App.run_analysis p parallel df = Py.Ok (trends, df3) ->
  rows df3 = rows df
  /\ map fst trends = unique (col_city df)
  /\ exists mm ms lo hi flags tr,
       moving_mean df3 = Some mm /\ moving_std df3 = Some ms
       /\ lower_bound df3 = Some lo /\ upper_bound df3 = Some hi
       /\ is_anomaly df3 = Some flags /\ trend df3 = Some tr
       /\ length mm = length (rows df) /\ length ms = length (rows df)
       /\ length lo = length (rows df) /\ length hi = length (rows df)
       /\ length flags = length (rows df) /\ length tr = length (rows df).
Proof.
  intros Hnd Hwf Hne Hres.
  destruct (moving_then_flags df parallel Hnd Hwf Hne)
    as (df1 & df2 & mm & ms & H1 & H2 & Hrows & Hmm & Hms & Lm & Ls & Ht
        & lo & hi & flags & Hlo & Hhi & Hfl & Llo & Lhi & Lfl).
  unfold App.run_analysis in Hres. rewrite H1 in Hres. simpl in Hres.
  rewrite H2 in Hres. simpl in Hres. rewrite calc_trend_loop in Hres.
  assert (Hok : column_ok df2 (trend df2)).
  { destruct Hwf as (_ & _ & Hwt). unfold column_ok in *. rewrite Ht.
    destruct (trend df); [now rewrite Hrows | exact I]. }
  destruct (trend_loop_fits p df2 _ _ _ _ _ (unique_NoDup (col_city df2))
              eq_refl Hok Hres) as (_ & Hfit & _).
  destruct (trend_loop_returns p df2 (unique (col_city df2)) [] df2
              eq_refl Hok)
    as (trends' & df3' & Hrun & Hkeys & Hsame & Hok' & Hsome).
  { intros c Hin. split; [now apply (proj1 (unique_In _ _))|].
    destruct (Hfit c Hin) as (lr & Hlr & _).
    apply (city_fit_ok_condition p df2 c lr); [|exact Hlr].
    now apply (proj1 (unique_In _ _)). }
  rewrite Hrun in Hres. injection Hres as -> ->.
  destruct Hsame as (R & S1 & S2 & S3 & S4 & S5).
  assert (Hcities : col_city df2 = col_city df)
    by (unfold col_city; now rewrite Hrows).
  split; [now rewrite R|]. split; [now rewrite Hkeys, Hcities|].
  destruct (trend df3) as [tr|] eqn:Htr.
  2: { exfalso. apply Hsome; [|reflexivity]. left.
       apply unique_nonempty. rewrite Hcities. unfold col_city.
       destruct (rows df); [congruence | discriminate]. }
  exists mm, ms, lo, hi, flags, tr.
  rewrite S1, S2, S3, S4, S5. simpl in Hok'. rewrite R, Hrows in Hok'.
  now repeat split.
Qed.

End Run.

Lemma run_analysis_result_cairo_single :
  exists trends df3,
    App.run_analysis Examples.no_p_value true Examples.cairo_single
      = Py.Ok (trends, df3)
    /\ map fst trends = ["Berlin"; "Cairo"]%string
    /\ rows df3 = rows Examples.cairo_single
    /\ option_map (@length float) (trend df3) = Some 4%nat.
Proof.
  destruct (App.run_analysis Examples.no_p_value true Examples.cairo_single)
    as [[trends df3]|e] eqn:Hrun; [|vm_compute in Hrun; discriminate].
  exists trends, df3. split; [reflexivity|].
  destruct (run_analysis_result Examples.no_p_value true
              Examples.cairo_single trends df3) as (R & K & H).
  - apply distinct_NoDup. vm_compute. reflexivity.
  - apply frame_of_well_formed.
  - discriminate.
  - exact Hrun.
  - split; [exact K|]. split; [exact R|].
    destruct H as (mm & ms & lo & hi & flags & tr & _ & _ & _ & _ & _ & Ht
                   & _ & _ & _ & _ & _ & Lt).
    rewrite Ht. simpl. now rewrite Lt.
Defined.

Lemma run_analysis_returns_iff_cairo :
  (exists res,
     App.run_analysis Examples.no_p_value false Examples.cairo_single
     = Py.Ok res)
  /\ ~ (exists res,
          App.run_analysis Examples.no_p_value false Examples.cairo_same_day
          = Py.Ok res).
Proof.
  split.
  - apply (run_analysis_returns_iff Examples.no_p_value false
             (rows Examples.cairo_single)).
    + apply distinct_NoDup. vm_compute. reflexivity.
    + split; [discriminate|]. intros c Hc. vm_compute in Hc.
      destruct Hc as [<- | [<- | [<- | [<- | []]]]].
      4: now left.
      all: right;
        exists (mkRow 0 0 "Berlin" 1.5%float "winter"),
               (mkRow 1 Examples.day "Berlin" 2.5%float "winter");
        split; [vm_compute; now left|];
        split; [vm_compute; right; now left|];
        vm_compute; discriminate.
  - intros H.
    apply (run_analysis_returns_iff Examples.no_p_value false
             (rows Examples.cairo_same_day)) in H.
    + destruct H as [_ H]. destruct (H "Cairo"%string) as [H1 | H1].
      * vm_compute. tauto.
      * vm_compute in H1. discriminate.
      * destruct H1 as (r & r' & Hr & Hr' & Hge). vm_compute in Hr, Hr'.
        destruct Hr as [<- | [<- | []]]; destruct Hr' as [<- | [<- | []]];
          vm_compute in Hge; now apply Hge.
    + apply distinct_NoDup. vm_compute. reflexivity.
Defined.

End AppFacts.

(** * The table of statistics by city and season *)
Module SeasonFacts.
Import F64 Pandas Analysis.

(** ** Sorting the group keys *)

Lemma key_leb_total (a b : GroupKey) : key_leb a b = true \/ key_leb b a = true.
Proof.
  unfold key_leb. rewrite (String.compare_antisym (fst b) (fst a)).
  destruct (String.compare (fst a) (fst b)) eqn:Hc; simpl.
  - apply String.leb_total.
  - now left.
  - now right.
Qed.

Lemma insert_key_perm (k : GroupKey) (ks : list GroupKey) :
  Permutation (insert_key k ks) (k :: ks).
Proof.
  induction ks as [|k' ks IH]; simpl; [apply Permutation_refl|].
  destruct (key_leb k k'); [apply Permutation_refl|].
  eapply Permutation_trans; [apply perm_skip, IH | apply perm_swap].
Qed.

Lemma sort_keys_perm (ks : list GroupKey) : Permutation (sort_keys ks) ks.
Proof.
  induction ks as [|k ks IH]; simpl; [apply Permutation_refl|].
  eapply Permutation_trans; [apply insert_key_perm | now apply perm_skip].
Qed.

Lemma insert_key_hd (k a : GroupKey) (ks : list GroupKey) :
  key_le a k -> HdRel key_le a ks -> HdRel key_le a (insert_key k ks).
Proof.
  intros Hak H. destruct ks as [|k' ks]; simpl; [now constructor|].
  destruct (key_leb k k'); constructor; [exact Hak|].
  now inversion H.
Qed.

Lemma insert_key_sorted (k : GroupKey) (ks : list GroupKey) :
  Sorted key_le ks -> Sorted key_le (insert_key k ks).
Proof.
  induction ks as [|k' ks IH]; intros H; simpl.
  - repeat constructor.
  - inversion H as [|? ? Hs Hh]; subst.
    destruct (key_leb k k') eqn:Hk.
    + constructor; [exact H | now constructor].
    + constructor; [now apply IH|].
      apply insert_key_hd; [|exact Hh].
      destruct (key_leb_total k k') as [Hc | Hc]; [congruence | exact Hc].
Qed.

Lemma sort_keys_sorted (ks : list GroupKey) : Sorted key_le (sort_keys ks).
Proof.
  induction ks as [|k ks IH]; simpl; [constructor|].
  now apply insert_key_sorted.
Qed.

Lemma profile_keys (df : DataFrame) :
  map (fun pr => (sp_city pr, sp_season pr)) (calc_city_season_stats df)
  = group_keys df.
Proof.
  unfold calc_city_season_stats. rewrite map_map. simpl.
  induction (group_keys df) as [|[c s] ks IH]; simpl; [reflexivity|].
  now rewrite IH.
Qed.

(** X26.  [calc_city_season_stats] returns one row for each pair of a city and a
    season that occurs in the frame, and no other: the rows are sorted by
    city, then by season, and no pair has two rows. *)
Theorem calc_city_season_stats_groups (df : DataFrame) :
  Sorted key_le
    (map (fun pr => (sp_city pr, sp_season pr)) (calc_city_season_stats df))
  /\ NoDup
       (map (fun pr => (sp_city pr, sp_season pr)) (calc_city_season_stats df))
  /\ forall c s,
       In (c, s)
          (map (fun pr => (sp_city pr, sp_season pr))
               (calc_city_season_stats df))
       <-> exists r, In r (rows df) /\ city r = c /\ season r = s.
Proof.
  rewrite profile_keys. unfold group_keys.
  set (ks := map (fun r => (city r, season r)) (rows df)).
  split; [apply sort_keys_sorted|]. split.
  - apply (Permutation_NoDup (Permutation_sym (sort_keys_perm _))).
    apply NoDup_nodup.
  - intros c s. split.
    + intros H. apply (Permutation_in _ (sort_keys_perm _)) in H.
      apply nodup_In in H. unfold ks in H. apply in_map_iff in H.
      destruct H as (r & [= <- <-] & Hr). now exists r.
    + intros (r & Hr & <- & <-).
      apply (Permutation_in _ (Permutation_sym (sort_keys_perm _))).
      apply nodup_In. unfold ks. apply in_map_iff. now exists r.
Qed.

Lemma group_std_single (x : float) : group_std [x] = nan.
Proof.
  unfold group_std, group_var_step. simpl.
  destruct (notna x); reflexivity.
Qed.

(** X27.  A pair of a city and a season with a single reading has a row whose
    [std_temp] is NaN: the seasonal profile draws it without an error bar. *)
Theorem calc_city_season_stats_single_reading (df : DataFrame)
    (c s : string) (r : Row) :
  WeatherMonitor.season_readings df c s = [r] ->
  In (mkSeasonProfile c s (group_mean [temperature r]) nan)
     (calc_city_season_stats df).
Proof.
  unfold WeatherMonitor.season_readings. intros Hg.
  assert (Hr : In r (filter (fun r => String.eqb (city r) c
                                      && String.eqb (season r) s) (rows df)))
    by (rewrite Hg; now left).
  apply filter_In in Hr. destruct Hr as [Hr Hk].
  apply andb_true_iff in Hk. destruct Hk as [Hc Hs].
  apply String.eqb_eq in Hc, Hs.
  assert (Hin : In (c, s) (group_keys df)).
  { unfold group_keys.
    apply (Permutation_in _ (Permutation_sym (sort_keys_perm _))).
    apply nodup_In, in_map_iff. exists r. now subst. }
  unfold calc_city_season_stats. apply in_map_iff. exists (c, s).
  split; [|exact Hin]. unfold group_temperatures. simpl. rewrite Hg. simpl.
  f_equal. apply group_std_single.
Qed.

Lemma calc_city_season_stats_single_reading_rio :
  In (mkSeasonProfile "Rio de Janeiro" "autumn" (group_mean [21%float]) nan)
     (calc_city_season_stats Examples.rio_history).
Proof.
  apply (calc_city_season_stats_single_reading Examples.rio_history
           "Rio de Janeiro" "autumn"
           (mkRow 4 (100 * Examples.day) "Rio de Janeiro" 21%float "autumn")).
  reflexivity.
Defined.

End SeasonFacts.

(** * The order of binary64 numbers, and what the live check inherits *)
Module OrderFacts.
Import F64 F64Facts WeatherMonitor.

Ltac order_cases :=
  repeat match goal with
         | H : context [Z.compare ?x ?y] |- _ =>
             destruct (Z.compare_spec x y); simpl in H
         | |- context [Z.compare ?x ?y] =>
             destruct (Z.compare_spec x y); simpl
         | H : context [Pos.compare ?x ?y] |- _ =>
             destruct (Pos.compare_spec x y); simpl in H
         | |- context [Pos.compare ?x ?y] =>
             destruct (Pos.compare_spec x y); simpl
         end;
  subst; try discriminate; try reflexivity; try lia.

Lemma SFcompare_lt_le_trans (a b c : spec_float) :
  SFcompare a b = Some Lt ->
  SFcompare b c = Some Lt \/ SFcompare b c = Some Eq ->
  SFcompare a c = Some Lt.
Proof.
  destruct a as [sa|sa| |sa ma ea], b as [sb|sb| |sb mb eb],
           c as [sc|sc| |sc mc ec]; simpl;
    intros H [H' | H']; try discriminate; try reflexivity;
    repeat match goal with s : bool |- _ => destruct s end;
    simpl in *; try discriminate; try reflexivity;
    change PosDef.Pos.compare_cont with Pos.compare_cont in *;
    change (Pos.compare_cont Eq ma mb) with (Pos.compare ma mb) in *;
    change (Pos.compare_cont Eq mb mc) with (Pos.compare mb mc) in *;
    change (Pos.compare_cont Eq ma mc) with (Pos.compare ma mc) in *;
    injection H as H; injection H' as H'; f_equal; order_cases.
Qed.

Lemma SFcompare_le_lt_trans (a b c : spec_float) :
  SFcompare a b = Some Lt \/ SFcompare a b = Some Eq ->
  SFcompare b c = Some Lt ->
  SFcompare a c = Some Lt.
Proof.
  destruct a as [sa|sa| |sa ma ea], b as [sb|sb| |sb mb eb],
           c as [sc|sc| |sc mc ec]; simpl;
    intros [H | H] H'; try discriminate; try reflexivity;
    repeat match goal with s : bool |- _ => destruct s end;
    simpl in *; try discriminate; try reflexivity;
    change PosDef.Pos.compare_cont with Pos.compare_cont in *;
    change (Pos.compare_cont Eq ma mb) with (Pos.compare ma mb) in *;
    change (Pos.compare_cont Eq mb mc) with (Pos.compare mb mc) in *;
    change (Pos.compare_cont Eq ma mc) with (Pos.compare ma mc) in *;
    injection H as H; injection H' as H'; f_equal; order_cases.
Qed.

Lemma ltb_SF (x y : float) :
  (x <? y)%float = true <-> SFcompare (Prim2SF x) (Prim2SF y) = Some Lt.
Proof.
  rewrite FloatAxioms.ltb_spec. unfold SFltb.
  destruct (SFcompare (Prim2SF x) (Prim2SF y)) as [[ | | ]|];
    split; intros H; congruence.
Qed.

Lemma leb_SF (x y : float) :
  (x <=? y)%float = true <->
  SFcompare (Prim2SF x) (Prim2SF y) = Some Lt
  \/ SFcompare (Prim2SF x) (Prim2SF y) = Some Eq.
Proof.
  rewrite FloatAxioms.leb_spec. unfold SFleb.
  destruct (SFcompare (Prim2SF x) (Prim2SF y)) as [[ | | ]|];
    split; intros H; try congruence; try (now left); try (now right);
    destruct H; congruence.
Qed.

(** [<] and [<=] on binary64 numbers chain as on the reals. *)
Lemma ltb_leb_trans (x y z : float) :
  (x <? y)%float = true -> (y <=? z)%float = true -> (x <? z)%float = true.
Proof.
  rewrite !ltb_SF, leb_SF. apply SFcompare_lt_le_trans.
Qed.

Lemma leb_ltb_trans (x y z : float) :
  (x <=? y)%float = true -> (y <? z)%float = true -> (x <? z)%float = true.
Proof.
  rewrite !ltb_SF, leb_SF. apply SFcompare_le_lt_trans.
Qed.

(** X28.  The verdict is monotone: a temperature at least as high as one that is
    above the upper bound, or at least as low as one that is below the lower
    bound, is an anomaly too. *)
Theorem check_anomaly_monotone (t t' : float) (stats : SeasonStats) :
  ((upper stats <? t)%float = true /\ (t <=? t')%float = true) \/
  ((t <? lower stats)%float = true /\ (t' <=? t)%float = true) ->
  is_anomaly (check_anomaly t' stats) = true
  /\ status (check_anomaly t' stats) <> "within normal range"%string.
Proof.
  intros [[Hu Hle] | [Hl Hle]]; unfold check_anomaly; simpl.
  - rewrite (ltb_leb_trans _ _ _ Hu Hle), orb_true_r.
    split; [reflexivity|].
    destruct (t' <? lower stats)%float; discriminate.
  - rewrite (leb_ltb_trans _ _ _ Hle Hl). split; [reflexivity | discriminate].
Qed.

Lemma check_anomaly_monotone_rio :
  is_anomaly
    (check_anomaly 41.5%float
       (get_season_stats Examples.rio_history "Rio de Janeiro" "summer"))
  = true
  /\ status
       (check_anomaly 41.5%float
          (get_season_stats Examples.rio_history "Rio de Janeiro" "summer"))
     <> "within normal range"%string.
Proof.
  apply (check_anomaly_monotone 36%float). left. split; reflexivity.
Defined.

End OrderFacts.
